(** * Verification of the STAR/LST record engine of the NiLab scripts

    Shallow embedding of the Python code under [src/jalign] and [src/warp]:
    the STAR loop scanner and STAR writer, the LST readers, the histogram
    binning routines and the optics-group renumbering.  Strings are
    [String.string] over ASCII; Python whitespace, [str.strip], [str.split]
    and [str.zfill] are written out below.  Numeric values read with
    [float()] are modelled exactly, as rationals, with the non-finite
    values as separate constructors, except in equal-width binning, whose
    arithmetic is modelled as Python does it, in IEEE 754 doubles. *)

From Stdlib Require Import String Ascii List Bool ZArith QArith Lia.
From Stdlib Require Import Qround Qabs Sorted Permutation.
From Stdlib Require Import SpecFloat.
Import ListNotations.
Open Scope nat_scope.
Open Scope string_scope.

(* ------------------------------------------------------------------ *)
(** ** Python string primitives *)

Module Py.

(** [str.isspace] on ASCII: \t \n \v \f \r, the separators 0x1c-0x1f
    and the space. *)
Definition is_space (c : ascii) : bool :=
  let n := nat_of_ascii c in
  (Nat.leb 9 n && Nat.leb n 13) || (Nat.leb 28 n && Nat.leb n 32).

(** [str.isdigit] on ASCII, the class [\d] of the [re] module. *)
Definition is_digit (c : ascii) : bool :=
  let n := nat_of_ascii c in Nat.leb 48 n && Nat.leb n 57.

Definition digit_val (c : ascii) : Z := Z.of_nat (nat_of_ascii c - 48).

Fixpoint lstrip (s : string) : string :=
  match s with
  | EmptyString => EmptyString
  | String c r => if is_space c then lstrip r else s
  end.

Definition rstrip (s : string) : string :=
  string_of_list_ascii (rev (list_ascii_of_string
    (lstrip (string_of_list_ascii (rev (list_ascii_of_string s)))))).

(** [s.strip()] *)
Definition strip (s : string) : string := rstrip (lstrip s).

(** [s.split()]: split on runs of whitespace, no empty fields.  [cur]
    holds the characters of the field being read. *)
Fixpoint split_aux (cur : string) (s : string) : list string :=
  match s with
  | EmptyString => if String.eqb cur "" then [] else [cur]
  | String c r =>
      if is_space c then
        (if String.eqb cur "" then [] else [cur]) ++ split_aux "" r
      else split_aux (cur ++ String c "") r
  end.

Definition split (s : string) : list string := split_aux "" s.

(** [s.startswith(p)] *)
Definition startswith (s p : string) : bool := String.prefix p s.

Definition lower_char (c : ascii) : ascii :=
  let n := nat_of_ascii c in
  if Nat.leb 65 n && Nat.leb n 90 then ascii_of_nat (n + 32) else c.

(** [s.lower()] on ASCII *)
Fixpoint lower (s : string) : string :=
  match s with
  | EmptyString => EmptyString
  | String c r => String (lower_char c) (lower r)
  end.

Fixpoint repeat_char (c : ascii) (n : nat) : string :=
  match n with
  | O => EmptyString
  | S k => String c (repeat_char c k)
  end.

(** Decimal digits of a natural number, most significant first. *)
Fixpoint digits_aux (fuel : nat) (n : N) (acc : string) : string :=
  match fuel with
  | O => acc
  | S f =>
      let d := ascii_of_nat (48 + N.to_nat (n mod 10)) in
      let q := (n / 10)%N in
      if (q =? 0)%N then String d acc else digits_aux f q (String d acc)
  end.

Definition str_N (n : N) : string := digits_aux (S (N.to_nat n)) n "".

(** [str(n)] for a Python int *)
Definition str_Z (z : Z) : string :=
  match z with
  | Zneg p => String "-" (str_N (Npos p))
  | _ => str_N (Z.to_N z)
  end.

(** [s.zfill(width)] *)
Definition zfill (s : string) (width : nat) : string :=
  let fill := (width - String.length s)%nat in
  match s with
  | String c r =>
      if (Ascii.eqb c "+" || Ascii.eqb c "-")%char
      then String c (repeat_char "0" fill ++ r)
      else repeat_char "0" fill ++ s
  | EmptyString => repeat_char "0" fill
  end.

(** Value of a string of decimal digits, as [int()] reads it;
    [acc] is the value of the digits already read. *)
Fixpoint digits_from (acc : Z) (s : string) : Z :=
  match s with
  | EmptyString => acc
  | String c r => digits_from (10 * acc + digit_val c)%Z r
  end.

Definition digits_value (s : string) : Z := digits_from 0%Z s.

Fixpoint all_digits (s : string) : bool :=
  match s with
  | EmptyString => true
  | String c r => is_digit c && all_digits r
  end.

End Py.

(* ------------------------------------------------------------------ *)
(** ** Image tags (lst2star.read_lst, lstFiltered2star.read_lst2) *)

Module Tag.
Import Py.

(** [new_image_id = image_id + 1;
     tag = f"{str(new_image_id).zfill(6)}@{micro_path}"] *)
Definition image_tag (image_id : Z) (micro_path : string) : string :=
  zfill (str_Z (image_id + 1)) 6 ++ "@" ++ micro_path.

End Tag.

(* ------------------------------------------------------------------ *)
(** ** Python dicts with insertion order *)

Module Dict.

(** A dict as its list of items, in insertion order (keys distinct). *)
Definition dict (K V : Type) := list (K * V).

Section D.
Context {K V : Type} (eqk : K -> K -> bool).

(** [d.get(k)] *)
Fixpoint get (d : dict K V) (k : K) : option V :=
  match d with
  | [] => None
  | (k', v) :: r => if eqk k' k then Some v else get r k
  end.

(** [d[k] = v]: overwrite in place, or append a new item. *)
Fixpoint set (d : dict K V) (k : K) (v : V) : dict K V :=
  match d with
  | [] => [(k, v)]
  | (k', v') :: r => if eqk k' k then (k', v) :: r else (k', v') :: set r k v
  end.

End D.
End Dict.

(* ------------------------------------------------------------------ *)
(** ** Optics-group renumbering (warp/delete_ogs.py) *)

Module Renumber.
Import Py.

(** Greedy run of leading digits: [(run, rest)]. *)
Fixpoint span_digits (s : string) : string * string :=
  match s with
  | EmptyString => (EmptyString, EmptyString)
  | String c r =>
      if is_digit c then let '(d, post) := span_digits r in (String c d, post)
      else (EmptyString, s)
  end.

(** [re.search(r'(\d+)', s)]: [(s[:m.start()], m.group(1), s[m.end():])]. *)
Fixpoint first_digit_run (s : string) : option (string * string * string) :=
  match s with
  | EmptyString => None
  | String c r =>
      if is_digit c then let '(d, post) := span_digits s in Some (EmptyString, d, post)
      else match first_digit_run r with
           | Some (pre, d, post) => Some (String c pre, d, post)
           | None => None
           end
  end.

(** [extract_digits_int] *)
Definition extract_digits_int (s : string) : option Z :=
  match first_digit_run s with
  | Some (_, d, _) => Some (digits_value d)
  | None => None
  end.

(** [str(new_num)] where [new_num] is an int or [None]. *)
Definition str_opt (v : option Z) : string :=
  match v with Some z => str_Z z | None => "None" end.

(** [replace_first_digit_group] *)
Definition replace_first_digit_group (name : string) (new_num : option Z) : string :=
  match first_digit_run name with
  | None => name
  | Some (pre, _, post) => pre ++ str_opt new_num ++ post
  end.

Definition mapping := Dict.dict Z Z.
Definition get (m : mapping) (k : Z) : option Z := Dict.get Z.eqb m k.

(** [old_to_new.get(extract_digits_int(nm))]: a [None] key is never in
    the dict. *)
Definition get_opt (m : mapping) (k : option Z) : option Z :=
  match k with Some z => get m z | None => None end.

(** The loop of [renumber_global_names] filling [seen]. *)
Definition seen_step (seen : list Z) (nm : string) : list Z :=
  match extract_digits_int nm with
  | Some old => if existsb (Z.eqb old) seen then seen else seen ++ [old]
  | None => seen
  end.

Definition collect_seen (names : list string) : list Z :=
  fold_left seen_step names [].

(** [for i, old in enumerate(seen, start=1): old_to_new[old] = i] *)
Fixpoint enumerate_into (m : mapping) (i : Z) (seen : list Z) : mapping :=
  match seen with
  | [] => m
  | old :: r => enumerate_into (Dict.set Z.eqb m old i) (i + 1) r
  end.

(** The lambda applied to the [rlnOpticsGroupName] column. *)
Definition rename (m : mapping) (nm : string) : string :=
  replace_first_digit_group nm (get_opt m (extract_digits_int nm)).

(** [renumber_global_names] on the [rlnOpticsGroupName] column. *)
Definition renumber_global_names (names : list string) : list string * mapping :=
  let old_to_new := enumerate_into [] 1 (collect_seen names) in
  (map (rename old_to_new) names, old_to_new).

(** [.map(lambda v: mapping.get(v, v))] on the [rlnOpticsGroup] column. *)
Definition map_group (m : mapping) (v : Z) : Z :=
  match get m v with Some n => n | None => v end.

End Renumber.

(* ------------------------------------------------------------------ *)
(** ** Histogram binning (jalign/divide_histogram.py) *)

Module Binning.
Local Open Scope Q_scope.

(** A Python float read by [float()]: finite values exactly, as
    rationals, and the three non-finite values. *)
Inductive fval := Fin (q : Q) | PInf | NInf | NaN.

(** [math.isfinite] *)
Definition isfinite (v : fval) : bool :=
  match v with Fin _ => true | _ => false end.

(** [abs(v)] *)
Definition fabs (v : fval) : fval :=
  match v with Fin q => Fin (Qabs q) | NInf => PInf | PInf => PInf | NaN => NaN end.

(** [x < y] on finite values *)
Definition Qlt_bool (x y : Q) : bool := negb (Qle_bool y x).

(** [int(x)]: truncation toward zero. *)
Definition py_int (x : Q) : Z :=
  if Qle_bool 0 x then Qfloor x else (- Qfloor (- x))%Z.

(** [round(x)]: to the nearest integer, halves to the even one. *)
Definition py_round (x : Q) : Z :=
  let n := Qfloor x in
  let f := x - inject_Z n in
  if Qlt_bool f (1 # 2) then n
  else if Qlt_bool (1 # 2) f then (n + 1)%Z
  else if Z.even n then n else (n + 1)%Z.

(** An entry: the original line and the value read from it. *)
Definition entry := (string * fval)%type.

(** Result of a function that may raise. *)
Inductive result (A : Type) := Ok (a : A) | Raise (msg : string).
Arguments Ok {A} a.
Arguments Raise {A} msg.

(** The sort key [lambda x: x[1]] on entries that passed the range test. *)
Definition key (e : entry) : Q :=
  match snd e with Fin q => q | _ => 0 end.

(** Insertion into a sorted list after every element of key [<=]. *)
Fixpoint insert_sorted (x : entry) (l : list entry) : list entry :=
  match l with
  | [] => [x]
  | y :: r => if Qlt_bool (key x) (key y) then x :: l else y :: insert_sorted x r
  end.

(** [sorted(l, key=lambda x: x[1])]: a stable sort, written as insertion
    sort (every stable sort by the same key gives the same list). *)
Definition sorted_by_value (l : list entry) : list entry :=
  fold_left (fun acc x => insert_sorted x acc) l [].

(** [vmin <= val <= vmax]; comparisons with nan are false. *)
Definition in_range (vmin vmax : Q) (v : fval) : bool :=
  match v with Fin q => Qle_bool vmin q && Qle_bool q vmax | _ => false end.

(** [l[start:end]] with [0 <= start], [0 <= end] *)
Definition slice {A} (l : list A) (start stop : nat) : list A :=
  firstn (stop - start) (skipn start l).

(** [int(round(i * total / bins))] *)
Definition cut_index (total bins i : nat) : nat :=
  Z.to_nat (py_round (inject_Z (Z.of_nat (i * total)) / inject_Z (Z.of_nat bins))).

(** [assign_bins_same_size(entries, bins, vmin, vmax)], returning
    [(buckets, edges)] together with the [skipped] count it prints. *)
Definition assign_bins_same_size (entries : list entry) (bins : nat) (vmin vmax : Q)
    : result (list (list entry) * list Q * nat) :=
  if (bins <? 1)%nat then Raise "bins must be >= 1"
  else
    let in_range_l := filter (fun e => in_range vmin vmax (snd e)) entries in
    let skipped := (length entries - length in_range_l)%nat in
    match in_range_l with
    | [] => Raise "No particles within the specified range."
    | _ =>
      let entries_sorted := sorted_by_value in_range_l in
      let total := length entries_sorted in
      let idx_edges := map (cut_index total bins) (seq 0 (bins + 1)) in
      let last := key (last entries_sorted ("", NaN)) in
      let edges := map (fun i => if (i <? total)%nat
                                 then key (nth i entries_sorted ("", NaN)) else last)
                       idx_edges in
      let buckets := map (fun i => slice entries_sorted (nth i idx_edges 0%nat)
                                                        (nth (S i) idx_edges 0%nat))
                         (seq 0 bins) in
      Ok (buckets, edges, skipped)
    end.

End Binning.

(* ------------------------------------------------------------------ *)
(** ** Python floats (IEEE 754 binary64) *)

(** Python's [float] is an IEEE 754 double: [SpecFloat]'s binary
    floating-point numbers with 53 bits of precision and exponent bound
    1024, every operation rounded to nearest, ties to even.  *)
Module Float64.
Import Binning.

Definition float := spec_float.
Definition prec : Z := 53.
Definition emax : Z := 1024.

(** [x + y], [x - y], [x * y] *)
Definition add (x y : float) : float := SFadd prec emax x y.
Definition sub (x y : float) : float := SFsub prec emax x y.
Definition mul (x y : float) : float := SFmul prec emax x y.

(** [x < y], [x == y]: false when one side is nan. *)
Definition ltb (x y : float) : bool := SFltb x y.
Definition eqb (x y : float) : bool := SFeqb x y.

(** [math.isfinite(x)] *)
Definition isfinite (x : float) : bool :=
  match x with S754_zero _ | S754_finite _ _ _ => true | _ => false end.

(** The double nearest to an integer, ties to even. *)
Definition round_int (n : Z) : float := binary_normalize prec emax n 0 false.

(** [float(n)] for a Python [int], as [int] operands of float arithmetic
    are converted: [OverflowError] when the rounded value is not finite. *)
Definition of_int (n : Z) : result float :=
  match round_int n with
  | S754_infinity _ => Raise "OverflowError: int too large to convert to float"
  | x => Ok x
  end.

(** [x / y]: [ZeroDivisionError] when [y] is a zero. *)
Definition div (x y : float) : result float :=
  match y with
  | S754_zero _ => Raise "ZeroDivisionError: float division by zero"
  | _ => Ok (SFdiv prec emax x y)
  end.

(** [int(x)]: truncation toward zero. *)
Definition to_int (x : float) : result Z :=
  match x with
  | S754_nan => Raise "ValueError: cannot convert float NaN to integer"
  | S754_infinity _ => Raise "OverflowError: cannot convert float infinity to integer"
  | S754_zero _ => Ok 0%Z
  | S754_finite s m e =>
      let a := if (0 <=? e)%Z then Z.shiftl (Zpos m) e else Z.shiftr (Zpos m) (- e) in
      Ok (if s then (- a)%Z else a)
  end.

(** The exact value of a finite double, as a rational. *)
Definition to_Q (x : float) : Q :=
  match x with
  | S754_finite s m e =>
      let a := if (0 <=? e)%Z then inject_Z (Z.shiftl (Zpos m) e)
               else (Zpos m # Pos.pow 2 (Z.to_pos (- e)))%Q in
      if s then Qopp a else a
  | _ => 0%Q
  end.

(** [float("n/d")] for a decimal literal [n/d] with [|n|, d < 2^53]:
    the double nearest to the quotient, which is the correctly rounded
    division of the two exact doubles. *)
Definition literal (n : Z) (d : positive) : float :=
  SFdiv prec emax (round_int n) (round_int (Zpos d)).

End Float64.

(** [assign_bins] of divide_histogram.py, in doubles. *)
Module WidthBinning.
Import Binning Float64.

(** An entry: the original line and its value, a double. *)
Definition fentry := (string * float)%type.

(** [buckets[k].append(ent)] *)
Fixpoint append_at (k : nat) (ent : fentry) (bs : list (list fentry)) : list (list fentry) :=
  match bs, k with
  | [], _ => []
  | b :: r, O => (b ++ [ent])%list :: r
  | b :: r, S k' => b :: append_at k' ent r
  end.

(** The bin index of a finite value in [[vmin, vmax]]:
    [bins - 1] for [vmax], else [int((val - vmin) / step)] clamped. *)
Definition bin_index (bins : nat) (vmin vmax step val : float) : result nat :=
  if eqb val vmax then Ok (bins - 1)%nat
  else
    match div (sub val vmin) step with
    | Raise m => Raise m
    | Ok q =>
        match to_int q with
        | Raise m => Raise m
        | Ok bin_idx =>
            Ok (if (bin_idx <? 0)%Z then 0%nat
                else if (Z.of_nat bins <=? bin_idx)%Z then (bins - 1)%nat
                else Z.to_nat bin_idx)
        end
    end.

(** One pass of the [for ent in entries] loop; a raise ends the loop. *)
Definition assign_step (bins : nat) (vmin vmax step : float)
    (st : result (list (list fentry) * nat)) (ent : fentry)
    : result (list (list fentry) * nat) :=
  match st with
  | Raise m => Raise m
  | Ok (buckets, skipped) =>
      let val := snd ent in
      if negb (isfinite val) then Ok (buckets, S skipped)
      else if ltb val vmin || ltb vmax val then Ok (buckets, S skipped)
      else match bin_index bins vmin vmax step val with
           | Raise m => Raise m
           | Ok k => Ok (append_at k ent buckets, skipped)
           end
  end.

(** [edges = [vmin + i * step for i in range(bins + 1)]] *)
Fixpoint edges_from (vmin step : float) (is : list nat) : result (list float) :=
  match is with
  | [] => Ok []
  | i :: r =>
      match of_int (Z.of_nat i) with
      | Raise m => Raise m
      | Ok fi =>
          match edges_from vmin step r with
          | Raise m => Raise m
          | Ok es => Ok (add vmin (mul fi step) :: es)
          end
      end
  end.

(** [assign_bins(entries, bins, vmin, vmax)], returning
    [(buckets, edges)] together with the [skipped] count it prints. *)
Definition assign_bins (entries : list fentry) (bins : nat) (vmin vmax : float)
    : result (list (list fentry) * list float * nat) :=
  if (bins <? 1)%nat then Raise "bins must be >= 1"
  else
    match of_int (Z.of_nat bins) with
    | Raise m => Raise m
    | Ok fbins =>
    match div (sub vmax vmin) fbins with
    | Raise m => Raise m
    | Ok step =>
    match edges_from vmin step (seq 0 (bins + 1)) with
    | Raise m => Raise m
    | Ok edges =>
    match fold_left (assign_step bins vmin vmax step) entries (Ok (repeat [] bins, 0%nat)) with
    | Raise m => Raise m
    | Ok (buckets, skipped) => Ok (buckets, edges, skipped)
    end end end end.

End WidthBinning.

(* ------------------------------------------------------------------ *)
(** ** LST files (jalign/lst2star.py) *)

Module Lst.
Import Binning.

(** A run of decimal digits in which a single [_] may separate two
    digits, as [int()] and [float()] accept it; returns the digit values
    and the rest of the string. *)
Fixpoint ug_digits (s : string) : list Z * string :=
  match s with
  | EmptyString => ([], EmptyString)
  | String c rest =>
      if Py.is_digit c then
        match rest with
        | String u (String d _ as tl) =>
            if Ascii.eqb u "_" && Py.is_digit d
            then let '(ds, r) := ug_digits tl in (Py.digit_val c :: ds, r)
            else let '(ds, r) := ug_digits rest in (Py.digit_val c :: ds, r)
        | _ => let '(ds, r) := ug_digits rest in (Py.digit_val c :: ds, r)
        end
      else ([], s)
  end.

Definition digits_to_Z (ds : list Z) : Z :=
  fold_left (fun a d => (a * 10 + d)%Z) ds 0%Z.

(** An optional leading sign: its factor and the rest. *)
Definition sign (s : string) : Z * string :=
  match s with
  | String c r =>
      if Ascii.eqb c "+" then (1%Z, r)
      else if Ascii.eqb c "-" then ((-1)%Z, r) else (1%Z, s)
  | EmptyString => (1%Z, s)
  end.

(** [int(s)] on a string; [None] where it raises [ValueError]. *)
Definition py_int_str (s : string) : option Z :=
  let '(sg, t) := sign (Py.strip s) in
  let '(ds, r) := ug_digits t in
  match ds with
  | [] => None
  | _ => if String.eqb r "" then Some (sg * digits_to_Z ds)%Z else None
  end.

(** [float(s)] on a string; [None] where it raises [ValueError].
    Decimal literals with an optional fraction and exponent, and
    [inf], [infinity], [nan] in any case, after an optional sign. *)
Definition py_float (s : string) : option fval :=
  let '(sg, t) := sign (Py.strip s) in
  let lt := Py.lower t in
  if String.eqb lt "inf" || String.eqb lt "infinity" then
    Some (if (sg <? 0)%Z then NInf else PInf)
  else if String.eqb lt "nan" then Some NaN
  else
    let '(ip, r1) := ug_digits t in
    let '(fp, r2) :=
      match r1 with
      | String c r => if Ascii.eqb c "." then ug_digits r else ([], r1)
      | EmptyString => ([], r1)
      end in
    match (ip ++ fp)%list with
    | [] => None
    | mant =>
      let exp :=
        match r2 with
        | EmptyString => Some 0%Z
        | String c r =>
            if Ascii.eqb c "e" || Ascii.eqb c "E" then
              let '(es, t2) := sign r in
              let '(eds, r3) := ug_digits t2 in
              match eds with
              | [] => None
              | _ => if String.eqb r3 "" then Some (es * digits_to_Z eds)%Z else None
              end
            else None
        end in
      match exp with
      | None => None
      | Some e =>
          Some (Fin (inject_Z (sg * digits_to_Z mant) *
                     Qpower (inject_Z 10) (e - Z.of_nat (length fp))))
      end
    end.

(** [a < b] on Python floats; every comparison with nan is false. *)
Definition flt (a b : fval) : bool :=
  match a, b with
  | Fin x, Fin y => Qlt_bool x y
  | Fin _, PInf | NInf, Fin _ | NInf, PInf => true
  | _, _ => false
  end.

(** [f"{param}="] *)
Definition needle (param : option string) : string :=
  match param with Some p => p | None => "None" end ++ "=".

(** [token.split('=', 1)[1]]; every token it is applied to starts with
    [needle param] and so contains ['=']. *)
Fixpoint after_eq (s : string) : string :=
  match s with
  | EmptyString => EmptyString
  | String c r => if Ascii.eqb c "=" then r else after_eq r
  end.

(** The [for token in parts[2:]] loop: the raw value of the first token
    that starts with the needle. *)
Fixpoint find_param (nd : string) (tokens : list string) : option string :=
  match tokens with
  | [] => None
  | t :: r => if Py.startswith t nd then Some (after_eq t) else find_param nd r
  end.

(** The body of the [for line in f] loop of [read_lst]: the tag it
    appends to [kept], if any. *)
Definition line_tag (param : option string) (greaterthan lessthan : option fval)
    (use_abs : bool) (line : string) : option string :=
  let s := Py.strip line in
  if String.eqb s "" || Py.startswith s "#" then None
  else
    match Py.split s with
    | p0 :: micro_path :: rest =>
      match py_int_str p0 with
      | None => None
      | Some image_id =>
        let tag := Tag.image_tag image_id micro_path in
        match param, greaterthan, lessthan with
        | None, None, None => Some tag
        | _, _, _ =>
          let val :=
            match find_param (needle param) rest with
            | None => None
            | Some raw =>
                match py_float raw with
                | Some v => Some (if use_abs then fabs v else v)
                | None => None
                end
            end in
          match val with
          | None => None
          | Some v =>
            let ok_gt := match greaterthan with None => true | Some g => flt g v end in
            let ok_lt := match lessthan with None => true | Some l => flt v l end in
            if ok_gt && ok_lt then Some tag else None
          end
        end
      end
    | _ => None
    end.

(** [read_lst(path, param, greaterthan, lessthan, use_abs)] over the
    lines of the file. *)
Definition read_lst (param : option string) (greaterthan lessthan : option fval)
    (use_abs : bool) (lines : list string) : list string :=
  fold_left (fun kept line =>
               match line_tag param greaterthan lessthan use_abs line with
               | Some t => (kept ++ [t])%list
               | None => kept
               end) lines [].

End Lst.

(* ------------------------------------------------------------------ *)
(** ** STAR filtering and writing (jalign/lst2star.py) *)

Module Star.
Import Binning.

(** A data block as [StarFile3] gives it: a dict from column name to the
    column's values; a document: a dict from block name to block. *)
Definition block := Dict.dict string (list string).
Definition doc := Dict.dict string block.

Definition sget {V} (d : Dict.dict string V) (k : string) : option V :=
  Dict.get String.eqb d k.
Definition sset {V} (d : Dict.dict string V) (k : string) (v : V) : Dict.dict string V :=
  Dict.set String.eqb d k v.

(** [np.isin(image_names, keep_images)] at one name. *)
Definition isin (x : string) (keep : list string) : bool :=
  existsb (String.eqb x) keep.

(** [np.nonzero(mask)[0]] *)
Definition kept_indices (names keep : list string) : list nat :=
  filter (fun i => isin (nth i names "") keep) (seq 0 (length names)).

(** [np.array(v)[kept_indices].tolist()]; an index past the end of the
    column raises [IndexError]. *)
Definition take_rows (ki : list nat) (v : list string) : result (list string) :=
  if forallb (fun i => Nat.ltb i (length v)) ki
  then Ok (map (fun i => nth i v "") ki)
  else Raise "IndexError".

(** [for k, v in block.items(): filtered_block[k] = ...] *)
Fixpoint filter_columns (ki : list nat) (cols : block) (acc : block) : result block :=
  match cols with
  | [] => Ok acc
  | (k, v) :: r =>
      match take_rows ki v with
      | Ok v' => filter_columns ki r (sset acc k v')
      | Raise m => Raise m
      end
  end.

(** One pass of the [for block_name, block in star.items()] loop of
    [filter_star]: [(output_blocks, kept_num)]. *)
Definition filter_step (keep : list string) (st : result (doc * nat))
    (nb : string * block) : result (doc * nat) :=
  match st with
  | Raise m => Raise m
  | Ok (out, kept_num) =>
    let '(name, blk) := nb in
    match sget blk "rlnImageName" with
    | Some names =>
        let ki := kept_indices names keep in
        let kept_num' := (kept_num + length ki)%nat in
        match ki with
        | [] => Ok (out, kept_num')
        | _ =>
          match filter_columns ki blk [] with
          | Ok fb => Ok (sset out name fb, kept_num')
          | Raise m => Raise m
          end
        end
    | None => Ok (sset out name blk, kept_num)
    end
  end.

Definition output_blocks (star : doc) (keep : list string) : result (doc * nat) :=
  fold_left (filter_step keep) star (Ok ([], 0%nat)).

(** [" ".join(...)] and the like. *)
Fixpoint join (sep : string) (l : list string) : string :=
  match l with
  | [] => ""
  | [x] => x
  | x :: r => x ++ sep ++ join sep r
  end.

(** [zip] over the columns, as [rows = zip( *(block[k] for k in keys))]:
    as many rows as the shortest column. *)
Definition zip_rows (cols : list (list string)) : list (list string) :=
  match cols with
  | [] => []
  | c :: r =>
      let n := fold_left (fun m c' => Nat.min m (length c')) r (length c) in
      map (fun i => map (fun c' => nth i c' "") cols) (seq 0 n)
  end.

(** The line feed. *)
Definition nl : string := String (ascii_of_nat 10) EmptyString.

(** The lines written for one block. *)
Definition block_text (nb : string * block) : string :=
  let '(name, blk) := nb in
  "data_" ++ name ++ nl ++ nl ++
  match blk with
  | [] => ""
  | _ =>
    let keys := map fst blk in
    "loop_" ++ nl ++
    String.concat "" (map (fun '(i, key) => "_" ++ key ++ " #" ++ Py.str_Z (Z.of_nat (i + 1)) ++ nl)
                          (combine (seq 0 (length keys)) keys)) ++
    String.concat "" (map (fun row => join " " row ++ nl) (zip_rows (map snd blk))) ++ nl
  end.

(** The text [filter_star] writes to [out_star]. *)
Definition star_text (out : doc) : string :=
  "# version 30001" ++ nl ++ nl ++ String.concat "" (map block_text out).

(** [filter_star(in_star, out_star, keep_images)]: the text written to
    [out_star], if the loop finishes, and the returned [kept_num]. *)
Definition filter_star (star : doc) (keep : list string) : result (string * nat) :=
  match output_blocks star keep with
  | Ok (out, kept_num) => Ok (star_text out, kept_num)
  | Raise m => Raise m
  end.

End Star.

(* ------------------------------------------------------------------ *)
(** ** The [lst2star.py] command *)

Module Main.
Import Binning Star.

(** The kept lines of an LST file, [l.strip()] of every line [l] with
    [l.strip()] non-empty and [not l.startswith('#')]. *)
Definition lst_lines (lines : list string) : list string :=
  map Py.strip (filter (fun l => negb (String.eqb (Py.strip l) "") &&
                                 negb (Py.startswith l "#")) lines).

(** One pass of the [for line1 in lines1] loop of [merge_lst]: the lines
    written to [tmp.lst] so far.  [fs name] is the content of the LST
    file [name] next to [lst1], [None] when it does not exist. *)
Definition merge_step (fs : string -> option (list string)) (out : list string)
    (line1 : string) : list string :=
  match Py.split line1 with
  | idx_str :: file_from_lst1 :: rest =>
    match Lst.py_int_str idx_str with
    | None => out
    | Some idx =>
      match fs file_from_lst1 with
      | None => out
      | Some f2 =>
        let lines2 := lst_lines f2 in
        if (idx <? 0)%Z || (Z.of_nat (length lines2) <=? idx)%Z then out
        else let tab := String (ascii_of_nat 9) EmptyString in
             let merged := (nth (Z.to_nat idx) lines2 "" ++ tab ++ join tab rest)%string in
             (out ++ [merged])%list
      end
    end
  | _ => out
  end.

(** [merge_lst(lst1_path)]: the lines of [tmp.lst]. *)
Definition merge_lst (lst1 : list string) (fs : string -> option (list string))
    : result (list string) :=
  match lst_lines lst1 with
  | [] => Raise "empty or contains only comments."
  | lines1 => Ok (fold_left (merge_step fs) lines1 [])
  end.

(** How a run ends: the exit status, the message, and the text of the
    output STAR file if it was written. *)
Inductive outcome := Exit (code : nat) (msg : string) (written : option string).

(** [main()] of [lst2star.py], from the argument check on; [sys.exit(msg)]
    and an uncaught exception end with status 1. *)
Definition main (lst1 : list string) (fs : string -> option (list string))
    (star : doc) (column : option string) (greaterthan lessthan : option fval)
    (use_abs : bool) : outcome :=
  match column, greaterthan, lessthan with
  | None, Some _, _ | None, _, Some _ =>
      Exit 1 "Must assign column name if you assign filter threshold." None
  | _, _, _ =>
    match merge_lst lst1 fs with
    | Raise m => Exit 1 m None
    | Ok tmp =>
      let kept_images := Lst.read_lst column greaterthan lessthan use_abs
                           (map (fun m => m ++ nl) tmp) in
      match kept_images with
      | [] => Exit 1 "No images kept, check your Jalign output/input lst file." None
      | _ =>
        match filter_star star kept_images with
        | Raise m => Exit 1 m None
        | Ok (text, kept_num) =>
            if Nat.eqb kept_num 0
            then Exit 1 "No particles kept, check your star file." (Some text)
            else Exit 0 "Wrote particles." (Some text)
        end
      end
    end
  end.

End Main.

(* ------------------------------------------------------------------ *)
(** ** The deprecated [lstFiltered2star.py] command *)

Module Deprecated.
Import Binning Star Main.

Inductive mode := Gt | Lt.

(** [set.add] on a set kept as a list without duplicates. *)
Definition set_add {A} (eqb : A -> A -> bool) (s : list A) (x : A) : list A :=
  if existsb (eqb x) s then s else (s ++ [x])%list.

(** The [for field in parts[1:]] loop of [read_lst1]: [None] when no
    field names the parameter, [Some None] when its value does not parse
    (the script exits), [Some (Some v)] otherwise. *)
Fixpoint find_field (param : string) (fields : list string) : option (option fval) :=
  match fields with
  | [] => None
  | f :: r =>
      if Py.startswith f (param ++ "=") then Some (Lst.py_float (Lst.after_eq f))
      else find_field param r
  end.

(** [read_lst1(path, param, threshold, mode, use_abs)] *)
Definition read_lst1_step (param : string) (threshold : fval) (md : mode) (use_abs : bool)
    (st : result (list Z)) (line : string) : result (list Z) :=
  match st with
  | Raise m => Raise m
  | Ok keep =>
    let s := Py.strip line in
    if String.eqb s "" || Py.startswith s "#" then Ok keep
    else
      let parts := Py.split s in
      match Lst.py_int_str (hd "" parts) with
      | None => Ok keep
      | Some idx =>
        match find_field param (tl parts) with
        | None => Ok keep
        | Some None => Raise ("ERROR: cannot parse value for " ++ param ++ " on line: " ++ s)
        | Some (Some v) =>
          let val := if use_abs then fabs v else v in
          let ok := match md with Gt => Lst.flt threshold val | Lt => Lst.flt val threshold end in
          Ok (if ok then set_add Z.eqb keep idx else keep)
        end
      end
  end.

Definition read_lst1 (param : string) (threshold : fval) (md : mode) (use_abs : bool)
    (lines : list string) : result (list Z) :=
  fold_left (read_lst1_step param threshold md use_abs) lines (Ok []).

(** [read_lst2(path)]: row number to tag; [parts[1]] on a line of one
    field raises [IndexError]. *)
Definition read_lst2_step (st : result (Dict.dict nat string * nat)) (line : string)
    : result (Dict.dict nat string * nat) :=
  match st with
  | Raise m => Raise m
  | Ok (mapping, row_id) =>
    let s := Py.strip line in
    if String.eqb s "" || Py.startswith s "#" then Ok (mapping, row_id)
    else
      let parts := Py.split s in
      match Lst.py_int_str (hd "" parts) with
      | None => Ok (mapping, row_id)
      | Some image_id =>
        match parts with
        | _ :: micro_path :: _ =>
            Ok (Dict.set Nat.eqb mapping row_id (Tag.image_tag image_id micro_path), S row_id)
        | _ => Raise "IndexError: list index out of range"
        end
      end
  end.

Definition read_lst2 (lines : list string) : result (Dict.dict nat string) :=
  match fold_left read_lst2_step lines (Ok ([], 0%nat)) with
  | Ok (mapping, _) => Ok mapping
  | Raise m => Raise m
  end.

(** [{mapping[idx] for idx in mapping if idx in keep_idxs}] *)
Definition keep_images (mapping : Dict.dict nat string) (keep_idxs : list Z) : list string :=
  fold_left (fun s '(idx, tag) =>
               if existsb (Z.eqb (Z.of_nat idx)) keep_idxs then set_add String.eqb s tag else s)
            mapping [].

(** [filter_star(in_star, out_star, keep_images)] of this script: the
    same loop as in [lst2star.py] without the count; every column is a
    list, so [isinstance(v, (list, np.ndarray))] holds. *)
Definition dep_filter_step (keep : list string) (st : result doc) (nb : string * block)
    : result doc :=
  match st with
  | Raise m => Raise m
  | Ok out =>
    let '(name, blk) := nb in
    match sget blk "rlnImageName" with
    | Some names =>
        match kept_indices names keep with
        | [] => Ok out
        | ki =>
          match filter_columns ki blk [] with
          | Ok fb => Ok (sset out name fb)
          | Raise m => Raise m
          end
        end
    | None => Ok (sset out name blk)
    end
  end.

Definition dep_output_blocks (star : doc) (keep : list string) : result doc :=
  fold_left (dep_filter_step keep) star (Ok []).

(** [main()] of [lstFiltered2star.py] *)
Definition dep_main (lst1 lst2 : list string) (star : doc) (param : string)
    (threshold : fval) (use_abs : bool) (md : mode) : outcome :=
  match read_lst1 param threshold md use_abs lst1 with
  | Raise m => Exit 1 m None
  | Ok [] => Exit 1 "No entries pass the filter; output would be empty." None
  | Ok keep_idxs =>
    match read_lst2 lst2 with
    | Raise m => Exit 1 m None
    | Ok mapping =>
      match keep_images mapping keep_idxs with
      | [] => Exit 1 "Filtered indices not found in mapping file." None
      | keep =>
        match dep_output_blocks star keep with
        | Raise m => Exit 1 m None
        | Ok out => Exit 0 "Filtered STAR written." (Some (star_text out))
        end
      end
    end
  end.

End Deprecated.

(* ------------------------------------------------------------------ *)
(** ** The STAR loop scanner (jalign/divide_histogram.py) *)

Module StarParse.
Import Binning.

(** [f.readlines()]: the lines of the text, each with its line feed,
    the last one without it when the text does not end in one (the
    translation of other line ends by text mode is not modelled). *)
Fixpoint split_nl (s : string) : list string :=
  match s with
  | EmptyString => [""]
  | String c r =>
      if Ascii.eqb c (ascii_of_nat 10) then "" :: split_nl r
      else match split_nl r with
           | [] => [String c ""]
           | l :: ls => String c l :: ls
           end
  end.

Definition readlines (text : string) : list string :=
  let pieces := split_nl text in
  let full := map (fun l => l ++ Star.nl) (removelast pieces) in
  match last pieces "" with
  | "" => full
  | l => (full ++ [l])%list
  end.

(** [ln.rstrip('\n')] *)
Definition rstrip_nl (s : string) : string :=
  string_of_list_ascii (rev (
    (fix drop (l : list ascii) : list ascii :=
       match l with
       | c :: r => if Ascii.eqb c (ascii_of_nat 10) then drop r else l
       | [] => []
       end) (rev (list_ascii_of_string s)))).

(** The dict [find_loops_in_star] records for a loop. *)
Record loop := mk_loop {
  loop_start : nat;
  header_start : option nat;
  header_end : nat;
  data_start : nat;
  data_end : nat
}.

Definition line_at (lines : list string) (i : nat) : string :=
  Py.strip (nth i lines "").

(** [while j < n and lines[j].strip().startswith('_')]: the final [j]
    and [header_start]. *)
Fixpoint header_loop (lines : list string) (n fuel j : nat) (hs : option nat)
    : nat * option nat :=
  match fuel with
  | O => (j, hs)
  | S f =>
      if Nat.ltb j n && Py.startswith (line_at lines j) "_" then
        header_loop lines n f (S j) (match hs with None => Some j | Some _ => hs end)
      else (j, hs)
  end.

(** The line that ends the data of a loop. *)
Definition data_stop (s : string) : bool :=
  Py.startswith s "_" || Py.startswith (Py.lower s) "loop_" ||
  Py.startswith (Py.lower s) "data_".

(** [while k < n: ... if s.startswith('_') or ...: break; k += 1] *)
Fixpoint data_loop (lines : list string) (n fuel k : nat) : nat :=
  match fuel with
  | O => k
  | S f =>
      if Nat.ltb k n && negb (data_stop (line_at lines k))
      then data_loop lines n f (S k) else k
  end.

(** [while i < n] of [find_loops_in_star]; every pass moves [i] on, so
    [n] passes suffice. *)
Fixpoint loops_loop (lines : list string) (n fuel i : nat) (loops : list loop)
    : list loop :=
  match fuel with
  | O => loops
  | S f =>
      if Nat.ltb i n then
        if Py.startswith (Py.lower (line_at lines i)) "loop_" then
          let '(j, hs) := header_loop lines n n (S i) None in
          let k := data_loop lines n n j in
          loops_loop lines n f k (loops ++ [mk_loop i hs j j k])%list
        else loops_loop lines n f (S i) loops
      else loops
  end.

Definition find_loops_in_star (lines : list string) : list loop :=
  loops_loop lines (length lines) (length lines) 0 [].

(** [lines[a:b]] for [a, b >= 0]; a start of [None] is [0]. *)
Definition slice_opt (lines : list string) (a : option nat) (b : nat) : list string :=
  let a' := match a with Some x => x | None => 0%nat end in
  firstn (b - a') (skipn a' lines).

(** [ln.strip().split()[0]]: [IndexError] on a blank line. *)
Definition first_token (ln : string) : result string :=
  match Py.split (Py.strip ln) with
  | t :: _ => Ok t
  | [] => Raise "IndexError: list index out of range"
  end.

Fixpoint map_result {A B} (f : A -> result B) (l : list A) : result (list B) :=
  match l with
  | [] => Ok []
  | x :: r =>
      match f x with
      | Raise m => Raise m
      | Ok y => match map_result f r with Raise m => Raise m | Ok ys => Ok (y :: ys) end
      end
  end.

(** [parse_star_loop_values(lines, loop)]: the header names and the
    non-blank data lines. *)
Definition parse_star_loop_values (lines : list string) (lp : loop)
    : result (list string * list string) :=
  match map_result first_token (slice_opt lines (header_start lp) (header_end lp)) with
  | Raise m => Raise m
  | Ok header_lines =>
      let data := map rstrip_nl
                    (filter (fun ln => negb (String.eqb (Py.strip ln) ""))
                       (slice_opt lines (Some (data_start lp)) (data_end lp))) in
      Ok (header_lines, data)
  end.






End StarParse.

(* ------------------------------------------------------------------ *)
(** ** Reading and writing the histogram inputs (jalign/divide_histogram.py) *)

Module Histogram.
Import Binning StarParse.

(** The result of [detect_file_type]. *)
Inductive ftype := LstFile | StarFile.

(** [s.endswith(suffix)] *)
Definition endswith (s suffix : string) : bool :=
  Nat.leb (String.length suffix) (String.length s) &&
  String.eqb (substring (String.length s - String.length suffix) (String.length suffix) s)
             suffix.

(** One pass of the [for line in f] loop of [detect_file_type]: the type
    it returns, or [None] to go on with the next line. *)
Definition detect_line (line : string) : option ftype :=
  let s := Py.strip line in
  if String.eqb s "" then None
  else if Py.startswith s "#LST" then Some LstFile
  else if Py.startswith (Py.lower s) "data_" || Py.startswith s "loop_" ||
          Py.startswith s "_" then Some StarFile
  else None.

Fixpoint detect_lines (lines : list string) : result ftype :=
  match lines with
  | [] => Raise "Cannot determine file type (LST or STAR). Use .lst/.star extension or check file content."
  | l :: r => match detect_line l with Some t => Ok t | None => detect_lines r end
  end.

(** [detect_file_type(filepath)]; [lines] are the lines of the file,
    read only when the extension does not decide. *)
Definition detect_file_type (filepath : string) (lines : list string) : result ftype :=
  if endswith filepath ".lst" then Ok LstFile
  else if endswith filepath ".star" then Ok StarFile
  else detect_lines lines.

(** The rest of [s] after [p], if [s] starts with [p]. *)
Fixpoint after_prefix (p s : string) : option string :=
  match p, s with
  | EmptyString, _ => Some s
  | String a p', String b s' => if Ascii.eqb a b then after_prefix p' s' else None
  | String _ _, EmptyString => None
  end.

(** The greedy group [(\S+)]: the run of non-whitespace characters at
    the front of [s]. *)
Fixpoint nonspace_run (s : string) : string :=
  match s with
  | EmptyString => EmptyString
  | String c r => if Py.is_space c then EmptyString else String c (nonspace_run r)
  end.

(** A match of [re.escape(column_name) + "=(\S+)"] at the front of [s]:
    its group 1. *)
Definition value_at (column_name s : string) : option string :=
  match after_prefix (column_name ++ "=") s with
  | Some rest => match nonspace_run rest with EmptyString => None | v => Some v end
  | None => None
  end.

(** [pattern.search(raw)]: the match at the leftmost position. *)
Fixpoint search_value (column_name s : string) : option string :=
  match value_at column_name s with
  | Some v => Some v
  | None => match s with EmptyString => None | String _ r => search_value column_name r end
  end.

(** What one line of an LST file adds in [parse_lst_lines]: a header
    line, an entry, or nothing. *)
Inductive lst_item := Header (h : string) | Item (e : entry) | Skip.

(** The body of the [for li, raw in enumerate(lines)] loop of
    [parse_lst_lines]. *)
Definition lst_line (column_name raw : string) : lst_item :=
  let line := Py.strip raw in
  if String.eqb line "" then Skip
  else if Py.startswith line "#" then Header (rstrip_nl raw)
  else match search_value column_name raw with
       | None => Skip
       | Some val_str =>
           match Lst.py_float val_str with
           | Some val => Item (rstrip_nl raw, val)
           | None => Skip
           end
       end.

Definition lst_step (column_name : string) (st : list string * list entry) (raw : string)
    : list string * list entry :=
  let '(header_lines, entries) := st in
  match lst_line column_name raw with
  | Header h => ((header_lines ++ [h])%list, entries)
  | Item e => (header_lines, (entries ++ [e])%list)
  | Skip => (header_lines, entries)
  end.

(** [parse_lst_lines(lines, column_name)]: [(header_lines, entries)]. *)
Definition parse_lst_lines (lines : list string) (column_name : string)
    : list string * list entry :=
  fold_left (lst_step column_name) lines ([], []).

(** The text [write_lst_bucket_file(header_lines, bucket_entries, outpath)]
    writes. *)
Definition write_lst_bucket_file (header_lines : list string) (bucket_entries : list entry)
    : string :=
  String.concat "" (map (fun h => rstrip_nl h ++ Star.nl) header_lines) ++
  String.concat "" (map (fun e => rstrip_nl (fst e) ++ Star.nl) bucket_entries).

(** [header_lines.index(column_name)], [None] when it is not in the list. *)
Fixpoint index_of (x : string) (l : list string) : option nat :=
  match l with
  | [] => None
  | y :: r => if String.eqb y x then Some 0 else option_map S (index_of x r)
  end.

(** The body of the [for idx, dline in enumerate(data)] loop of
    [parse_star_lines]: the entry it appends, if any. *)
Definition star_entry (col_idx : nat) (dline : string) : option entry :=
  let parts := Py.split dline in
  if Nat.leb (length parts) col_idx then None
  else match Lst.py_float (nth col_idx parts "") with
       | Some val => Some (dline, val)
       | None => None
       end.

Definition column_entries (col_idx : nat) (data : list string) : list entry :=
  fold_left (fun entries dline =>
               match star_entry col_idx dline with
               | Some e => (entries ++ [e])%list
               | None => entries
               end) data [].

(** The [for li, loop in enumerate(loops)] loop of [parse_star_lines]:
    the index of the first loop whose header has the column, and its
    entries. *)
Fixpoint find_column (lines : list string) (column_name : string) (li : nat)
    (loops : list loop) : result (option (nat * list entry)) :=
  match loops with
  | [] => Ok None
  | lp :: r =>
      match parse_star_loop_values lines lp with
      | Raise m => Raise m
      | Ok (header_lines, data) =>
          match index_of column_name header_lines with
          | Some col_idx => Ok (Some (li, column_entries col_idx data))
          | None => find_column lines column_name (S li) r
          end
      end
  end.

(** [parse_star_lines(lines, column_name)]: [(loops, li, entries)]. *)
Definition parse_star_lines (lines : list string) (column_name : string)
    : result (list loop * nat * list entry) :=
  let loops := find_loops_in_star lines in
  match loops with
  | [] => Raise "No loop_ blocks found in STAR file."
  | _ =>
    let column_name :=
      if Py.startswith column_name "_" then column_name else ("_" ++ column_name)%string in
    match find_column lines column_name 0 loops with
    | Raise m => Raise m
    | Ok None => Raise ("Column '" ++ column_name ++ "' not found in any loop of STAR file.")
    | Ok (Some (li, entries)) => Ok (loops, li, entries)
    end
  end.

(** [lines[idx]] for [idx >= 0]. *)
Definition line_of (lines : list string) (idx : nat) : result string :=
  match nth_error lines idx with
  | Some l => Ok l
  | None => Raise "IndexError: list index out of range"
  end.

(** The text [write_star_bucket_file(lines, loops, target_loop_idx,
    bucket_entries, outpath)] writes; [range(None, ...)] raises
    [TypeError]. *)
Definition write_star_bucket_file (lines : list string) (loops : list loop)
    (target_loop_idx : nat) (bucket_entries : list entry) : result string :=
  match nth_error loops target_loop_idx with
  | None => Raise "IndexError: list index out of range"
  | Some lp =>
    let data_lines := map fst bucket_entries in
    match map_result (line_of lines) (seq 0 (loop_start lp + 1)) with
    | Raise m => Raise m
    | Ok pre =>
      match header_start lp with
      | None => Raise "TypeError: 'NoneType' object cannot be interpreted as an integer"
      | Some hs =>
        match map_result (line_of lines) (seq hs (header_end lp - hs)) with
        | Raise m => Raise m
        | Ok heads =>
            let post := skipn (data_end lp) lines in
            Ok (String.concat "" pre ++ String.concat "" heads ++
                String.concat "" (map (fun ln => rstrip_nl ln ++ Star.nl) data_lines) ++
                Star.nl ++ String.concat "" post)
        end
      end
    end
  end.

(** [a == b] on Python floats. *)
Definition feq (a b : fval) : bool :=
  match a, b with
  | Fin x, Fin y => Qeq_bool x y
  | PInf, PInf | NInf, NInf => true
  | _, _ => false
  end.

(** [min(vals)] and [max(vals)] of the non-empty list [v :: vs]: an
    item replaces the current one when it compares less (greater). *)
Definition py_min (v : fval) (vs : list fval) : fval :=
  fold_left (fun m x => if Lst.flt x m then x else m) vs v.

Definition py_max (v : fval) (vs : list fval) : fval :=
  fold_left (fun m x => if Lst.flt m x then x else m) vs v.

(** How [process_entries] goes on after choosing the range. *)
Inductive range_outcome :=
  | NoEntries                      (* KeyError: no numeric entries *)
  | InvalidRange (vmin vmax : fval) (* sys.exit(2) *)
  | Range (vmin vmax : fval).

(** The start of [process_entries]: the range [[vmin, vmax]] handed to
    the binning routines, from [--min]/[--max] or the values. *)
Definition select_range (entries : list entry) (arg_vmin arg_vmax : option fval)
    : range_outcome :=
  match map snd entries with
  | [] => NoEntries
  | v :: vs =>
      let vmin := match arg_vmin with Some x => x | None => py_min v vs end in
      let vmax := match arg_vmax with Some x => x | None => py_max v vs end in
      if Lst.flt vmax vmin || feq vmin vmax then InvalidRange vmin vmax
      else Range vmin vmax
  end.

End Histogram.

(* ------------------------------------------------------------------ *)
(** ** Optics-group tables (warp/delete_ogs.py, warp/split_matchingstar.py) *)

Module Groups.
Import Py Renumber.

(** A row of [data_optics]: its [rlnOpticsGroup] (read with
    [astype(int)]), its [rlnOpticsGroupName], and the other cells, which
    the scripts copy untouched. *)
Record optics_row := mk_optics {
  og_group : Z;
  og_name : string;
  og_cells : list string
}.

(** A row of [data_particles]: its [rlnOpticsGroup] and the other cells. *)
Record particle_row := mk_particle {
  pt_group : Z;
  pt_cells : list string
}.

(** [_map_name] inside split_matchingstar.renumber_global_names. *)
Definition map_name (old_to_new : mapping) (nm : string) : string :=
  match extract_digits_int nm with
  | None => nm
  | Some old =>
      match get old_to_new old with
      | None => nm
      | Some new => replace_first_digit_group nm (Some new)
      end
  end.

(** split_matchingstar.renumber_global_names on the
    [rlnOpticsGroupName] column: the same [seen] loop and
    [enumerate(seen, start=1)], then [_map_name]. *)
Definition split_renumber_global_names (names : list string) : list string * mapping :=
  let old_to_new := enumerate_into [] 1 (collect_seen names) in
  (map (map_name old_to_new) names, old_to_new).

(** split_matchingstar.renumber_optics_and_particles:
    [mapping = {old: i for i, old in enumerate(seen_old_nums, start=1)}],
    [rlnOpticsGroup] sent through [mapping.get(v, v)] in both tables,
    [rlnOpticsGroupName] through
    [replace_first_digit_group(nm, mapping.get(extract_digits_int(nm)))]. *)
Definition renumber_optics_and_particles (df_optics : list optics_row)
    (df_particles : list particle_row) : list optics_row * list particle_row * mapping :=
  let mapping := enumerate_into [] 1 (collect_seen (map og_name df_optics)) in
  let df_opt_new :=
    map (fun r => mk_optics (map_group mapping (og_group r))
                            (rename mapping (og_name r)) (og_cells r)) df_optics in
  let df_part_new :=
    map (fun p => mk_particle (map_group mapping (pt_group p)) (pt_cells p)) df_particles in
  (df_opt_new, df_part_new, mapping).


(** split_matchingstar.get_og_range on the [rlnOpticsGroupName] column:
    the first digit runs that exist, and their [min] and [max], or
    [(0, 0)] when there is none. *)
Definition get_og_range (names : list string) : Z * Z :=
  let nums := flat_map (fun s => match extract_digits_int s with
                                 | Some n => [n]
                                 | None => []
                                 end) names in
  match nums with
  | [] => (0%Z, 0%Z)
  | n :: r => (fold_left Z.min r n, fold_left Z.max r n)
  end.

(** A row of [data_global] in matching_tomograms.star: its
    [rlnTomoName], its [rlnOpticsGroupName] and the other cells. *)
Record global_row := mk_global {
  gl_tomo : string;
  gl_og_name : string;
  gl_cells : list string
}.

(** The split of fix_dose_split_tomograms (split_matchingstar.py), once
    the dose is fixed: [half = math.ceil(len(tomonames) / 2)], the rows of
    [data_global] whose [rlnTomoName] is among the first [half] names go to
    the first file, those among the others to the second, and every other
    block of [star] (its items, of some block type [B]) goes to the file
    whose names contain its key, [global] itself skipped. *)
Definition split_global {B : Type} (df_global : list global_row)
    (star : list (string * B)) :
    (list global_row * list (string * B)) * (list global_row * list (string * B)) :=
  let tomonames := map gl_tomo df_global in
  let half := ((length tomonames + 1) / 2)%nat in
  let half1_names := firstn half tomonames in
  let half2_names := skipn half tomonames in
  let isin n names := existsb (String.eqb n) names in
  let g1 := filter (fun r => isin (gl_tomo r) half1_names) df_global in
  let g2 := filter (fun r => isin (gl_tomo r) half2_names) df_global in
  let b1 := filter (fun kb => negb (String.eqb (fst kb) "global") &&
                              isin (fst kb) half1_names) star in
  let b2 := filter (fun kb => negb (String.eqb (fst kb) "global") &&
                              negb (isin (fst kb) half1_names) &&
                              isin (fst kb) half2_names) star in
  ((g1, b1), (g2, b2)).

End Groups.

(* ================================================================== *)
(** * Proofs *)

(** ** Strings *)

Module PyFacts.
Import Py.

Lemma append_nil_r (s : string) : s ++ "" = s.
Proof. induction s; simpl; congruence. Qed.

Lemma append_assoc (a b c : string) : (a ++ b) ++ c = a ++ (b ++ c).
Proof. induction a; simpl; congruence. Qed.

Lemma length_append (a b : string) :
  String.length (a ++ b) = String.length a + String.length b.
Proof. induction a; simpl; congruence. Qed.

Lemma digits_from_app (acc : Z) (a b : string) :
  digits_from acc (a ++ b) = digits_from (digits_from acc a) b.
Proof. revert acc; induction a; simpl; auto. Qed.

Lemma all_digits_app (a b : string) :
  all_digits (a ++ b) = all_digits a && all_digits b.
Proof. induction a; simpl; [reflexivity|]. rewrite IHa, andb_assoc. reflexivity. Qed.

Lemma digits_from_zeros (k : nat) : digits_from 0 (repeat_char "0" k) = 0%Z.
Proof. induction k; simpl; auto. Qed.

Lemma all_digits_zeros (k : nat) : all_digits (repeat_char "0" k) = true.
Proof. induction k; simpl; auto. Qed.

Lemma length_zeros (c : ascii) (k : nat) : String.length (repeat_char c k) = k.
Proof. induction k; simpl; auto. Qed.

(** The character written for a decimal digit [m]. *)
Lemma digit_char (m : nat) : m < 10 ->
  is_digit (ascii_of_nat (48 + m)) = true /\
  digit_val (ascii_of_nat (48 + m)) = Z.of_nat m.
Proof.
  intros Hm. unfold is_digit, digit_val.
  rewrite nat_ascii_embedding by lia.
  split; [apply andb_true_intro; split; apply Nat.leb_le; lia|].
  f_equal; lia.
Qed.

Lemma digits_aux_spec (fuel : nat) (n : N) (acc : string) :
  N.to_nat n < fuel ->
  exists D, digits_aux fuel n acc = D ++ acc /\
    all_digits D = true /\ digits_value D = Z.of_N n /\
    (n <> 0%N -> exists c r, D = String c r /\ c <> "0"%char).
Proof.
  revert n acc; induction fuel as [|f IH]; intros n acc Hn; [lia|].
  cbn [digits_aux]; cbv zeta.
  assert (Hm : N.to_nat (n mod 10) < 10).
  { assert ((n mod 10 < 10)%N) by (apply N.mod_lt; lia). lia. }
  destruct (digit_char _ Hm) as [Hd Hv].
  set (d := ascii_of_nat (48 + N.to_nat (n mod 10))) in *.
  destruct (N.eqb_spec (n / 10) 0) as [Hq|Hq].
  - exists (String d ""). split; [reflexivity|].
    assert (Hnm : (n mod 10 = n)%N).
    { rewrite (N.div_mod n 10) at 2 by lia. rewrite Hq. lia. }
    split; [cbn [all_digits]; rewrite Hd; reflexivity|].
    split.
    + unfold digits_value; cbn [digits_from]. rewrite Hv, Hnm. lia.
    + intros Hn0. exists d, "". split; [reflexivity|].
      intros E. unfold d in E. rewrite Hnm in E.
      apply (f_equal nat_of_ascii) in E.
      rewrite nat_ascii_embedding in E by lia.
      change (nat_of_ascii "0") with 48 in E. lia.
  - assert (Hlt : N.to_nat (n / 10) < f).
    { assert (Hn0 : n <> 0%N) by (intros ->; apply Hq; reflexivity).
      assert ((n / 10 < n)%N) by (apply N.div_lt; lia). lia. }
    destruct (IH (n / 10)%N (String d acc) Hlt) as [D [E [A [V H0]]]].
    exists (D ++ String d ""). rewrite E, append_assoc. split; [reflexivity|].
    split; [rewrite all_digits_app, A; cbn [all_digits]; rewrite Hd; reflexivity|].
    split.
    + unfold digits_value in *. rewrite digits_from_app, V. cbn [digits_from].
      rewrite Hv. rewrite (N.div_mod n 10) at 3 by lia. lia.
    + intros _. destruct (H0 Hq) as [c [r [-> Hc]]].
      exists c, (r ++ String d ""). split; [reflexivity|exact Hc].
Qed.

Lemma str_pos_spec (p : positive) :
  exists c r, str_Z (Zpos p) = String c r /\ c <> "0"%char /\
    all_digits (String c r) = true /\ digits_value (String c r) = Zpos p.
Proof.
  unfold str_Z, str_N. simpl Z.to_N.
  destruct (digits_aux_spec (S (N.to_nat (Npos p))) (Npos p) "" ltac:(lia))
    as [D [E [A [V H0]]]].
  destruct (H0 ltac:(discriminate)) as [c [r [-> Hc]]].
  exists c, r. rewrite E, append_nil_r. auto.
Qed.

End PyFacts.

(** ** Image tags *)

Module TagProofs.
Import Py PyFacts Tag.

(** Shape of the image tag: [digits ++ "@" ++ path] where [digits] is the
    zero-padded 1-based index. *)
Definition padded_index (s : string) (v : Z) : Prop :=
  all_digits s = true /\ digits_value s = v /\
  (String.length s = 6 \/
   (6 < String.length s /\ exists c r, s = String c r /\ c <> "0"%char)).

(** Claim C5: for a 0-based index [i >= 0] and a path [p], the tag built
    by [read_lst] / [read_lst2] is the decimal rendering of [i+1],
    zero-padded to width 6 (a longer rendering is left as is, with no
    leading zero), then ["@"], then [p]; lstB's row [(41, "stack.mrcs")]
    gives ["000042@stack.mrcs"]. *)
Theorem image_tag_zero_padded :
  (forall (i : Z) (p : string), (0 <= i)%Z ->
     exists s, image_tag i p = s ++ "@" ++ p /\ padded_index s (i + 1)) /\
  image_tag 41 "stack.mrcs" = "000042@stack.mrcs".
Proof.
  split; [|reflexivity].
  intros i p Hi.
  destruct (i + 1)%Z as [|q|q] eqn:Ei; [lia| |lia].
  destruct (str_pos_spec q) as [c [r [Es [Hc [A V]]]]].
  unfold image_tag. rewrite Ei, Es.
  assert (Hcs : (Ascii.eqb c "+" || Ascii.eqb c "-")%char = false).
  { apply orb_false_intro; apply Ascii.eqb_neq; intros ->; discriminate A. }
  unfold zfill. rewrite Hcs.
  exists (repeat_char "0" (6 - String.length (String c r)) ++ String c r).
  split; [reflexivity|].
  unfold padded_index. split; [|split].
  - rewrite all_digits_app, all_digits_zeros, A. reflexivity.
  - unfold digits_value in *. rewrite digits_from_app, digits_from_zeros. exact V.
  - rewrite length_append, length_zeros.
    destruct (Nat.le_gt_cases (String.length (String c r)) 6) as [Hle|Hgt].
    + left. lia.
    + right. replace (6 - String.length (String c r)) with 0 by lia.
      split; [simpl in *; lia|]. exists c, r. split; [reflexivity|exact Hc].
Qed.

Lemma image_tag_zero_padded_witness :
  (0 <= 41)%Z /\
  exists s, image_tag 41 "stack.mrcs" = s ++ "@" ++ "stack.mrcs" /\
            padded_index s 42%Z.
Proof.
  split; [lia|]. apply (proj1 image_tag_zero_padded 41%Z "stack.mrcs"). lia.
Defined.

End TagProofs.
(** ** Optics-group renumbering *)

Module RenumberProofs.
Import Py PyFacts Renumber.
Local Open Scope list_scope.

(** Values of the first digit runs of a column, rows without a digit left
    out. *)
Fixpoint extracted (names : list string) : list Z :=
  match names with
  | [] => []
  | nm :: r =>
      match extract_digits_int nm with
      | Some x => x :: extracted r
      | None => extracted r
      end
  end.

(** The elements of [l] at their first occurrence, in order; [before]
    holds the elements already passed. *)
Fixpoint first_occurrences (before : list Z) (l : list Z) : list Z :=
  match l with
  | [] => []
  | x :: r =>
      if existsb (Z.eqb x) before then first_occurrences (x :: before) r
      else x :: first_occurrences (x :: before) r
  end.

(** [n] consecutive integers from [i]. *)
Fixpoint zseq (i : Z) (n : nat) : list Z :=
  match n with O => [] | S k => i :: zseq (i + 1) k end.

Lemma zseq_length (i : Z) (n : nat) : length (zseq i n) = n.
Proof. revert i; induction n; intros i; simpl; auto. Qed.

Lemma existsb_Zeqb (x : Z) (l : list Z) : existsb (Z.eqb x) l = true <-> In x l.
Proof.
  rewrite existsb_exists. split.
  - intros [y [Hy E]]. apply Z.eqb_eq in E. subst. exact Hy.
  - intros H. exists x. split; [exact H|apply Z.eqb_refl].
Qed.

Lemma existsb_Zeqb_iff (x : Z) (a b : list Z) :
  (forall y, In y a <-> In y b) -> existsb (Z.eqb x) a = existsb (Z.eqb x) b.
Proof.
  intros H. destruct (existsb (Z.eqb x) b) eqn:Eb.
  - apply existsb_Zeqb, H, existsb_Zeqb in Eb. exact Eb.
  - apply not_true_iff_false. intros Ea. apply existsb_Zeqb, H, existsb_Zeqb in Ea.
    congruence.
Qed.

Lemma fold_seen (names : list string) (acc before : list Z) :
  (forall y, In y acc <-> In y before) ->
  fold_left seen_step names acc = acc ++ first_occurrences before (extracted names).
Proof.
  revert acc before; induction names as [|nm r IH]; intros acc before H.
  - simpl. rewrite app_nil_r. reflexivity.
  - simpl. unfold seen_step at 2. destruct (extract_digits_int nm) as [x|].
    + simpl. rewrite (existsb_Zeqb_iff x acc before H).
      destruct (existsb (Z.eqb x) before) eqn:E.
      * apply IH. intros y. rewrite H. simpl. split; [auto|].
        intros [<-|Hy]; [apply existsb_Zeqb; exact E|exact Hy].
      * rewrite IH with (before := x :: before).
        -- rewrite <- app_assoc. reflexivity.
        -- intros y. rewrite in_app_iff, H. simpl. tauto.
    + apply IH. exact H.
Qed.

Lemma first_occurrences_in (before l : list Z) (x : Z) :
  In x (first_occurrences before l) -> In x l /\ ~ In x before.
Proof.
  revert before; induction l as [|y r IH]; intros before; simpl; [tauto|].
  destruct (existsb (Z.eqb y) before) eqn:E.
  - intros Hx. destruct (IH _ Hx) as [H1 H2]. simpl in H2. tauto.
  - intros [<-|Hx].
    + split; [left; reflexivity|]. intros Hin.
      apply existsb_Zeqb in Hin. congruence.
    + destruct (IH _ Hx) as [H1 H2]. simpl in H2. tauto.
Qed.

Lemma first_occurrences_nodup (before l : list Z) :
  NoDup (first_occurrences before l).
Proof.
  revert before; induction l as [|y r IH]; intros before; simpl; [constructor|].
  destruct (existsb (Z.eqb y) before); [apply IH|].
  constructor; [|apply IH].
  intros Hy. apply first_occurrences_in in Hy. simpl in Hy. tauto.
Qed.

Lemma dict_set_absent (m : mapping) (k v : Z) :
  ~ In k (map fst m) -> Dict.set Z.eqb m k v = m ++ [(k, v)].
Proof.
  induction m as [|[k' v'] r IH]; intros H; simpl; [reflexivity|].
  destruct (Z.eqb_spec k' k) as [->|_].
  - exfalso. apply H. left. reflexivity.
  - rewrite IH; [reflexivity|]. intros Hk. apply H. right. exact Hk.
Qed.

Lemma enumerate_into_spec (m : mapping) (i : Z) (l : list Z) :
  NoDup l -> (forall x, In x l -> ~ In x (map fst m)) ->
  enumerate_into m i l = m ++ combine l (zseq i (length l)).
Proof.
  revert m i; induction l as [|x r IH]; intros m i Hnd Hfresh; simpl.
  - rewrite app_nil_r. reflexivity.
  - inversion Hnd as [|? ? Hx Hr]; subst.
    rewrite dict_set_absent by (apply Hfresh; left; reflexivity).
    rewrite IH; [rewrite <- app_assoc; reflexivity|exact Hr|].
    intros y Hy. rewrite map_app, in_app_iff. simpl. intros [H|[H|H]].
    + apply (Hfresh y); [right; exact Hy|exact H].
    + subst. contradiction.
    + exact H.
Qed.

Lemma map_fst_combine_zseq (l : list Z) (i : Z) :
  map fst (combine l (zseq i (length l))) = l.
Proof. revert i; induction l; intros i; simpl; [reflexivity|]. f_equal. apply IHl. Qed.

Lemma map_snd_combine_zseq (l : list Z) (i : Z) :
  map snd (combine l (zseq i (length l))) = zseq i (length l).
Proof. revert i; induction l; intros i; simpl; [reflexivity|]. f_equal. apply IHl. Qed.

Lemma collect_seen_spec (names : list string) :
  collect_seen names = first_occurrences [] (extracted names).
Proof. unfold collect_seen. rewrite (fold_seen names [] []); [reflexivity|tauto]. Qed.

Lemma renumber_mapping (names : list string) :
  snd (renumber_global_names names) =
  combine (first_occurrences [] (extracted names))
          (zseq 1 (length (first_occurrences [] (extracted names)))).
Proof.
  unfold renumber_global_names. simpl. rewrite collect_seen_spec.
  rewrite enumerate_into_spec; [reflexivity|apply first_occurrences_nodup|].
  intros x _ [].
Qed.

(** Claim C3: the mapping built by [renumber_global_names] has as keys
    the first-digit-run values of the column in order of first appearance
    (rows with no digit run contributing nothing), and as values
    [1, 2, ..., N] in that order; ["og_7"; "og_3"; "og_7"; "og_9"] gives
    [{7:1, 3:2, 9:3}]. *)
Theorem build_mapping_first_appearance :
  (forall names : list string,
     let m := snd (renumber_global_names names) in
     map fst m = first_occurrences [] (extracted names) /\
     map snd m = zseq 1 (length m) /\
     NoDup (map fst m)) /\
  snd (renumber_global_names ["og_7"; "og_3"; "og_7"; "og_9"]) =
    [(7, 1); (3, 2); (9, 3)]%Z.
Proof.
  split; [|reflexivity].
  intros names m. subst m. rewrite renumber_mapping.
  rewrite map_fst_combine_zseq, map_snd_combine_zseq, length_combine, zseq_length, Nat.min_id.
  split; [reflexivity|]. split; [reflexivity|]. apply first_occurrences_nodup.
Qed.

Fixpoint no_digit (s : string) : bool :=
  match s with
  | EmptyString => true
  | String c r => negb (is_digit c) && no_digit r
  end.

Definition starts_nondigit (s : string) : bool :=
  match s with String c _ => negb (is_digit c) | EmptyString => true end.

Lemma span_digits_app (d post : string) :
  all_digits d = true -> starts_nondigit post = true ->
  span_digits (d ++ post)%string = (d, post).
Proof.
  induction d as [|c r IH]; simpl; intros Hd Hp.
  - destruct post as [|c r]; simpl; [reflexivity|].
    simpl in Hp. destruct (is_digit c); [discriminate|reflexivity].
  - apply andb_prop in Hd as [Hc Hr]. rewrite Hc, IH by assumption. reflexivity.
Qed.

Lemma first_digit_run_app (pre d post : string) :
  no_digit pre = true -> d <> EmptyString -> all_digits d = true ->
  starts_nondigit post = true ->
  first_digit_run (pre ++ d ++ post)%string = Some (pre, d, post).
Proof.
  intros Hpre Hne Hd Hp. induction pre as [|c r IH]; simpl.
  - destruct d as [|c r]; [congruence|]. simpl in Hd |- *.
    apply andb_prop in Hd as [Hc Hr]. rewrite Hc.
    rewrite span_digits_app by assumption. reflexivity.
  - simpl in Hpre. apply andb_prop in Hpre as [Hc Hr].
    apply negb_true_iff in Hc. rewrite Hc, IH by assumption. reflexivity.
Qed.

Lemma first_digit_run_none (s : string) :
  no_digit s = true -> first_digit_run s = None.
Proof.
  induction s as [|c r IH]; simpl; intros H; [reflexivity|].
  apply andb_prop in H as [Hc Hr]. apply negb_true_iff in Hc.
  rewrite Hc, IH by assumption. reflexivity.
Qed.

Lemma get_in (m : mapping) (k v : Z) :
  NoDup (map fst m) -> In (k, v) m -> get m k = Some v.
Proof.
  unfold get. induction m as [|[k' v'] r IH]; simpl; [tauto|].
  intros Hnd Hin. inversion Hnd as [|? ? Hk' Hr]; subst.
  destruct (Z.eqb_spec k' k) as [->|Hne].
  - destruct Hin as [E|Hin]; [congruence|].
    exfalso. apply Hk'. apply (in_map fst) in Hin. exact Hin.
  - destruct Hin as [E|Hin]; [congruence|]. apply IH; assumption.
Qed.

Lemma get_notin (m : mapping) (k : Z) :
  ~ In k (map fst m) -> get m k = None.
Proof.
  unfold get. induction m as [|[k' v'] r IH]; simpl; [reflexivity|].
  intros H. destruct (Z.eqb_spec k' k) as [->|_]; [tauto|].
  apply IH. tauto.
Qed.

(** Claim C6: on a formatted name [pre ++ d ++ post] whose first digit
    run is [d], renaming with a mapping that sends the value of [d] to
    [n] gives [pre ++ str(n) ++ post]; a name with no digit is left
    as it is; an integer group id is sent to its image when the mapping
    has it and passes through unchanged when it does not. *)
Theorem apply_mapping_fields :
  (forall (m : mapping) (pre d post : string) (n : Z),
     no_digit pre = true -> d <> EmptyString -> all_digits d = true ->
     starts_nondigit post = true ->
     NoDup (map fst m) -> In (digits_value d, n) m ->
     rename m (pre ++ d ++ post)%string = (pre ++ str_Z n ++ post)%string) /\
  (forall (m : mapping) (s : string), no_digit s = true -> rename m s = s) /\
  (forall (m : mapping) (v n : Z),
     NoDup (map fst m) -> In (v, n) m -> map_group m v = n) /\
  (forall (m : mapping) (v : Z), ~ In v (map fst m) -> map_group m v = v).
Proof.
  split; [|split; [|split]].
  - intros m pre d post n Hpre Hne Hd Hp Hnd Hin.
    unfold rename, extract_digits_int, replace_first_digit_group.
    rewrite first_digit_run_app by assumption. simpl.
    rewrite (get_in m _ n Hnd Hin). reflexivity.
  - intros m s H. unfold rename, replace_first_digit_group.
    rewrite first_digit_run_none by exact H. reflexivity.
  - intros m v n Hnd Hin. unfold map_group. rewrite (get_in m v n Hnd Hin).
    reflexivity.
  - intros m v H. unfold map_group. rewrite get_notin by exact H. reflexivity.
Qed.

(** [og_9] renamed with [{7:1, 3:2, 9:3}] is [og_3]; group 5, absent,
    passes through. *)
Lemma apply_mapping_fields_witness :
  rename [(7, 1); (3, 2); (9, 3)]%Z ("og_" ++ "9" ++ "")%string = ("og_" ++ str_Z 3 ++ "")%string /\
  map_group [(7, 1); (3, 2); (9, 3)]%Z 5 = 5%Z.
Proof.
  split.
  - apply (proj1 apply_mapping_fields [(7, 1); (3, 2); (9, 3)]%Z "og_" "9" "" 3%Z);
      [reflexivity|discriminate|reflexivity|reflexivity| |].
    + repeat constructor; simpl; intuition lia.
    + simpl. right. right. left. reflexivity.
  - apply (proj2 (proj2 (proj2 apply_mapping_fields)) [(7, 1); (3, 2); (9, 3)]%Z 5%Z).
    simpl. intuition lia.
Defined.

End RenumberProofs.
(** ** Equal-width binning *)

Module EqualWidth.
Import Binning Float64 WidthBinning.

Lemma Qlt_bool_iff (x y : Q) : Qlt_bool x y = true <-> (x < y)%Q.
Proof.
  unfold Qlt_bool. rewrite negb_true_iff. split.
  - intros H. apply Qnot_le_lt. intros H'. apply Qle_bool_iff in H'. congruence.
  - intros H. apply not_true_iff_false. intros H'. apply Qle_bool_iff in H'.
    apply (Qlt_not_le _ _ H H').
Qed.

(** Integers below [2^53] are exact doubles, so [float(i)] never raises
    for them. *)
Lemma digits2_size (p : positive) : digits2_pos p = Pos.size p.
Proof. induction p as [p IH|p IH|]; simpl; rewrite ?IH; reflexivity. Qed.

Lemma size_iter_xO (p k : positive) : Pos.size (Pos.iter xO p k) = (Pos.size p + k)%positive.
Proof.
  induction k as [|k IH] using Pos.peano_ind.
  - simpl. rewrite Pos.add_1_r. reflexivity.
  - rewrite Pos.iter_succ. simpl. rewrite IH, Pos.add_succ_r. reflexivity.
Qed.

Lemma size_lt (p : positive) : (Zpos p < 2 ^ 53)%Z -> (Zpos (Pos.size p) <= 53)%Z.
Proof.
  intros H. pose proof (Pos.size_le p) as L.
  apply Pos2Z.pos_le_pos in L. rewrite Pos2Z.inj_pow in L.
  change (Z.pos p~0) with (2 * Z.pos p)%Z in L. change (Z.pos 2) with 2%Z in L.
  destruct (Z.le_gt_cases (Zpos (Pos.size p)) 53) as [|G]; [assumption|exfalso].
  assert (2 ^ 54 <= 2 ^ Zpos (Pos.size p))%Z by (apply Z.pow_le_mono_r; lia).
  change (2 ^ 54)%Z with 18014398509481984%Z in *. change (2 ^ 53)%Z with 9007199254740992%Z in *. lia.
Qed.

Lemma round_aux_exact (m : positive) (e : Z) :
  Pos.size m = 53%positive -> (-1074 <= e <= 971)%Z ->
  binary_round_aux 53 1024 false (Zpos m) e loc_Exact = S754_finite false m e.
Proof.
  intros Hm He. unfold binary_round_aux, shr_fexp, Zdigits2.
  rewrite digits2_size, Hm.
  assert (Hx : (fexp 53 1024 (Zpos 53 + e) - e)%Z = 0%Z) by (unfold fexp, emin; lia).
  rewrite Hx. cbn [shr shr_record_of_loc shr_m loc_of_shr_record round_nearest_even].
  unfold Zdigits2. rewrite digits2_size, Hm, Hx. cbn [shr shr_m].
  replace (e <=? 1024 - 53)%Z with true by (symmetry; apply Z.leb_le; lia). reflexivity.
Qed.

Lemma round_int_small (n : Z) : (0 < n < 2 ^ 53)%Z ->
  exists m e, round_int n = S754_finite false m e.
Proof.
  intros [H0 H1]. destruct n as [|p|p]; [exfalso; lia| |exfalso; lia].
  pose proof (size_lt p H1) as Hs.
  unfold round_int, binary_normalize, binary_round, Float64.prec, Float64.emax.
  rewrite digits2_size.
  assert (Hf : fexp 53 1024 (Zpos (Pos.size p) + 0) = (Zpos (Pos.size p) - 53)%Z).
  { unfold fexp, emin. lia. }
  rewrite Hf. unfold shl_align.
  destruct (Zpos (Pos.size p) - 53 - 0)%Z eqn:E.
  - exists p, 0%Z. apply round_aux_exact; [lia|lia].
  - lia.
  - exists (Pos.iter xO p p0), (Zpos (Pos.size p) - 53)%Z. apply round_aux_exact.
    + rewrite size_iter_xO. lia.
    + lia.
Qed.

Lemma of_int_small (n : Z) : (0 <= n < 2 ^ 53)%Z -> of_int n = Ok (round_int n).
Proof.
  intros H. unfold of_int. destruct (Z.eq_dec n 0) as [->|Hn]; [reflexivity|].
  destruct (round_int_small n) as [m [e E]]; [lia|]. rewrite E. reflexivity.
Qed.

Lemma edges_from_small (vmin step : float) (is : list nat) :
  (forall i, In i is -> (Z.of_nat i < 2 ^ 53)%Z) ->
  edges_from vmin step is = Ok (map (fun i => add vmin (mul (round_int (Z.of_nat i)) step)) is).
Proof.
  induction is as [|i r IH]; intros H; [reflexivity|]. cbn [edges_from map].
  rewrite of_int_small by (split; [lia|apply H; left; reflexivity]).
  rewrite IH by (intros j Hj; apply H; right; exact Hj). reflexivity.
Qed.

Section Place.
Variable cls : fentry -> result (option nat).

Definition cls_is (k : nat) (e : fentry) : bool :=
  match cls e with Ok (Some j) => Nat.eqb j k | _ => false end.

Definition cls_none (e : fentry) : bool :=
  match cls e with Ok None => true | _ => false end.

(** The message of the first entry whose classification raises. *)
Fixpoint first_raise (l : list fentry) : option string :=
  match l with
  | [] => None
  | e :: r => match cls e with Raise m => Some m | Ok _ => first_raise r end
  end.

Definition place_step (st : result (list (list fentry) * nat)) (e : fentry) :=
  match st with
  | Raise m => Raise m
  | Ok (bs, s) =>
      match cls e with
      | Raise m => Raise m
      | Ok (Some k) => Ok (append_at k e bs, s)
      | Ok None => Ok (bs, S s)
      end
  end.

Lemma append_at_length (k : nat) (e : fentry) (bs : list (list fentry)) :
  length (append_at k e bs) = length bs.
Proof. revert k; induction bs; intros [|k]; simpl; auto. Qed.

Lemma append_at_nth (k0 k : nat) (e : fentry) (bs : list (list fentry)) :
  (k0 < length bs)%nat ->
  nth k (append_at k0 e bs) [] =
    if Nat.eqb k k0 then (nth k bs [] ++ [e])%list else nth k bs [].
Proof.
  revert k0 k; induction bs as [|b r IH]; intros k0 k H; simpl in *; [lia|].
  destruct k0, k; simpl; auto.
  apply IH. lia.
Qed.

Lemma fold_place_raise (l : list fentry) (m : string) :
  fold_left place_step l (Raise m) = Raise m.
Proof. induction l; simpl; auto. Qed.

Lemma fold_place (entries : list fentry) (bs : list (list fentry)) (s : nat) :
  (forall e k, cls e = Ok (Some k) -> (k < length bs)%nat) ->
  match first_raise entries with
  | Some m => fold_left place_step entries (Ok (bs, s)) = Raise m
  | None =>
      exists bs' s', fold_left place_step entries (Ok (bs, s)) = Ok (bs', s') /\
        length bs' = length bs /\
        (forall k, nth k bs' [] = (nth k bs [] ++ filter (cls_is k) entries)%list) /\
        s' = (s + length (filter cls_none entries))%nat
  end.
Proof.
  revert bs s; induction entries as [|e r IH]; intros bs s Hb; simpl.
  - exists bs, s. repeat split; intros; rewrite ?app_nil_r; (reflexivity || lia).
  - unfold cls_is at 1, cls_none at 1. destruct (cls e) as [[k0|]|m] eqn:Ec.
    + specialize (IH (append_at k0 e bs) s).
      rewrite append_at_length in IH. specialize (IH Hb).
      destruct (first_raise r) as [m|]; [exact IH|].
      destruct IH as [bs' [s' [F [L [N S']]]]]. exists bs', s'.
      split; [exact F|]. split; [exact L|]. split; [|exact S'].
      intros k. rewrite N, append_at_nth by (eapply Hb; eauto).
      destruct (Nat.eqb_spec k k0) as [->|Hne].
      * rewrite Nat.eqb_refl, <- app_assoc. reflexivity.
      * destruct (Nat.eqb_spec k0 k); [congruence|]. reflexivity.
    + specialize (IH bs (S s) Hb).
      destruct (first_raise r) as [m|]; [exact IH|].
      destruct IH as [bs' [s' [F [L [N S']]]]]. exists bs', s'.
      repeat split; auto. simpl. lia.
    + apply fold_place_raise.
Qed.

End Place.

(** [step = (vmax - vmin) / bins], in doubles. *)
Definition step_of (bins : nat) (vmin vmax : float) : float :=
  SFdiv prec emax (sub vmax vmin) (round_int (Z.of_nat bins)).

(** The bucket of a finite value in [[vmin, vmax]] as the amended claim
    words it: [bins - 1] for [vmax], else [int((v - vmin) / step)],
    computed in doubles (and raising as Python does), clamped to
    [[0, bins - 1]]. *)
Definition claimed_bucket (bins : nat) (vmin vmax v : float) : result nat :=
  if eqb v vmax then Ok (bins - 1)%nat
  else
    match div (sub v vmin) (step_of bins vmin vmax) with
    | Raise m => Raise m
    | Ok q =>
        match to_int q with
        | Raise m => Raise m
        | Ok z => Ok (Z.to_nat (Z.max 0 (Z.min (Z.of_nat bins - 1) z)))
        end
    end.

(** An entry skipped ([None]: non-finite, below [vmin] or above
    [vmax]), put in a bucket, or raising. *)
Definition claimed_class (bins : nat) (vmin vmax : float) (e : fentry) : result (option nat) :=
  let v := snd e in
  if negb (isfinite v) || ltb v vmin || ltb vmax v then Ok None
  else match claimed_bucket bins vmin vmax v with
       | Raise m => Raise m
       | Ok k => Ok (Some k)
       end.

Lemma bin_index_claimed (bins : nat) (vmin vmax v : float) :
  (1 <= bins)%nat ->
  bin_index bins vmin vmax (step_of bins vmin vmax) v = claimed_bucket bins vmin vmax v.
Proof.
  intros Hb. unfold bin_index, claimed_bucket.
  destruct (eqb v vmax); [reflexivity|].
  destruct (div (sub v vmin) (step_of bins vmin vmax)) as [q|m]; [|reflexivity].
  destruct (to_int q) as [z|m]; [|reflexivity]. f_equal.
  destruct (Z.ltb_spec z 0); [lia|].
  destruct (Z.leb_spec (Z.of_nat bins) z); lia.
Qed.

Lemma claimed_class_lt (bins : nat) (vmin vmax : float) (e : fentry) (k : nat) :
  (1 <= bins)%nat -> claimed_class bins vmin vmax e = Ok (Some k) -> (k < bins)%nat.
Proof.
  intros Hb. unfold claimed_class, claimed_bucket.
  destruct (negb (isfinite (snd e)) || ltb (snd e) vmin || ltb vmax (snd e)); [discriminate|].
  destruct (eqb (snd e) vmax); [intros E; injection E as <-; lia|].
  destruct (div _ _) as [q|m]; [|discriminate].
  destruct (to_int q) as [z|m]; [|discriminate]. intros E. injection E as <-. lia.
Qed.

Lemma assign_step_place (bins : nat) (vmin vmax : float) st e :
  (1 <= bins)%nat ->
  assign_step bins vmin vmax (step_of bins vmin vmax) st e =
  place_step (claimed_class bins vmin vmax) st e.
Proof.
  intros Hb. destruct st as [[bs s]|m]; [|reflexivity].
  unfold assign_step, place_step, claimed_class. cbv zeta.
  destruct (isfinite (snd e)); [|reflexivity]. cbn [negb orb].
  destruct (ltb (snd e) vmin || ltb vmax (snd e)); [reflexivity|].
  rewrite bin_index_claimed by exact Hb.
  destruct (claimed_bucket bins vmin vmax (snd e)); reflexivity.
Qed.

Lemma fold_left_ext_pw {A B : Type} (f g : A -> B -> A) (l : list B) (a : A) :
  (forall x y, f x y = g x y) -> fold_left f l a = fold_left g l a.
Proof. revert a; induction l as [|x r IH]; intros a H; simpl; [reflexivity|]. rewrite H. auto. Qed.

(** Claim C2, as the code computes it in doubles: for [1 <= bins < 2^53],
    [step = fl((vmax - vmin) / bins)] and [edges[i] = fl(vmin + fl(i * step))];
    if classifying some entry raises ([ZeroDivisionError] on a zero step,
    [ValueError] on a nan quotient, [OverflowError] on an infinite one),
    [assign_bins] raises the first such error; otherwise it skips (and
    counts) the entries that are non-finite, below [vmin] or above [vmax],
    and puts every other entry, in input order, in bucket [bins - 1] if it
    equals [vmax], else in [int(fl(fl(v - vmin) / step))] clamped to
    [[0, bins-1]].  With 5 bins on [[0, 10]]: 10.0 is in bucket 4, 2.0 in
    bucket 1, and -0.5 is skipped. *)
Theorem equal_width_binning :
  (forall (entries : list fentry) (bins : nat) (vmin vmax : float),
     (1 <= bins)%nat -> (Z.of_nat bins < 2 ^ 53)%Z ->
     match first_raise (claimed_class bins vmin vmax) entries with
     | Some m => assign_bins entries bins vmin vmax = Raise m
     | None =>
         exists buckets skipped,
           assign_bins entries bins vmin vmax =
             Ok (buckets,
                 map (fun i => add vmin (mul (round_int (Z.of_nat i)) (step_of bins vmin vmax)))
                     (seq 0 (bins + 1)),
                 skipped) /\
           skipped = length (filter (cls_none (claimed_class bins vmin vmax)) entries) /\
           length buckets = bins /\
           (forall k, (k < bins)%nat ->
              nth k buckets [] = filter (cls_is (claimed_class bins vmin vmax) k) entries)
     end) /\
  match assign_bins [("a", round_int 10); ("b", round_int 2); ("c", literal (-1) 2)] 5
                    (round_int 0) (round_int 10) with
  | Ok (bs, _, skipped) =>
      nth 4 bs [] = [("a", round_int 10)] /\ nth 1 bs [] = [("b", round_int 2)] /\
      skipped = 1%nat /\ concat bs = [("b", round_int 2); ("a", round_int 10)]
  | Raise _ => False
  end.
Proof.
  split; [|vm_compute; repeat split].
  intros entries bins vmin vmax Hb Hbig.
  unfold assign_bins.
  destruct (Nat.ltb_spec bins 1) as [H1|_]; [lia|].
  rewrite of_int_small by lia. cbv beta iota.
  destruct (round_int_small (Z.of_nat bins)) as [mb [eb Eb]]; [lia|].
  assert (Hd : div (sub vmax vmin) (round_int (Z.of_nat bins)) = Ok (step_of bins vmin vmax)).
  { unfold div, step_of. rewrite Eb. reflexivity. }
  rewrite Hd. cbv beta iota.
  rewrite edges_from_small.
  2:{ intros i Hi. apply in_seq in Hi. lia. }
  rewrite (fold_left_ext_pw _ _ entries _ (fun st e => assign_step_place bins vmin vmax st e Hb)).
  pose proof (fold_place (claimed_class bins vmin vmax) entries (repeat [] bins) 0) as HF.
  rewrite repeat_length in HF.
  specialize (HF (fun e k => claimed_class_lt bins vmin vmax e k Hb)).
  destruct (first_raise (claimed_class bins vmin vmax) entries) as [m|].
  - rewrite HF. reflexivity.
  - destruct HF as [bs [s [F [L [N S]]]]]. rewrite F.
    exists bs, s. split; [reflexivity|]. split; [exact S|]. split; [exact L|].
    intros k Hk. rewrite N, nth_repeat. reflexivity.
Qed.

Lemma equal_width_binning_witness :
  match first_raise (claimed_class 5 (round_int 0) (round_int 10))
          [("a", round_int 10); ("b", round_int 2); ("c", literal (-1) 2); ("d", S754_nan)] with
  | Some m => assign_bins [("a", round_int 10); ("b", round_int 2); ("c", literal (-1) 2); ("d", S754_nan)]
                5 (round_int 0) (round_int 10) = Raise m
  | None =>
      exists buckets skipped,
        assign_bins [("a", round_int 10); ("b", round_int 2); ("c", literal (-1) 2); ("d", S754_nan)]
          5 (round_int 0) (round_int 10) =
          Ok (buckets,
              map (fun i => add (round_int 0) (mul (round_int (Z.of_nat i)) (step_of 5 (round_int 0) (round_int 10))))
                  (seq 0 (5 + 1)),
              skipped) /\
        skipped = length (filter (cls_none (claimed_class 5 (round_int 0) (round_int 10)))
                    [("a", round_int 10); ("b", round_int 2); ("c", literal (-1) 2); ("d", S754_nan)]) /\
        length buckets = 5%nat /\
        (forall k, (k < 5)%nat ->
           nth k buckets [] = filter (cls_is (claimed_class 5 (round_int 0) (round_int 10)) k)
             [("a", round_int 10); ("b", round_int 2); ("c", literal (-1) 2); ("d", S754_nan)])
  end.
Proof.
  apply (proj1 equal_width_binning); [lia|vm_compute; reflexivity].
Defined.

(** The smallest positive double, [5e-324]. *)
Definition min_subnormal : float := S754_finite false 1 (-1074).

(** Claim C2 as stated, with exact real arithmetic, is refuted:
    - on [[-0.1, 0.2]] with 3 bins, [0.0] is in bucket 0, while the
      exact [floor((0 - vmin) / ((vmax - vmin) / 3))] over the two input
      doubles is 1;
    - on [[0.0, 5e-324]] with 2 bins, [step] rounds to [0.0] and the
      entry [0.0] raises [ZeroDivisionError];
    - on [[-1e308, 1e308]] with 1 bin, [step] is infinite and the entry
      [8e307] gives [inf / inf = nan], so [int] raises [ValueError]. *)
Lemma equal_width_binning_counterexample :
  (ltb (literal (-1) 10) (literal 2 10) = true /\
   Qfloor ((to_Q (round_int 0) - to_Q (literal (-1) 10)) /
           ((to_Q (literal 2 10) - to_Q (literal (-1) 10)) / 3)) = 1%Z /\
   match assign_bins [("a", round_int 0)] 3 (literal (-1) 10) (literal 2 10) with
   | Ok (bs, _, skipped) => bs = [[("a", round_int 0)]; []; []] /\ skipped = 0%nat
   | Raise _ => False
   end) /\
  (ltb (round_int 0) min_subnormal = true /\
   assign_bins [("a", round_int 0)] 2 (round_int 0) min_subnormal =
     Raise "ZeroDivisionError: float division by zero") /\
  (ltb (round_int (- 10 ^ 308)) (round_int (10 ^ 308)) = true /\
   isfinite (round_int (8 * 10 ^ 307)) = true /\
   assign_bins [("a", round_int (8 * 10 ^ 307))] 1 (round_int (- 10 ^ 308)) (round_int (10 ^ 308)) =
     Raise "ValueError: cannot convert float NaN to integer").
Proof. vm_compute. repeat split; reflexivity. Qed.

End EqualWidth.

(** ** Equal-count binning *)

Module EqualCount.
Import Binning.
Local Open Scope Q_scope.

Definition key_le (x y : entry) : Prop := key x <= key y.

(** The entries whose value equals [q]. *)
Definition same_key (q : Q) (e : entry) : bool := Qeq_bool (key e) q.

Lemma insert_sorted_perm (x : entry) (l : list entry) :
  Permutation (insert_sorted x l) (x :: l).
Proof.
  induction l as [|y r IH]; simpl; [constructor; constructor|].
  destruct (Qlt_bool (key x) (key y)); [reflexivity|].
  eapply perm_trans; [apply perm_skip, IH|]. apply perm_swap.
Qed.

Lemma Qlt_bool_true (x y : Q) : Qlt_bool x y = true -> x < y.
Proof.
  unfold Qlt_bool. rewrite negb_true_iff. intros H.
  apply Qnot_le_lt. intros H'. apply Qle_bool_iff in H'. congruence.
Qed.

Lemma Qlt_bool_false (x y : Q) : Qlt_bool x y = false -> y <= x.
Proof.
  unfold Qlt_bool. rewrite negb_false_iff. apply Qle_bool_iff.
Qed.

Lemma insert_sorted_sorted (x : entry) (l : list entry) :
  StronglySorted key_le l -> StronglySorted key_le (insert_sorted x l).
Proof.
  induction l as [|y r IH]; simpl; intros H.
  - repeat constructor.
  - inversion H as [|? ? Hr Hall]; subst.
    destruct (Qlt_bool (key x) (key y)) eqn:E.
    + apply Qlt_bool_true in E. constructor; [exact H|].
      constructor; [apply Qlt_le_weak, E|].
      eapply Forall_impl; [|exact Hall]. intros z Hz.
      unfold key_le in *. apply Qlt_le_weak. eapply Qlt_le_trans; eauto.
    + apply Qlt_bool_false in E. constructor; [apply IH, Hr|].
      apply Forall_forall. intros z Hz.
      apply (Permutation_in _ (insert_sorted_perm x r)) in Hz.
      destruct Hz as [<-|Hz]; [exact E|].
      rewrite Forall_forall in Hall. apply Hall, Hz.
Qed.

Lemma same_key_above (q : Q) (x z : entry) :
  same_key q x = true -> key x < key z -> same_key q z = false.
Proof.
  unfold same_key. intros Hx Hlt. apply not_true_iff_false. intros Hz.
  apply Qeq_bool_iff in Hx, Hz.
  assert (Hzx : key z <= key x).
  { apply Qle_lteq. right. rewrite Hz, Hx. reflexivity. }
  apply (Qlt_irrefl (key x)). eapply Qlt_le_trans; eauto.
Qed.

Lemma filter_all_false {A : Type} (f : A -> bool) (l : list A) :
  (forall z, In z l -> f z = false) -> filter f l = [].
Proof.
  induction l as [|y r IH]; simpl; intros H; [reflexivity|].
  rewrite H by (left; reflexivity). apply IH. intros z Hz. apply H. right. exact Hz.
Qed.

Lemma insert_sorted_stable (q : Q) (x : entry) (l : list entry) :
  StronglySorted key_le l ->
  filter (same_key q) (insert_sorted x l) =
  (filter (same_key q) l ++ (if same_key q x then [x] else []))%list.
Proof.
  induction l as [|y r IH]; simpl; intros H.
  - destruct (same_key q x); reflexivity.
  - inversion H as [|? ? Hr Hall]; subst.
    destruct (Qlt_bool (key x) (key y)) eqn:E.
    + apply Qlt_bool_true in E. simpl.
      destruct (same_key q x) eqn:Sx.
      * assert (Hy : same_key q y = false) by (eapply same_key_above; eauto).
        assert (Hr0 : filter (same_key q) r = []).
        { apply filter_all_false. intros z Hz. rewrite Forall_forall in Hall.
          eapply same_key_above; [exact Sx|]. eapply Qlt_le_trans; [exact E|].
          apply Hall, Hz. }
        rewrite Hy, Hr0. reflexivity.
      * destruct (same_key q y); simpl; rewrite ?app_nil_r; reflexivity.
    + simpl. rewrite IH by exact Hr.
      destruct (same_key q y); reflexivity.
Qed.

Lemma fold_insert_spec (l acc : list entry) :
  StronglySorted key_le acc ->
  let r := fold_left (fun acc x => insert_sorted x acc) l acc in
  StronglySorted key_le r /\ Permutation r (acc ++ l) /\
  (forall q, filter (same_key q) r = (filter (same_key q) acc ++ filter (same_key q) l)%list).
Proof.
  revert acc; induction l as [|x l IH]; intros acc H; simpl.
  - rewrite !app_nil_r. split; [exact H|]. split; [reflexivity|]. intros q.
    rewrite app_nil_r. reflexivity.
  - destruct (IH (insert_sorted x acc) (insert_sorted_sorted x acc H)) as [S1 [P1 F1]].
    split; [exact S1|]. split.
    + eapply perm_trans; [exact P1|].
      eapply perm_trans; [apply Permutation_app_tail, insert_sorted_perm|].
      simpl. apply Permutation_middle.
    + intros q. rewrite F1, insert_sorted_stable by exact H.
      rewrite <- app_assoc. f_equal. destruct (same_key q x); reflexivity.
Qed.

Lemma sorted_by_value_spec (l : list entry) :
  StronglySorted key_le (sorted_by_value l) /\ Permutation (sorted_by_value l) l /\
  (forall q, filter (same_key q) (sorted_by_value l) = filter (same_key q) l).
Proof.
  destruct (fold_insert_spec l [] (SSorted_nil _)) as [S1 [P1 F1]].
  split; [exact S1|]. split; [exact P1|]. intros q. rewrite F1. reflexivity.
Qed.

(** *** [round] *)









(** *** Slices *)

Lemma firstn_add {A : Type} (n m : nat) (l : list A) :
  firstn (n + m) l = (firstn n l ++ firstn m (skipn n l))%list.
Proof.
  revert l; induction n as [|n IH]; intros l; simpl; [reflexivity|].
  destruct l as [|x r]; simpl; [rewrite firstn_nil; reflexivity|]. f_equal. apply IH.
Qed.







Lemma nth_map_seq {A : Type} (f : nat -> A) (n i : nat) (d : A) :
  (i < n)%nat -> nth i (map f (seq 0 n)) d = f i.
Proof.
  intros H. rewrite (nth_indep _ d (f 0%nat)) by (rewrite length_map, length_seq; exact H).
  rewrite map_nth, seq_nth by exact H. reflexivity.
Qed.

(** What [assign_bins_same_size] returns when some entry is in range. *)
Lemma same_size_buckets (entries : list entry) (bins : nat) (vmin vmax : Q) :
  (1 <= bins)%nat ->
  let inr := filter (fun e => in_range vmin vmax (snd e)) entries in
  inr <> [] ->
  exists edges,
    assign_bins_same_size entries bins vmin vmax =
    Ok (map (fun i => slice (sorted_by_value inr)
                            (cut_index (length inr) bins i)
                            (cut_index (length inr) bins (S i))) (seq 0 bins),
        edges, (length entries - length inr)%nat).
Proof.
  intros Hb inr Hne. unfold assign_bins_same_size.
  destruct (Nat.ltb_spec bins 1) as [H1|_]; [lia|]. fold inr.
  destruct (sorted_by_value_spec inr) as [_ [P _]].
  assert (Hlen : length (sorted_by_value inr) = length inr) by apply (Permutation_length P).
  destruct inr as [|e0 r] eqn:Einr; [congruence|].
  rewrite <- Einr in *. rewrite Hlen.
  eexists. f_equal. f_equal. f_equal.
  apply map_ext_in. intros i Hi. apply in_seq in Hi.
  rewrite !nth_map_seq by lia. reflexivity.
Qed.




End EqualCount.


(** ** Predicate filtering of LST lines *)

Module LstProofs.
Import Binning Lst.
Local Open Scope list_scope.

Section Filter.
Variables (param : option string) (greaterthan lessthan : option fval) (use_abs : bool).

Definition tag_list (line : string) : list string :=
  match line_tag param greaterthan lessthan use_abs line with
  | Some t => [t]
  | None => []
  end.

(** The lines [read_lst] keeps a tag for, as a file of their own. *)
Definition kept_lines (lines : list string) : list string :=
  filter (fun ln => match line_tag param greaterthan lessthan use_abs ln with
                    | Some _ => true | None => false end) lines.

Lemma read_lst_acc (lines : list string) (acc : list string) :
  fold_left (fun kept line =>
               match line_tag param greaterthan lessthan use_abs line with
               | Some t => kept ++ [t]
               | None => kept
               end) lines acc = acc ++ read_lst param greaterthan lessthan use_abs lines.
Proof.
  unfold read_lst. revert acc. induction lines as [|ln r IH]; intros acc; simpl.
  - rewrite app_nil_r. reflexivity.
  - destruct (line_tag param greaterthan lessthan use_abs ln); simpl;
      rewrite IH; [rewrite (IH [_]); rewrite app_assoc|]; reflexivity.
Qed.

Lemma read_lst_cons (ln : string) (lines : list string) :
  read_lst param greaterthan lessthan use_abs (ln :: lines) =
  tag_list ln ++ read_lst param greaterthan lessthan use_abs lines.
Proof.
  unfold read_lst at 1. simpl. rewrite read_lst_acc. unfold tag_list.
  destruct (line_tag param greaterthan lessthan use_abs ln); reflexivity.
Qed.

Lemma read_lst_flat_map (lines : list string) :
  read_lst param greaterthan lessthan use_abs lines = flat_map tag_list lines.
Proof.
  induction lines as [|ln r IH]; [reflexivity|].
  rewrite read_lst_cons, IH. reflexivity.
Qed.

End Filter.

(** Claim C7: [read_lst] is order preserving and idempotent.  Its result
    is the concatenation, in line order, of the tag each line yields, so
    the tags of earlier lines come first and the result of a file split
    in two is the two results one after the other; the lines it keeps,
    filtered again with the same predicate, are all kept and yield the
    same tags.  Example: keeping [|score| > 0.3] from four lines keeps
    the first and the fourth, in that order. *)
Theorem read_lst_order_idempotent :
  (forall param greaterthan lessthan use_abs (lines l1 l2 : list string),
     read_lst param greaterthan lessthan use_abs lines =
       flat_map (tag_list param greaterthan lessthan use_abs) lines /\
     read_lst param greaterthan lessthan use_abs (l1 ++ l2) =
       read_lst param greaterthan lessthan use_abs l1 ++
       read_lst param greaterthan lessthan use_abs l2 /\
     kept_lines param greaterthan lessthan use_abs
       (kept_lines param greaterthan lessthan use_abs lines) =
       kept_lines param greaterthan lessthan use_abs lines /\
     read_lst param greaterthan lessthan use_abs
       (kept_lines param greaterthan lessthan use_abs lines) =
       read_lst param greaterthan lessthan use_abs lines) /\
  read_lst (Some "score") (Some (Fin (3 # 10))) None true
    ["0 a.mrcs score=0.5"; "# comment"; "1 a.mrcs score=0.1";
     "2 b.mrcs defocus=1 score=-0.9"; "x b.mrcs score=5"] =
    ["000001@a.mrcs"; "000003@b.mrcs"].
Proof.
  split; [|vm_compute; reflexivity].
  intros param gt lt ab lines l1 l2.
  split; [apply read_lst_flat_map|]. split.
  { rewrite !read_lst_flat_map. apply flat_map_app. }
  assert (K : kept_lines param gt lt ab (kept_lines param gt lt ab lines) =
              kept_lines param gt lt ab lines).
  { unfold kept_lines. apply forallb_filter_id, forallb_filter. }
  split; [exact K|]. clear K.
  rewrite !read_lst_flat_map. unfold kept_lines.
  induction lines as [|ln r IH]; [reflexivity|]. simpl.
  unfold tag_list at 2 3.
  destruct (line_tag param gt lt ab ln) eqn:E; simpl.
  - unfold tag_list at 1. rewrite E. simpl. f_equal. exact IH.
  - exact IH.
Qed.

End LstProofs.

(** ** STAR filtering *)

Module StarProofs.
Import Binning Star Deprecated.
Local Open Scope list_scope.

(** Every column of a particle block, taken at the rows kept. *)
Definition select_rows (ki : list nat) (blk : block) : block :=
  map (fun kv => (fst kv, map (fun i => nth i (snd kv) "") ki)) blk.

(** What the loop of [filter_star] puts in [output_blocks] for a block. *)
Definition block_out (keep : list string) (nb : string * block) : list (string * block) :=
  let '(name, blk) := nb in
  match sget blk "rlnImageName" with
  | None => [(name, blk)]
  | Some names =>
      match kept_indices names keep with
      | [] => []
      | ki => [(name, select_rows ki blk)]
      end
  end.

(** A block as [StarFile3] reads it: distinct column names, and no
    column shorter than [rlnImageName]. *)
Definition wf_block (blk : block) : Prop :=
  NoDup (map fst blk) /\
  forall names, sget blk "rlnImageName" = Some names ->
    forall k v, In (k, v) blk -> length names <= length v.

Definition wf_doc (star : doc) : Prop :=
  NoDup (map fst star) /\ Forall (fun nb => wf_block (snd nb)) star.

Lemma sset_absent {V} (d : Dict.dict string V) (k : string) (v : V) :
  ~ In k (map fst d) -> sset d k v = d ++ [(k, v)].
Proof.
  unfold sset. induction d as [|[k' v'] r IH]; intros H; simpl; [reflexivity|].
  destruct (String.eqb_spec k' k) as [->|_].
  - exfalso. apply H. left. reflexivity.
  - rewrite IH; [reflexivity|]. intros Hk. apply H. right. exact Hk.
Qed.

Lemma sget_in {V} (d : Dict.dict string V) (k : string) (v : V) :
  NoDup (map fst d) -> In (k, v) d -> sget d k = Some v.
Proof.
  unfold sget. induction d as [|[k' v'] r IH]; intros ND Hin; [destruct Hin|].
  simpl in ND. inversion ND as [|? ? Hnot ND']; subst. simpl.
  destruct Hin as [E|Hin].
  - injection E as -> ->. rewrite String.eqb_refl. reflexivity.
  - destruct (String.eqb_spec k' k) as [->|_].
    + exfalso. apply Hnot. apply (in_map fst) in Hin. exact Hin.
    + apply IH; assumption.
Qed.

Lemma kept_indices_lt (names keep : list string) (i : nat) :
  In i (kept_indices names keep) -> i < length names.
Proof.
  unfold kept_indices. intros H. apply filter_In in H as [H _].
  apply in_seq in H. lia.
Qed.

Lemma take_rows_ok (ki : list nat) (v : list string) :
  (forall i, In i ki -> i < length v) ->
  take_rows ki v = Ok (map (fun i => nth i v "") ki).
Proof.
  intros H. unfold take_rows.
  replace (forallb (fun i => Nat.ltb i (length v)) ki) with true; [reflexivity|].
  symmetry. apply forallb_forall. intros i Hi. apply Nat.ltb_lt. auto.
Qed.

Lemma filter_columns_spec (ki : list nat) (blk acc : block) :
  NoDup (map fst (acc ++ blk)) ->
  (forall k v, In (k, v) blk -> forall i, In i ki -> i < length v) ->
  filter_columns ki blk acc = Ok (acc ++ select_rows ki blk).
Proof.
  revert acc. induction blk as [|[k v] r IH]; intros acc ND Hlen; simpl.
  - rewrite app_nil_r. reflexivity.
  - rewrite take_rows_ok by (intros i Hi; apply (Hlen k v); [left; reflexivity|exact Hi]).
    rewrite map_app in ND. simpl in ND.
    rewrite sset_absent.
    + rewrite IH.
      * rewrite <- app_assoc. reflexivity.
      * rewrite map_app, map_app, <- app_assoc. exact ND.
      * intros k' v' H. apply (Hlen k' v'). right. exact H.
    + intros Hk. apply NoDup_remove_2 in ND. apply ND. apply in_or_app. left. exact Hk.
Qed.

Lemma fold_filter_raise (keep : list string) (star : doc) (m : string) :
  fold_left (filter_step keep) star (Raise m) = Raise m.
Proof. induction star; simpl; auto. Qed.

Lemma fold_dep_raise (keep : list string) (star : doc) (m : string) :
  fold_left (dep_filter_step keep) star (Raise m) = Raise m.
Proof. induction star; simpl; auto. Qed.

Lemma block_out_names (keep : list string) (star : doc) (n : string) :
  In n (map fst (flat_map (block_out keep) star)) -> In n (map fst star).
Proof.
  induction star as [|[name blk] r IH]; simpl; [auto|].
  rewrite map_app. intros H. apply in_app_or in H as [H|H]; [|right; auto].
  left. unfold block_out in H.
  destruct (sget blk "rlnImageName") as [names|];
    [destruct (kept_indices names keep)|]; simpl in H; intuition.
Qed.

Lemma block_out_nodup (keep : list string) (star : doc) :
  NoDup (map fst star) -> NoDup (map fst (flat_map (block_out keep) star)).
Proof.
  induction star as [|[name blk] r IH]; simpl; intros ND; [constructor|].
  inversion ND as [|? ? Hnot ND']; subst. rewrite map_app.
  unfold block_out at 1.
  destruct (sget blk "rlnImageName") as [names|];
    [destruct (kept_indices names keep)|]; simpl; auto;
    constructor; auto; intros H; apply Hnot, (block_out_names keep); exact H.
Qed.

(** The number of particles [filter_star] counts in one block. *)
Definition kept_count (keep : list string) (nb : string * block) : nat :=
  match sget (snd nb) "rlnImageName" with
  | Some names => length (kept_indices names keep)
  | None => 0
  end.

Lemma output_fold (keep : list string) (star : doc) (out : doc) (kn : nat) :
  NoDup (map fst star) -> Forall (fun nb => wf_block (snd nb)) star ->
  (forall n, In n (map fst out) -> ~ In n (map fst star)) ->
  fold_left (filter_step keep) star (Ok (out, kn)) =
  Ok (out ++ flat_map (block_out keep) star, kn + list_sum (map (kept_count keep) star)).
Proof.
  revert out kn. induction star as [|[name blk] r IH]; intros out kn ND WF Hdis.
  { simpl. rewrite app_nil_r, Nat.add_0_r. reflexivity. }
  inversion ND as [|? ? Hnot ND']; subst. inversion WF as [|? ? [NDk Hlen] WF']; subst.
  simpl in NDk, Hlen.
  assert (Hout : ~ In name (map fst out))
    by (intros H; apply (Hdis name H); simpl; left; reflexivity).
  assert (Hdis' : forall n, In n (map fst out) -> ~ In n (map fst r))
    by (intros n H H'; apply (Hdis n H); simpl; right; exact H').
  simpl. unfold block_out at 1, kept_count at 1. simpl snd.
  destruct (sget blk "rlnImageName") as [names|] eqn:G.
  - destruct (kept_indices names keep) as [|i ki] eqn:K.
    + rewrite IH by assumption. simpl. f_equal. f_equal. lia.
    + rewrite filter_columns_spec.
      * simpl. rewrite sset_absent by exact Hout. rewrite IH.
        -- rewrite <- app_assoc. simpl. f_equal. f_equal. lia.
        -- exact ND'.
        -- exact WF'.
        -- intros n H. rewrite map_app in H. apply in_app_or in H as [H|[<-|[]]]; auto.
      * exact NDk.
      * intros k v Hkv j Hj. rewrite <- K in Hj. apply kept_indices_lt in Hj.
        specialize (Hlen names eq_refl k v Hkv). lia.
  - simpl. rewrite sset_absent by exact Hout. rewrite IH.
    + rewrite <- app_assoc. reflexivity.
    + exact ND'.
    + exact WF'.
    + intros n H. rewrite map_app in H. apply in_app_or in H as [H|[<-|[]]]; auto.
Qed.

Lemma dep_fold (keep : list string) (star : doc) (out : doc) (kn : nat) :
  fold_left (dep_filter_step keep) star (Ok out) =
  match fold_left (filter_step keep) star (Ok (out, kn)) with
  | Ok (o, _) => Ok o
  | Raise m => Raise m
  end.
Proof.
  revert out kn. induction star as [|[name blk] r IH]; intros out kn; [reflexivity|].
  simpl. destruct (sget blk "rlnImageName") as [names|].
  - destruct (kept_indices names keep) as [|i ki]; [apply IH|].
    destruct (filter_columns (i :: ki) blk []); [apply IH|].
    rewrite fold_filter_raise, fold_dep_raise. reflexivity.
  - apply IH.
Qed.

(** Claim C10: in [filter_star] of [lst2star.py] and of the deprecated
    script, a block without the column [rlnImageName] reaches the output
    unchanged, under its name and in its place; a block with it keeps
    all its columns, each restricted to the same rows (those whose image
    name is kept), or is left out when no row is kept. *)
Theorem filter_star_frame (star : doc) (keep : list string) :
  wf_doc star ->
  exists out kept_num,
    output_blocks star keep = Ok (out, kept_num) /\
    dep_output_blocks star keep = Ok out /\
    out = flat_map (block_out keep) star /\
    (forall name blk, In (name, blk) star -> sget blk "rlnImageName" = None ->
       sget out name = Some blk) /\
    (forall name fb, In (name, fb) out ->
       exists blk, In (name, blk) star /\
         ((sget blk "rlnImageName" = None /\ fb = blk) \/
          (exists names, sget blk "rlnImageName" = Some names /\
             fb = select_rows (kept_indices names keep) blk))).
Proof.
  intros [ND WF].
  assert (E := output_fold keep star [] 0 ND WF (fun n H => match H with end)).
  exists (flat_map (block_out keep) star), (list_sum (map (kept_count keep) star)).
  split; [exact E|]. split.
  { exact (eq_trans (dep_fold keep star [] 0)
      (f_equal (fun st => match st with Ok (o, _) => Ok o | Raise m => Raise m end) E)). }
  split; [reflexivity|]. split.
  - intros name blk Hin G. apply sget_in.
    + apply block_out_nodup. exact ND.
    + apply in_flat_map. exists (name, blk). split; [exact Hin|].
      simpl. rewrite G. left. reflexivity.
  - intros name fb Hin. apply in_flat_map in Hin as [[n blk] [Hin Hout]].
    exists blk. unfold block_out in Hout.
    destruct (sget blk "rlnImageName") as [names|] eqn:G.
    + destruct (kept_indices names keep) as [|i ki] eqn:K; [destruct Hout|].
      destruct Hout as [Eq|[]]. injection Eq as -> <-.
      split; [exact Hin|]. right. exists names. rewrite K. split; reflexivity.
    + destruct Hout as [Eq|[]]. injection Eq as -> <-. split; [exact Hin|]. left. split; reflexivity.
Qed.

Definition example_star : doc :=
  [("optics", [("rlnOpticsGroup", ["1"])]);
   ("particles", [("rlnImageName", ["000001@a.mrcs"; "000002@a.mrcs"]);
                  ("rlnOpticsGroup", ["1"; "1"])])].

Lemma filter_star_frame_witness :
  wf_doc example_star /\
  exists out kept_num,
    output_blocks example_star ["000002@a.mrcs"] = Ok (out, kept_num) /\
    dep_output_blocks example_star ["000002@a.mrcs"] = Ok out /\
    sget out "optics" = Some [("rlnOpticsGroup", ["1"])].
Proof.
  assert (Hwf : wf_doc example_star).
  { split.
    - constructor; [simpl; intuition discriminate|].
      constructor; [simpl; tauto|constructor].
    - constructor; [|constructor; [|constructor]]; split.
      + constructor; [simpl; tauto|constructor].
      + intros names G. vm_compute in G. discriminate G.
      + constructor; [simpl; intuition discriminate|].
        constructor; [simpl; tauto|constructor].
      + intros names G. vm_compute in G. injection G as <-. intros k v Hkv.
        destruct Hkv as [E|[E|[]]]; injection E as _ <-; simpl; lia. }
  split; [exact Hwf|].
  destruct (filter_star_frame example_star ["000002@a.mrcs"] Hwf)
    as [out [kn [E1 [E2 [_ [Hframe _]]]]]].
  exists out, kn. split; [exact E1|]. split; [exact E2|].
  apply Hframe; [left; reflexivity|reflexivity].
Defined.

End StarProofs.

(** ** The two commands *)

Module MainProofs.
Import Binning Star Main Deprecated.
Local Open Scope list_scope.

(** An LST file [in.lst] of one image, next to the [lst1] file. *)
Definition example_fs (name : string) : option (list string) :=
  if String.eqb name "in.lst" then Some ["0 a.mrcs"] else None.

Definition optics_block : block := [("rlnOpticsGroup", ["1"])].

(** A STAR file whose only particle is not the one the LST file keeps. *)
Definition unmatched_star : doc :=
  [("optics", optics_block);
   ("particles", [("rlnImageName", ["000002@a.mrcs"]); ("rlnOpticsGroup", ["1"])])].

(** Claim C8 (the code's behaviour): when the images kept from the LST
    file match no particle of the STAR file, [main] of [lst2star.py] has
    already written the output STAR file, with the non-particle blocks
    only, when it exits with status 1. *)
Theorem main_writes_output_before_empty_abort :
  (forall lst1 fs star column greaterthan lessthan use_abs tmp text,
     (column <> None \/ (greaterthan = None /\ lessthan = None)) ->
     merge_lst lst1 fs = Ok tmp ->
     Lst.read_lst column greaterthan lessthan use_abs (map (fun m => m ++ nl)%string tmp) <> [] ->
     filter_star star (Lst.read_lst column greaterthan lessthan use_abs
                         (map (fun m => m ++ nl)%string tmp)) = Ok (text, 0) ->
     main lst1 fs star column greaterthan lessthan use_abs =
       Exit 1 "No particles kept, check your star file." (Some text)) /\
  main ["0 in.lst"] example_fs unmatched_star None None None false =
    Exit 1 "No particles kept, check your star file."
      (Some (star_text [("optics", optics_block)])).
Proof.
  split; [|vm_compute; reflexivity].
  intros lst1 fs star column gt lt ab tmp text Hcol Hm Hk Hf.
  unfold main. rewrite Hm.
  destruct (Lst.read_lst column gt lt ab (map (fun m => m ++ nl)%string tmp)) as [|t ts] eqn:K;
    [congruence|].
  rewrite Hf.
  destruct column; [reflexivity|].
  destruct Hcol as [Hcol|[-> ->]]; [congruence|reflexivity].
Qed.

Lemma main_writes_output_before_empty_abort_witness :
  main ["0 in.lst"] example_fs unmatched_star None None None false =
    Exit 1 "No particles kept, check your star file."
      (Some (star_text [("optics", optics_block)])).
Proof.
  apply (proj1 main_writes_output_before_empty_abort
           ["0 in.lst"] example_fs unmatched_star None None None false
           ["0 a.mrcs" ++ String (ascii_of_nat 9) EmptyString]%string
           (star_text [("optics", optics_block)])).
  - right. split; reflexivity.
  - vm_compute. reflexivity.
  - vm_compute. discriminate.
  - vm_compute. reflexivity.
Defined.

Lemma set_add_In {A} (eqb : A -> A -> bool) (eqb_eq : forall x y, eqb x y = true <-> x = y)
    (s : list A) (x y : A) :
  In y (set_add eqb s x) <-> In y s \/ y = x.
Proof.
  unfold set_add. destruct (existsb (eqb x) s) eqn:E.
  - apply existsb_exists in E as [z [Hz Ez]]. apply eqb_eq in Ez. subst z.
    split; [auto|]. intros [H | ->]; auto.
  - rewrite in_app_iff. simpl. intuition.
Qed.

Lemma keep_images_fold_In (mapping : Dict.dict nat string) (keep_idxs : list Z)
    (s : list string) (t : string) :
  In t (fold_left (fun s '(idx, tag) =>
          if existsb (Z.eqb (Z.of_nat idx)) keep_idxs then set_add String.eqb s tag else s)
        mapping s) <->
  In t s \/ exists idx, In (idx, t) mapping /\ In (Z.of_nat idx) keep_idxs.
Proof.
  revert s. induction mapping as [|[idx tag] r IH]; intros s; simpl.
  - split; [auto|]. intros [H|[idx [[] _]]]. exact H.
  - rewrite IH. destruct (existsb (Z.eqb (Z.of_nat idx)) keep_idxs) eqn:E.
    + rewrite (set_add_In String.eqb String.eqb_eq).
      apply existsb_exists in E as [z [Hz Ez]]. apply Z.eqb_eq in Ez. subst z.
      split.
      * intros [[H| ->]|[i [Hi Hk]]]; auto.
        -- right. exists idx. split; [left; reflexivity|exact Hz].
        -- right. exists i. split; [right; exact Hi|exact Hk].
      * intros [H|[i [[Eq|Hi] Hk]]]; auto.
        -- injection Eq as -> ->. left. right. reflexivity.
        -- right. exists i. auto.
    + split.
      * intros [H|[i [Hi Hk]]]; auto. right. exists i. auto.
      * intros [H|[i [[Eq|Hi] Hk]]]; auto.
        -- injection Eq as Ei Et. subst i t. exfalso.
           assert (existsb (Z.eqb (Z.of_nat idx)) keep_idxs = true)
             by (apply existsb_exists; exists (Z.of_nat idx); split; [exact Hk|apply Z.eqb_refl]).
           congruence.
        -- right. exists i. auto.
Qed.

Definition two_particles : doc :=
  [("particles", [("rlnImageName", ["000001@a.mrcs"; "000002@a.mrcs"])])].

Definition first_particle : doc :=
  [("particles", [("rlnImageName", ["000001@a.mrcs"])])].

(** Claim C9, counterexample: the LST file of scores keeps rows 0 and 1
    while the LST file of images has one row; the deprecated script
    keeps the one image and exits with status 0, and so does
    [lst2star.py] when [lst1] names a row 1 its [in.lst] lacks. *)
Lemma cross_reference_tail_dropped :
  dep_main ["0 x score=1"; "1 x score=1"] ["0 a.mrcs"] two_particles
      "score" (Fin 0) false Gt =
    Exit 0 "Filtered STAR written." (Some (star_text first_particle)) /\
  main ["0 in.lst"; "1 in.lst"] example_fs two_particles None None None false =
    Exit 0 "Wrote particles." (Some (star_text first_particle)).
Proof. split; vm_compute; reflexivity. Qed.

(** Claim C9, amended: no error is raised when the two LST files keep
    different numbers of rows.  The deprecated script keeps the tag of
    every row of the second file whose row number is an index the first
    file keeps, ignores kept indices with no such row, and aborts only
    when no tag is left; [merge_lst] skips a line of [lst1] whose index
    is outside its LST file and carries on. *)
Theorem cross_reference_join :
  (forall mapping keep_idxs t,
     In t (keep_images mapping keep_idxs) <->
     exists idx, In (idx, t) mapping /\ In (Z.of_nat idx) keep_idxs) /\
  (forall lst1 lst2 star param threshold use_abs md keep_idxs mapping,
     read_lst1 param threshold md use_abs lst1 = Ok keep_idxs -> keep_idxs <> [] ->
     read_lst2 lst2 = Ok mapping ->
     dep_main lst1 lst2 star param threshold use_abs md =
       match keep_images mapping keep_idxs with
       | [] => Exit 1 "Filtered indices not found in mapping file." None
       | keep =>
         match dep_output_blocks star keep with
         | Raise m => Exit 1 m None
         | Ok out => Exit 0 "Filtered STAR written." (Some (star_text out))
         end
       end) /\
  (forall fs out line1 idx_str file rest idx f2,
     Py.split line1 = idx_str :: file :: rest -> Lst.py_int_str idx_str = Some idx ->
     fs file = Some f2 -> (idx < 0 \/ Z.of_nat (length (lst_lines f2)) <= idx)%Z ->
     merge_step fs out line1 = out).
Proof.
  split; [|split].
  - intros mapping keep t. unfold keep_images. rewrite keep_images_fold_In.
    split; [intros [[]|H]; exact H|intros H; right; exact H].
  - intros lst1 lst2 star param th ab md keep mapping H1 Hne H2.
    unfold dep_main. rewrite H1, H2.
    destruct keep as [|k ks]; [congruence|]. reflexivity.
  - intros fs out line1 idx_str file rest idx f2 Hs Hi Hf Hr.
    unfold merge_step. rewrite Hs, Hi, Hf.
    destruct Hr as [Hr|Hr].
    + apply Z.ltb_lt in Hr. rewrite Hr. reflexivity.
    + apply Z.leb_le in Hr. rewrite Hr, orb_true_r. reflexivity.
Qed.

Lemma cross_reference_join_witness :
  dep_main ["0 x score=1"; "1 x score=1"] ["0 a.mrcs"] two_particles
      "score" (Fin 0) false Gt =
    Exit 0 "Filtered STAR written." (Some (star_text first_particle)) /\
  merge_step example_fs [] "1 in.lst" = [].
Proof.
  split.
  - rewrite (proj1 (proj2 cross_reference_join) ["0 x score=1"; "1 x score=1"] ["0 a.mrcs"]
               two_particles "score" (Fin 0) false Gt [0%Z; 1%Z]
               [(0%nat, "000001@a.mrcs")]).
    + vm_compute. reflexivity.
    + vm_compute. reflexivity.
    + discriminate.
    + vm_compute. reflexivity.
  - apply (proj2 (proj2 cross_reference_join) example_fs [] "1 in.lst" "1" "in.lst" []
             1%Z ["0 a.mrcs"]).
    + vm_compute. reflexivity.
    + vm_compute. reflexivity.
    + vm_compute. reflexivity.
    + right. vm_compute. discriminate.
Defined.

End MainProofs.

(** ** The STAR writer read back by the loop scanner *)

Module StarParseProofs.
Import Binning Star StarParse.
Local Open Scope list_scope.

Local Abbreviation L := list_ascii_of_string.

(** No whitespace in a string. *)
Definition ws_free (s : string) : bool :=
  forallb (fun c => negb (Py.is_space c)) (L s).


Lemma L_app (a b : string) : L (a ++ b)%string = L a ++ L b.
Proof. induction a; simpl; [reflexivity|]. rewrite IHa. reflexivity. Qed.


Lemma last_in {A} (l : list A) (d : A) : l <> [] -> In (last l d) l.
Proof.
  induction l as [|x r IH]; intros H; [contradiction|].
  destruct r as [|y r']; [left; reflexivity|].
  right. apply IH. discriminate.
Qed.

Lemma ws_free_last (w : string) (d : ascii) :
  ws_free w = true -> w <> ""%string -> Py.is_space (last (L w) d) = false.
Proof.
  intros Hw Hne. unfold ws_free in Hw. rewrite forallb_forall in Hw.
  apply negb_true_iff, Hw, last_in. destruct w; [contradiction|discriminate].
Qed.





(** No line feed in a string. *)
Definition nl_free (s : string) : bool :=
  forallb (fun c => negb (Ascii.eqb c (ascii_of_nat 10))) (L s).











(** ** The lines of a written STAR text *)

(** Lines each ended by a line feed. *)
Definition concat_nl (ls : list string) : string :=
  String.concat "" (map (fun l => (l ++ nl)%string) ls).




Lemma concat_empty_cons (x : string) (r : list string) :
  String.concat "" (x :: r) = (x ++ String.concat "" r)%string.
Proof. destruct r; simpl; [symmetry; apply PyFacts.append_nil_r|reflexivity]. Qed.

Lemma concat_empty_app (a b : list string) :
  String.concat "" (a ++ b) = (String.concat "" a ++ String.concat "" b)%string.
Proof.
  induction a as [|x r IH]; [reflexivity|].
  simpl app. rewrite !concat_empty_cons, IH. symmetry. apply PyFacts.append_assoc.
Qed.

Lemma concat_nl_cons (x : string) (r : list string) :
  concat_nl (x :: r) = (x ++ nl ++ concat_nl r)%string.
Proof.
  unfold concat_nl. simpl map. rewrite concat_empty_cons. apply PyFacts.append_assoc.
Qed.

Lemma concat_nl_app (a b : list string) :
  concat_nl (a ++ b) = (concat_nl a ++ concat_nl b)%string.
Proof. unfold concat_nl. rewrite map_app. apply concat_empty_app. Qed.




(** ** [readlines] of a written text *)

Lemma split_nl_line (a b : string) :
  nl_free a = true -> split_nl (a ++ nl ++ b)%string = a :: split_nl b.
Proof.
  induction a as [|c r IH]; intros H; [reflexivity|].
  unfold nl_free in H. simpl in H. apply andb_true_iff in H as [Hc Hr].
  apply negb_true_iff in Hc.
  change (String c r ++ nl ++ b)%string with (String c (r ++ nl ++ b)).
  cbn [split_nl]. rewrite Hc, IH by exact Hr. reflexivity.
Qed.

Lemma split_nl_concat (TL : list string) :
  forallb nl_free TL = true -> split_nl (concat_nl TL) = TL ++ [""].
Proof.
  induction TL as [|x r IH]; intros H; [reflexivity|].
  simpl in H. apply andb_true_iff in H as [Hx Hr].
  rewrite concat_nl_cons, split_nl_line, IH by assumption. reflexivity.
Qed.

Lemma readlines_concat (TL : list string) :
  forallb nl_free TL = true ->
  readlines (concat_nl TL) = map (fun l => (l ++ nl)%string) TL.
Proof.
  intros H. unfold readlines. rewrite split_nl_concat by exact H.
  rewrite removelast_last, last_last. reflexivity.
Qed.



(** ** Tidy lines *)











(** ** Documents the writer can write back faithfully *)









(** ** The loop scanner, step by step *)

Section Scanner.
Variable lines : list string.
Variable n : nat.

Lemma header_loop_some (k : nat) : forall fuel j x,
  k <= fuel ->
  (forall m, m < k -> j + m < n /\ Py.startswith (line_at lines (j + m)) "_" = true) ->
  (n <= j + k \/ Py.startswith (line_at lines (j + k)) "_" = false) ->
  header_loop lines n fuel j (Some x) = (j + k, Some x).
Proof.
  induction k as [|k IH]; intros fuel j x Hf Hin Hstop.
  - rewrite Nat.add_0_r in *. destruct fuel as [|f]; [reflexivity|]. simpl.
    destruct Hstop as [Hn|Hs].
    + replace (Nat.ltb j n) with false by (symmetry; apply Nat.ltb_ge; exact Hn).
      reflexivity.
    + rewrite Hs, andb_false_r. reflexivity.
  - destruct fuel as [|f]; [lia|]. simpl.
    destruct (Hin 0 ltac:(lia)) as [H1 H2]. rewrite Nat.add_0_r in H1, H2.
    apply Nat.ltb_lt in H1. rewrite H1, H2. simpl.
    replace (j + S k) with (S j + k) by lia. apply IH; [lia| |].
    + intros m Hm. replace (S j + m) with (j + S m) by lia. apply Hin. lia.
    + replace (S j + k) with (j + S k) by lia. exact Hstop.
Qed.

Lemma header_loop_none (k fuel j : nat) :
  0 < k -> k <= fuel ->
  (forall m, m < k -> j + m < n /\ Py.startswith (line_at lines (j + m)) "_" = true) ->
  (n <= j + k \/ Py.startswith (line_at lines (j + k)) "_" = false) ->
  header_loop lines n fuel j None = (j + k, Some j).
Proof.
  intros Hk Hf Hin Hstop. destruct k as [|k]; [lia|]. destruct fuel as [|f]; [lia|].
  simpl. destruct (Hin 0 ltac:(lia)) as [H1 H2]. rewrite Nat.add_0_r in H1, H2.
  apply Nat.ltb_lt in H1. rewrite H1, H2. simpl.
  replace (j + S k) with (S j + k) by lia. apply header_loop_some; [lia| |].
  - intros m Hm. replace (S j + m) with (j + S m) by lia. apply Hin. lia.
  - replace (S j + k) with (j + S k) by lia. exact Hstop.
Qed.

Lemma data_loop_run (k : nat) : forall fuel j,
  k <= fuel ->
  (forall m, m < k -> j + m < n /\ data_stop (line_at lines (j + m)) = false) ->
  (n <= j + k \/ data_stop (line_at lines (j + k)) = true) ->
  data_loop lines n fuel j = j + k.
Proof.
  induction k as [|k IH]; intros fuel j Hf Hin Hstop.
  - rewrite Nat.add_0_r in *. destruct fuel as [|f]; [reflexivity|]. simpl.
    destruct Hstop as [Hn|Hs].
    + replace (Nat.ltb j n) with false by (symmetry; apply Nat.ltb_ge; exact Hn).
      reflexivity.
    + rewrite Hs, andb_false_r. reflexivity.
  - destruct fuel as [|f]; [lia|]. simpl.
    destruct (Hin 0 ltac:(lia)) as [H1 H2]. rewrite Nat.add_0_r in H1, H2.
    apply Nat.ltb_lt in H1. rewrite H1, H2. simpl.
    replace (j + S k) with (S j + k) by lia. apply IH; [lia| |].
    + intros m Hm. replace (S j + m) with (j + S m) by lia. apply Hin. lia.
    + replace (S j + k) with (j + S k) by lia. exact Hstop.
Qed.


Lemma loops_step (f i j k : nat) (hs : option nat) (acc : list loop) :
  i < n -> Py.startswith (Py.lower (line_at lines i)) "loop_" = true ->
  header_loop lines n n (S i) None = (j, hs) -> data_loop lines n n j = k ->
  loops_loop lines n (S f) i acc = loops_loop lines n f k (acc ++ [mk_loop i hs j j k]).
Proof.
  intros Hi Hs Hh Hd. simpl. apply Nat.ltb_lt in Hi. rewrite Hi, Hs, Hh, Hd.
  reflexivity.
Qed.


End Scanner.

(** ** The loops found in a written text *)










(** ** The values read back from a written text *)









(** ** Parsed loops written back *)







Definition column (rows : list (list string)) (j : nat) : list string :=
  map (fun row => nth j row "") rows.








(** ** Round trip of the STAR codec *)




Definition example_doc : doc :=
  [("optics", [("rlnOpticsGroup", ["1"]); ("rlnImagePixelSize", ["1.06"])]);
   ("particles", [("rlnImageName", ["000001@a.mrcs"; "000002@a.mrcs"]);
                  ("rlnCoordinateX", ["10.5"; "20.5"])])].



End StarParseProofs.

(* ------------------------------------------------------------------ *)
(** ** The histogram inputs and bucket files *)

Module HistogramProofs.
Import Binning Star StarParse Histogram StarParseProofs.
Local Open Scope list_scope.

Local Abbreviation L := list_ascii_of_string.

(** *** Line feeds at the end of a line *)

Lemma split_nl_pieces (text : string) : forallb nl_free (split_nl text) = true.
Proof.
  induction text as [|c r IH]; [reflexivity|].
  cbn [split_nl]. destruct (Ascii.eqb c (ascii_of_nat 10)) eqn:Ec.
  - exact IH.
  - destruct (split_nl r) as [|l ls]; unfold nl_free; simpl; rewrite Ec; [reflexivity|].
    simpl in IH. exact IH.
Qed.

Lemma in_removelast {A} (x : A) (l : list A) : In x (removelast l) -> In x l.
Proof.
  induction l as [|y r IH]; [intros []|].
  destruct r as [|z r']; [intros []|].
  intros [->|H]; [left; reflexivity|right; apply IH, H].
Qed.

(** Every line of [readlines] is a line without line feed, followed by
    one line feed or, for the last line, by nothing. *)
Lemma readlines_shape (text raw : string) :
  In raw (readlines text) ->
  exists l, nl_free l = true /\ (raw = (l ++ nl)%string \/ raw = l).
Proof.
  pose proof (split_nl_pieces text) as HP. rewrite forallb_forall in HP.
  unfold readlines. intros Hin.
  assert (Hfull : In raw (map (fun l => (l ++ nl)%string) (removelast (split_nl text))) ->
                  exists l, nl_free l = true /\ (raw = (l ++ nl)%string \/ raw = l)).
  { intros H. apply in_map_iff in H as [l [<- Hl]].
    exists l. split; [apply HP, in_removelast, Hl|left; reflexivity]. }
  destruct (last (split_nl text) "") eqn:E.
  - apply Hfull, Hin.
  - apply in_app_or in Hin as [H|[<-|[]]]; [apply Hfull, H|].
    exists (String a s). split; [|right; reflexivity].
    apply HP. rewrite <- E. apply last_in.
    destruct text as [|c r]; cbn [split_nl]; [discriminate|].
    destruct (Ascii.eqb c (ascii_of_nat 10)); [discriminate|].
    destruct (split_nl r); discriminate.
Qed.

Lemma rstrip_nl_nl (s : string) : rstrip_nl (s ++ nl) = rstrip_nl s.
Proof.
  unfold rstrip_nl. rewrite L_app. cbn [L nl]. rewrite rev_app_distr. simpl.
  reflexivity.
Qed.

Lemma rstrip_nl_free (s : string) : nl_free s = true -> rstrip_nl s = s.
Proof.
  intros H. unfold rstrip_nl. unfold nl_free in H.
  destruct (L s) as [|c0 r0] eqn:E0.
  - simpl. rewrite <- (string_of_list_ascii_of_string s), E0. reflexivity.
  - assert (Hne : L s <> []) by (rewrite E0; discriminate).
    destruct (exists_last Hne) as [init [x Ex]]. rewrite <- E0, Ex in *.
    rewrite forallb_app in H. simpl in H.
    rewrite andb_true_r in H. apply andb_true_iff in H as [_ Hx].
    apply negb_true_iff in Hx. rewrite rev_app_distr. simpl. rewrite Hx.
    rewrite <- rev_unit, rev_involutive, <- Ex. apply string_of_list_ascii_of_string.
Qed.

(** *** A trailing whitespace character changes no reading of a line *)

Lemma lstrip_snoc (s : string) (c : ascii) :
  Py.is_space c = true ->
  Py.lstrip (s ++ String c "") =
  if String.eqb (Py.lstrip s) "" then ""%string else (Py.lstrip s ++ String c "")%string.
Proof.
  intros Hc. induction s as [|a r IH]; cbn [Py.lstrip append].
  - rewrite Hc. reflexivity.
  - destruct (Py.is_space a); [exact IH|reflexivity].
Qed.

Lemma rstrip_snoc (t : string) (c : ascii) :
  Py.is_space c = true -> Py.rstrip (t ++ String c "") = Py.rstrip t.
Proof.
  intros Hc. unfold Py.rstrip. rewrite L_app. cbn [L]. rewrite rev_app_distr.
  cbn [rev app string_of_list_ascii Py.lstrip]. rewrite Hc. reflexivity.
Qed.

Lemma strip_snoc (s : string) (c : ascii) :
  Py.is_space c = true -> Py.strip (s ++ String c "") = Py.strip s.
Proof.
  intros Hc. unfold Py.strip. rewrite lstrip_snoc by exact Hc.
  destruct (String.eqb_spec (Py.lstrip s) "") as [->|_]; [reflexivity|].
  apply rstrip_snoc, Hc.
Qed.

Lemma after_prefix_snoc_some (q t r : string) (c : ascii) :
  after_prefix q t = Some r -> after_prefix q (t ++ String c "") = Some (r ++ String c "")%string.
Proof.
  revert t. induction q as [|a q' IH]; intros t H.
  - injection H as <-. reflexivity.
  - destruct t as [|b t']; [discriminate|]. cbn [after_prefix append] in *.
    destruct (Ascii.eqb a b); [apply IH, H|discriminate].
Qed.

Lemma after_prefix_snoc_none (q t : string) (c : ascii) :
  after_prefix q t = None ->
  after_prefix q (t ++ String c "") = None \/ after_prefix q (t ++ String c "") = Some ""%string.
Proof.
  revert t. induction q as [|a q' IH]; intros t H; [discriminate|].
  destruct t as [|b t'].
  - cbn [append after_prefix]. destruct (Ascii.eqb a c); [|left; reflexivity].
    destruct q'; [right|left]; reflexivity.
  - cbn [after_prefix append] in *. destruct (Ascii.eqb a b); [apply IH, H|left; reflexivity].
Qed.

Lemma nonspace_run_snoc (r : string) (c : ascii) :
  Py.is_space c = true -> nonspace_run (r ++ String c "") = nonspace_run r.
Proof.
  intros Hc. induction r as [|a r' IH]; cbn [nonspace_run append].
  - rewrite Hc. reflexivity.
  - destruct (Py.is_space a); [reflexivity|]. rewrite IH. reflexivity.
Qed.

Lemma value_at_snoc (p t : string) (c : ascii) :
  Py.is_space c = true -> value_at p (t ++ String c "") = value_at p t.
Proof.
  intros Hc. unfold value_at.
  destruct (after_prefix (p ++ "=") t) as [r|] eqn:E.
  - rewrite (after_prefix_snoc_some _ _ _ _ E), nonspace_run_snoc by exact Hc. reflexivity.
  - destruct (after_prefix_snoc_none _ _ c E) as [->| ->]; reflexivity.
Qed.

Lemma value_at_empty (p : string) : value_at p "" = None.
Proof. destruct p; reflexivity. Qed.

Lemma search_value_snoc (p s : string) (c : ascii) :
  Py.is_space c = true -> search_value p (s ++ String c "") = search_value p s.
Proof.
  intros Hc. induction s as [|a r IH].
  - transitivity (match value_at p ("" ++ String c "") with
                  | Some v => Some v | None => search_value p "" end); [reflexivity|].
    rewrite value_at_snoc, value_at_empty by exact Hc. reflexivity.
  - transitivity (match value_at p (String a r ++ String c "") with
                  | Some v => Some v | None => search_value p (r ++ String c "") end);
      [reflexivity|].
    rewrite value_at_snoc, IH by exact Hc. reflexivity.
Qed.

Lemma nl_space : Py.is_space (ascii_of_nat 10) = true.
Proof. reflexivity. Qed.

(** [parse_lst_lines] reads a line the same with or without its line
    feed. *)
Lemma lst_line_nl (column_name s : string) :
  lst_line column_name (s ++ nl) = lst_line column_name s.
Proof.
  unfold lst_line. unfold nl.
  rewrite strip_snoc, search_value_snoc by exact nl_space.
  change (String (ascii_of_nat 10) "") with nl. rewrite rstrip_nl_nl. reflexivity.
Qed.

(** *** [parse_lst_lines] line by line *)

Definition heads_of (it : lst_item) : list string :=
  match it with Header h => [h] | _ => [] end.

Definition items_of (it : lst_item) : list entry :=
  match it with Item e => [e] | _ => [] end.

Lemma lst_fold (column_name : string) (lines : list string) :
  forall hs es,
  fold_left (lst_step column_name) lines (hs, es) =
  (hs ++ flat_map (fun raw => heads_of (lst_line column_name raw)) lines,
   es ++ flat_map (fun raw => items_of (lst_line column_name raw)) lines).
Proof.
  induction lines as [|raw r IH]; intros hs es; cbn [fold_left flat_map].
  - rewrite !app_nil_r. reflexivity.
  - unfold lst_step at 2. destruct (lst_line column_name raw) as [h|e|]; cbn [heads_of items_of];
      rewrite IH, <- ?app_assoc; reflexivity.
Qed.

Lemma parse_lst_spec (lines : list string) (column_name : string) :
  parse_lst_lines lines column_name =
  (flat_map (fun raw => heads_of (lst_line column_name raw)) lines,
   flat_map (fun raw => items_of (lst_line column_name raw)) lines).
Proof. unfold parse_lst_lines. rewrite lst_fold. reflexivity. Qed.

Lemma flat_map_ext_in {A B} (f g : A -> list B) (l : list A) :
  (forall x, In x l -> f x = g x) -> flat_map f l = flat_map g l.
Proof.
  induction l as [|x r IH]; intros H; [reflexivity|]. cbn [flat_map].
  rewrite (H x (or_introl eq_refl)), IH by (intros y Hy; apply H; right; exact Hy).
  reflexivity.
Qed.

(** A line of [readlines] is read as the same line without its line
    feed. *)
Lemma readlines_lst_line (text raw column_name : string) :
  In raw (readlines text) ->
  exists l, nl_free l = true /\ lst_line column_name raw = lst_line column_name l.
Proof.
  intros Hin. destruct (readlines_shape text raw Hin) as [l [Hl [-> | ->]]];
    exists l; split; try exact Hl; [apply lst_line_nl|reflexivity].
Qed.

Lemma lst_line_header (column_name l h : string) :
  nl_free l = true -> lst_line column_name l = Header h -> h = l.
Proof.
  intros Hl. unfold lst_line.
  destruct (String.eqb (Py.strip l) ""); [discriminate|].
  destruct (Py.startswith (Py.strip l) "#").
  - intros E. injection E as <-. apply rstrip_nl_free, Hl.
  - destruct (search_value column_name l); [|discriminate].
    destruct (Lst.py_float s); discriminate.
Qed.

Lemma lst_line_item (column_name l : string) (e : entry) :
  nl_free l = true -> lst_line column_name l = Item e -> fst e = l.
Proof.
  intros Hl. unfold lst_line.
  destruct (String.eqb (Py.strip l) ""); [discriminate|].
  destruct (Py.startswith (Py.strip l) "#"); [discriminate|].
  destruct (search_value column_name l); [|discriminate].
  destruct (Lst.py_float s); [|discriminate].
  intros E. injection E as <-. apply rstrip_nl_free, Hl.
Qed.

Lemma in_heads (column_name : string) (lines : list string) (h : string) :
  In h (flat_map (fun raw => heads_of (lst_line column_name raw)) lines) ->
  exists raw, In raw lines /\ lst_line column_name raw = Header h.
Proof.
  intros Hin. apply in_flat_map in Hin as [raw [Hr Hh]]. exists raw. split; [exact Hr|].
  destruct (lst_line column_name raw); cbn in Hh; try contradiction.
  destruct Hh as [<-|[]]. reflexivity.
Qed.

Lemma in_items (column_name : string) (lines : list string) (e : entry) :
  In e (flat_map (fun raw => items_of (lst_line column_name raw)) lines) ->
  exists raw, In raw lines /\ lst_line column_name raw = Item e.
Proof.
  intros Hin. apply in_flat_map in Hin as [raw [Hr He]]. exists raw. split; [exact Hr|].
  destruct (lst_line column_name raw); cbn in He; try contradiction.
  destruct He as [<-|[]]. reflexivity.
Qed.

Lemma flat_map_map' {A B C} (f : B -> list C) (g : A -> B) (l : list A) :
  flat_map f (map g l) = flat_map (fun x => f (g x)) l.
Proof. induction l as [|x r IH]; [reflexivity|]. cbn. rewrite IH. reflexivity. Qed.

Lemma flat_map_single {A} (l : list A) : flat_map (fun x => [x]) l = l.
Proof. induction l as [|x r IH]; [reflexivity|]. cbn. rewrite IH. reflexivity. Qed.

Lemma flat_map_none {A B} (l : list A) : flat_map (fun _ => @nil B) l = [].
Proof. induction l as [|x r IH]; [reflexivity|]. exact IH. Qed.

(** Extra X1: an LST bucket file written by [write_lst_bucket_file] from
    the header lines of an LST text and any entries read from it reads
    back, with the same column, as these header lines and entries. *)
Theorem lst_bucket_round_trip (text column_name : string) (header_lines : list string)
    (entries bucket : list entry) :
  parse_lst_lines (readlines text) column_name = (header_lines, entries) ->
  incl bucket entries ->
  parse_lst_lines (readlines (write_lst_bucket_file header_lines bucket)) column_name =
  (header_lines, bucket).
Proof.
  intros Hp Hb. rewrite parse_lst_spec in Hp. injection Hp as HH HE.
  assert (Hh : forall h, In h header_lines ->
                         nl_free h = true /\ lst_line column_name h = Header h).
  { intros h Hin. rewrite <- HH in Hin. destruct (in_heads _ _ _ Hin) as [raw [Hr Hl]].
    destruct (readlines_lst_line text raw column_name Hr) as [l [Hnl Heq]].
    rewrite Heq in Hl. pose proof (lst_line_header _ _ _ Hnl Hl) as E. subst l.
    split; assumption. }
  assert (He : forall e, In e bucket ->
                         nl_free (fst e) = true /\ lst_line column_name (fst e) = Item e).
  { intros e Hin. apply Hb in Hin. rewrite <- HE in Hin.
    destruct (in_items _ _ _ Hin) as [raw [Hr Hl]].
    destruct (readlines_lst_line text raw column_name Hr) as [l [Hnl Heq]].
    rewrite Heq in Hl. pose proof (lst_line_item _ _ _ Hnl Hl) as E. subst l.
    split; assumption. }
  assert (Hw : write_lst_bucket_file header_lines bucket =
               concat_nl (header_lines ++ map fst bucket)).
  { unfold write_lst_bucket_file. rewrite concat_nl_app. unfold concat_nl. rewrite map_map.
    f_equal; f_equal; apply map_ext_in; intros x Hx.
    - rewrite rstrip_nl_free by apply (Hh x Hx). reflexivity.
    - rewrite rstrip_nl_free by apply (He x Hx). reflexivity. }
  rewrite Hw, readlines_concat.
  2:{ apply forallb_forall. intros x Hx. apply in_app_or in Hx as [Hx|Hx].
      - apply (Hh x Hx).
      - apply in_map_iff in Hx as [e [<- Hx]]. apply (He e Hx). }
  rewrite parse_lst_spec, map_app, !flat_map_app, !flat_map_map'.
  f_equal.
  - rewrite (flat_map_ext_in _ (fun x => [x]) header_lines), flat_map_single.
    2:{ intros h Hin. rewrite lst_line_nl, (proj2 (Hh h Hin)). reflexivity. }
    rewrite (flat_map_ext_in _ (fun _ => []) bucket), flat_map_none, app_nil_r; [reflexivity|].
    intros e Hin. rewrite lst_line_nl, (proj2 (He e Hin)). reflexivity.
  - rewrite (flat_map_ext_in _ (fun _ => []) header_lines), flat_map_none.
    2:{ intros h Hin. rewrite lst_line_nl, (proj2 (Hh h Hin)). reflexivity. }
    rewrite (flat_map_ext_in _ (fun x => [x]) bucket), flat_map_single; [reflexivity|].
    intros e Hin. rewrite lst_line_nl, (proj2 (He e Hin)). reflexivity.
Qed.

Definition lst_example : string :=
  ("# LST file" ++ nl ++ "0 a.mrc score=0.5 df=1" ++ nl ++ "1 a.mrc df=2" ++ nl ++
   "2 b.mrc score=-1e1" ++ nl ++ "3 b.mrc score=2")%string.

Definition lst_example_parse : list string * list entry :=
  Eval vm_compute in parse_lst_lines (readlines lst_example) "score".

Lemma lst_bucket_round_trip_witness :
  parse_lst_lines (readlines lst_example) "score" =
    (fst lst_example_parse, snd lst_example_parse) /\
  incl (skipn 1 (snd lst_example_parse)) (snd lst_example_parse) /\
  parse_lst_lines
    (readlines (write_lst_bucket_file (fst lst_example_parse) (skipn 1 (snd lst_example_parse))))
    "score" = (fst lst_example_parse, skipn 1 (snd lst_example_parse)).
Proof.
  assert (Hp : parse_lst_lines (readlines lst_example) "score" =
               (fst lst_example_parse, snd lst_example_parse)) by (vm_compute; reflexivity).
  assert (Hi : incl (skipn 1 (snd lst_example_parse)) (snd lst_example_parse))
    by (cbn [lst_example_parse snd skipn]; apply incl_tl, incl_refl).
  split; [exact Hp|]. split; [exact Hi|].
  exact (lst_bucket_round_trip lst_example "score" _ _ _ Hp Hi).
Defined.

(** *** Runs of the loop scanner *)

Section Trace.
Variable lines : list string.
Variable n : nat.

Definition loop_line (i : nat) : bool :=
  Py.startswith (Py.lower (line_at lines i)) "loop_".

(** The scanner of [find_loops_in_star] goes from line [i] with the
    loops [acc] to line [p] with the loops [pre]. *)
Inductive reach : nat -> list loop -> nat -> list loop -> Prop :=
  | reach_refl i acc : reach i acc i acc
  | reach_skip i acc p pre :
      i < n -> loop_line i = false -> reach (S i) acc p pre -> reach i acc p pre
  | reach_loop i acc j hs k p pre :
      i < n -> loop_line i = true ->
      header_loop lines n n (S i) None = (j, hs) -> data_loop lines n n j = k ->
      reach k (acc ++ [mk_loop i hs j j k]) p pre -> reach i acc p pre.

Lemma header_loop_ge (fuel j : nat) (hs : option nat) :
  j <= fst (header_loop lines n fuel j hs).
Proof.
  revert j hs. induction fuel as [|f IH]; intros j hs; [reflexivity|]. cbn [header_loop].
  destruct (Nat.ltb j n && Py.startswith (line_at lines j) "_"); [|reflexivity].
  specialize (IH (S j) (match hs with None => Some j | Some _ => hs end)). simpl in *. lia.
Qed.

Lemma data_loop_ge (fuel k : nat) : k <= data_loop lines n fuel k.
Proof.
  revert k. induction fuel as [|f IH]; intros k; [reflexivity|]. cbn [data_loop].
  destruct (Nat.ltb k n && negb (data_stop (line_at lines k))); [|reflexivity].
  specialize (IH (S k)). lia.
Qed.

Lemma reach_le (i : nat) (acc : list loop) (p : nat) (pre : list loop) :
  reach i acc p pre -> i <= p.
Proof.
  induction 1 as [|i acc p pre _ _ _ IH|i acc j hs k p pre _ _ Hh Hd _ IH]; [lia|lia|].
  pose proof (header_loop_ge n (S i) None) as Hj. rewrite Hh in Hj. simpl in Hj.
  pose proof (data_loop_ge n j) as Hk. rewrite Hd in Hk. lia.
Qed.

Lemma loops_loop_app (f : nat) : forall i acc,
  loops_loop lines n f i acc = acc ++ loops_loop lines n f i [].
Proof.
  induction f as [|f IH]; intros i acc; cbn [loops_loop]; [rewrite app_nil_r; reflexivity|].
  destruct (Nat.ltb i n); [|rewrite app_nil_r; reflexivity].
  destruct (Py.startswith (Py.lower (line_at lines i)) "loop_").
  - destruct (header_loop lines n n (S i) None) as [j hs].
    rewrite IH, (IH _ ([] ++ _)), app_assoc. reflexivity.
  - apply IH.
Qed.

Lemma reach_run (i : nat) (acc : list loop) (p : nat) (pre : list loop) :
  reach i acc p pre -> forall f, n <= f + i ->
  exists f', n <= f' + p /\ loops_loop lines n f i acc = loops_loop lines n f' p pre.
Proof.
  induction 1 as [i acc|i acc p pre Hi Hl _ IH|i acc j hs k p pre Hi Hl Hh Hd _ IH];
    intros f Hf.
  - exists f. split; [exact Hf|reflexivity].
  - destruct f as [|f]; [lia|]. destruct (IH f ltac:(lia)) as [f' [Hf' E]].
    exists f'. split; [exact Hf'|]. cbn [loops_loop].
    apply Nat.ltb_lt in Hi. unfold loop_line in Hl. rewrite Hi, Hl. exact E.
  - destruct f as [|f]; [lia|].
    pose proof (header_loop_ge n (S i) None) as Hj. rewrite Hh in Hj. simpl in Hj.
    pose proof (data_loop_ge n j) as Hk. rewrite Hd in Hk.
    destruct (IH f ltac:(lia)) as [f' [Hf' E]].
    exists f'. split; [exact Hf'|]. cbn [loops_loop].
    apply Nat.ltb_lt in Hi. unfold loop_line in Hl. rewrite Hi, Hl, Hh, Hd. exact E.
Qed.

(** Where the scanner finds its [m]-th loop. *)
Lemma scan_at (f : nat) : forall i acc m lp,
  nth_error (loops_loop lines n f i acc) m = Some lp -> length acc <= m ->
  exists pre, reach i acc (loop_start lp) pre /\ length pre = m /\
    loop_start lp < n /\ loop_line (loop_start lp) = true /\
    header_loop lines n n (S (loop_start lp)) None = (header_end lp, header_start lp) /\
    data_start lp = header_end lp /\
    data_loop lines n n (header_end lp) = data_end lp.
Proof.
  induction f as [|f IH]; intros i acc m lp Hn Hm; cbn [loops_loop] in Hn.
  - apply nth_error_None in Hm. congruence.
  - destruct (Nat.ltb i n) eqn:Hi; [|apply nth_error_None in Hm; congruence].
    destruct (Py.startswith (Py.lower (line_at lines i)) "loop_") eqn:Hl.
    + destruct (header_loop lines n n (S i) None) as [j hs] eqn:Hh.
      rewrite loops_loop_app, <- app_assoc in Hn.
      destruct (Nat.eq_dec m (length acc)) as [->|Hne].
      * rewrite nth_error_app2, Nat.sub_diag in Hn by lia. cbn in Hn. injection Hn as <-.
        exists acc. cbn [loop_start header_end header_start data_start data_end].
        repeat split; try reflexivity; [constructor|apply Nat.ltb_lt, Hi|exact Hl|exact Hh].
      * rewrite app_assoc, <- loops_loop_app in Hn.
        destruct (IH _ _ m lp Hn) as [pre [Hr Rest]]; [rewrite length_app; simpl; lia|].
        exists pre. split; [|exact Rest].
        eapply reach_loop; [apply Nat.ltb_lt, Hi|exact Hl|exact Hh|reflexivity|exact Hr].
    + destruct (IH _ _ m lp Hn Hm) as [pre [Hr Rest]].
      exists pre. split; [|exact Rest].
      apply reach_skip; [apply Nat.ltb_lt, Hi|exact Hl|exact Hr].
Qed.

End Trace.

Section Loops.
Variable lines : list string.
Variable n : nat.

(** What the header and data loops of the scanner leave behind. *)
Lemma header_loop_spec (fuel : nat) : forall j hs j' hs',
  n <= fuel + j -> header_loop lines n fuel j hs = (j', hs') ->
  j <= j' /\
  (forall m, j <= m < j' -> m < n /\ Py.startswith (line_at lines m) "_" = true) /\
  (n <= j' \/ Py.startswith (line_at lines j') "_" = false) /\
  hs' = match hs with Some x => Some x | None => if Nat.ltb j j' then Some j else None end.
Proof.
  assert (Hstop : forall j hs, n <= j \/ Py.startswith (line_at lines j) "_" = false ->
    j <= j /\
    (forall m, j <= m < j -> m < n /\ Py.startswith (line_at lines m) "_" = true) /\
    (n <= j \/ Py.startswith (line_at lines j) "_" = false) /\
    hs = match hs with Some x => Some x | None => if Nat.ltb j j then Some j else None end).
  { intros j hs H. split; [lia|]. split; [intros m Hm; lia|]. split; [exact H|].
    destruct hs; [reflexivity|]. rewrite Nat.ltb_irrefl. reflexivity. }
  induction fuel as [|f IH]; intros j hs j' hs' Hf E; cbn [header_loop] in E.
  - injection E as <- <-. apply Hstop. left; lia.
  - destruct (Nat.ltb j n) eqn:Hj; destruct (Py.startswith (line_at lines j) "_") eqn:Hs;
      cbn [andb] in E.
    + apply IH in E as [H1 [H2 [H3 H4]]]; [|lia]. apply Nat.ltb_lt in Hj.
      split; [lia|]. split; [|split; [exact H3|]].
      * intros m Hm. destruct (Nat.eq_dec m j) as [->|]; [split; assumption|apply H2; lia].
      * rewrite H4. destruct hs; [reflexivity|].
        replace (Nat.ltb j j') with true by (symmetry; apply Nat.ltb_lt; lia). reflexivity.
    + injection E as <- <-. apply Hstop. right; exact Hs.
    + injection E as <- <-. apply Hstop. left. apply Nat.ltb_ge, Hj.
    + injection E as <- <-. apply Hstop. right; exact Hs.
Qed.

Lemma data_loop_spec (fuel : nat) : forall k k',
  n <= fuel + k -> data_loop lines n fuel k = k' ->
  k <= k' /\
  (forall m, k <= m < k' -> m < n /\ data_stop (line_at lines m) = false) /\
  (n <= k' \/ data_stop (line_at lines k') = true).
Proof.
  induction fuel as [|f IH]; intros k k' Hf E; cbn [data_loop] in E.
  - subst k'. split; [lia|]. split; [intros m Hm; lia|]. left; lia.
  - destruct (Nat.ltb k n) eqn:Hk; destruct (data_stop (line_at lines k)) eqn:Hs;
      cbn [andb negb] in E.
    + subst k'. split; [lia|]. split; [intros m Hm; lia|]. right; exact Hs.
    + apply IH in E as [H1 [H2 H3]]; [|lia]. apply Nat.ltb_lt in Hk.
      split; [lia|]. split; [|exact H3].
      intros m Hm. destruct (Nat.eq_dec m k) as [->|]; [split; assumption|apply H2; lia].
    + subst k'. apply Nat.ltb_ge in Hk. split; [lia|]. split; [intros m Hm; lia|]. left; exact Hk.
    + subst k'. apply Nat.ltb_ge in Hk. split; [lia|]. split; [intros m Hm; lia|]. left; exact Hk.
Qed.

End Loops.

(** The header loop over a line that does not start with [_]. *)
Lemma header_loop_zero (lines : list string) (n fuel j : nat) :
  Py.startswith (line_at lines j) "_" = false -> header_loop lines n fuel j None = (j, None).
Proof.
  intros H. destruct fuel; [reflexivity|]. cbn [header_loop]. rewrite H, andb_false_r.
  reflexivity.
Qed.

(** The header and data loops started at [j] on two texts that agree up
    to line [p] stop at the same line, if it is not beyond [p]. *)
Lemma header_loop_agree (lines1 lines2 : list string) (n1 n2 p j j' : nat) (hs : option nat) :
  p < n1 -> p < n2 -> (forall idx, idx <= p -> line_at lines1 idx = line_at lines2 idx) ->
  j <= n1 -> header_loop lines1 n1 n1 j None = (j', hs) -> j' <= p ->
  header_loop lines2 n2 n2 j None = (j', hs).
Proof.
  intros Hp1 Hp2 Ha Hj E Hj'.
  destruct (header_loop_spec lines1 n1 n1 j None j' hs ltac:(lia) E) as [H1 [H2 [H3 H4]]].
  destruct H3 as [H3|H3]; [lia|]. rewrite Ha in H3 by lia.
  destruct (Nat.eq_dec j j') as [<-|Hne].
  - rewrite Nat.ltb_irrefl in H4. subst hs. apply header_loop_zero, H3.
  - replace (Nat.ltb j j') with true in H4 by (symmetry; apply Nat.ltb_lt; lia). subst hs.
    replace j' with (j + (j' - j)) in H3 |- * by lia.
    apply header_loop_none; [lia|lia| |right; exact H3].
    intros m Hm. rewrite <- Ha by lia. split; [lia|]. apply H2. lia.
Qed.

Lemma data_loop_agree (lines1 lines2 : list string) (n1 n2 p j k : nat) :
  p < n1 -> p < n2 -> (forall idx, idx <= p -> line_at lines1 idx = line_at lines2 idx) ->
  j <= n1 -> data_loop lines1 n1 n1 j = k -> k <= p ->
  data_loop lines2 n2 n2 j = k.
Proof.
  intros Hp1 Hp2 Ha Hj E Hk.
  destruct (data_loop_spec lines1 n1 n1 j k ltac:(lia) E) as [H1 [H2 H3]].
  destruct H3 as [H3|H3]; [lia|]. rewrite Ha in H3 by lia.
  replace k with (j + (k - j)) in H3 |- * by lia.
  apply data_loop_run; [lia| |right; exact H3].
  intros m Hm. rewrite <- Ha by lia. split; [lia|]. apply H2. lia.
Qed.

(** The scanner runs the same way on two texts up to the line where
    they start to differ. *)
Lemma reach_agree (lines1 lines2 : list string) (n1 n2 p : nat) :
  p < n1 -> p < n2 -> (forall idx, idx <= p -> line_at lines1 idx = line_at lines2 idx) ->
  forall i acc pre, reach lines1 n1 i acc p pre -> reach lines2 n2 i acc p pre.
Proof.
  intros Hp1 Hp2 Ha i acc pre R.
  induction R as [i acc|i acc p' pre Hi Hl R IH|i acc j hs k p' pre Hi Hl Hh Hd R IH].
  - constructor.
  - pose proof (reach_le _ _ _ _ _ _ R).
    apply reach_skip; [lia| |exact (IH Hp1 Hp2 Ha)].
    unfold loop_line in *. rewrite <- Ha by lia. exact Hl.
  - pose proof (reach_le _ _ _ _ _ _ R) as Hkp.
    pose proof (header_loop_ge lines1 n1 n1 (S i) None) as Hj. rewrite Hh in Hj. simpl in Hj.
    pose proof (data_loop_ge lines1 n1 n1 j) as Hk. rewrite Hd in Hk.
    eapply reach_loop; [lia| | | |exact (IH Hp1 Hp2 Ha)].
    + unfold loop_line in *. rewrite <- Ha by lia. exact Hl.
    + eapply header_loop_agree; [exact Hp1|exact Hp2|exact Ha|lia|exact Hh|lia].
    + eapply data_loop_agree; [exact Hp1|exact Hp2|exact Ha|lia|exact Hd|lia].
Qed.

(** The loops found before line [p] lie above it. *)
Lemma reach_bounds (lines : list string) (n i : nat) (acc : list loop) (p : nat) (pre : list loop) :
  reach lines n i acc p pre -> forall x, In x pre ->
  In x acc \/ (header_end x <= data_end x /\ data_end x <= p).
Proof.
  induction 1 as [i acc|i acc p pre Hi Hl R IH|i acc j hs k p pre Hi Hl Hh Hd R IH];
    intros x Hx; [left; exact Hx|apply IH, Hx|].
  destruct (IH x Hx) as [Hin|Hb]; [|right; exact Hb].
  apply in_app_or in Hin as [Hin|[<-|[]]]; [left; exact Hin|right].
  cbn [header_end data_end]. pose proof (reach_le _ _ _ _ _ _ R).
  pose proof (data_loop_ge lines n n j) as Hk. rewrite Hd in Hk. lia.
Qed.

Lemma slice_opt_firstn (lines : list string) (a : option nat) (b q : nat) :
  b <= q -> slice_opt lines a b = slice_opt (firstn q lines) a b.
Proof.
  intros Hb. unfold slice_opt. rewrite skipn_firstn_comm, firstn_firstn.
  f_equal. lia.
Qed.

Lemma parse_loop_firstn (lines : list string) (x : loop) (q : nat) :
  header_end x <= q -> data_end x <= q ->
  parse_star_loop_values lines x = parse_star_loop_values (firstn q lines) x.
Proof.
  intros Hh Hd. unfold parse_star_loop_values.
  rewrite <- (slice_opt_firstn lines (header_start x) (header_end x) q Hh).
  rewrite <- (slice_opt_firstn lines (Some (data_start x)) (data_end x) q Hd).
  reflexivity.
Qed.

Lemma find_column_split (lines : list string) (c : string) (ls : list loop) :
  forall i li es, find_column lines c i ls = Ok (Some (li, es)) ->
  exists pre lp post h d ci,
    ls = pre ++ lp :: post /\ li = i + length pre /\ find_column lines c i pre = Ok None /\
    parse_star_loop_values lines lp = Ok (h, d) /\ index_of c h = Some ci /\
    es = column_entries ci d.
Proof.
  induction ls as [|lp r IH]; intros i li es E; cbn [find_column] in E; [discriminate|].
  destruct (parse_star_loop_values lines lp) as [[h d]|m] eqn:Ep; [|discriminate].
  destruct (index_of c h) as [ci|] eqn:Ei.
  - injection E as <- <-. exists [], lp, r, h, d, ci.
    repeat split; try reflexivity; [cbn [length]; lia|assumption|assumption].
  - destruct (IH _ _ _ E) as [pre [lp' [post [h' [d' [ci' [E1 [E2 [E3 Rest]]]]]]]]].
    exists (lp :: pre), lp', post, h', d', ci'. split; [rewrite E1; reflexivity|].
    split; [cbn [length]; lia|]. split; [|exact Rest].
    cbn [find_column]. rewrite Ep, Ei. exact E3.
Qed.

Lemma find_column_app_none (lines : list string) (c : string) (pre : list loop) :
  forall i r, find_column lines c i pre = Ok None ->
  find_column lines c i (pre ++ r) = find_column lines c (i + length pre) r.
Proof.
  induction pre as [|lp pre IH]; intros i r E.
  - rewrite Nat.add_0_r. reflexivity.
  - cbn [find_column app] in *.
    destruct (parse_star_loop_values lines lp) as [[h d]|m]; [|discriminate].
    destruct (index_of c h); [discriminate|].
    rewrite IH by exact E. cbn [length]. f_equal. lia.
Qed.

Lemma find_column_ext (lines1 lines2 : list string) (c : string) (ls : list loop) :
  (forall x, In x ls -> parse_star_loop_values lines1 x = parse_star_loop_values lines2 x) ->
  forall i, find_column lines1 c i ls = find_column lines2 c i ls.
Proof.
  induction ls as [|lp r IH]; intros H i; [reflexivity|]. cbn [find_column].
  rewrite (H lp (or_introl eq_refl)).
  destruct (parse_star_loop_values lines2 lp) as [[h d]|m]; [|reflexivity].
  destruct (index_of c h); [reflexivity|].
  apply IH. intros x Hx. apply H. right. exact Hx.
Qed.

Definition entry_of (col_idx : nat) (dline : string) : list entry :=
  match star_entry col_idx dline with Some e => [e] | None => [] end.

Lemma column_entries_spec (col_idx : nat) (data : list string) :
  column_entries col_idx data = flat_map (entry_of col_idx) data.
Proof.
  unfold column_entries.
  assert (H : forall acc, fold_left (fun entries dline =>
                 match star_entry col_idx dline with
                 | Some e => entries ++ [e] | None => entries end) data acc =
               acc ++ flat_map (entry_of col_idx) data).
  { induction data as [|d r IH]; intros acc; cbn [fold_left flat_map];
      [rewrite app_nil_r; reflexivity|].
    change (entry_of col_idx d) with
      (match star_entry col_idx d with Some e => [e] | None => [] end).
    destruct (star_entry col_idx d); rewrite IH;
      [rewrite <- app_assoc; reflexivity|reflexivity]. }
  apply H.
Qed.

Lemma star_entry_line (col_idx : nat) (dline : string) (e : entry) :
  star_entry col_idx dline = Some e -> fst e = dline.
Proof.
  unfold star_entry. destruct (Nat.leb (length (Py.split dline)) col_idx); [discriminate|].
  destruct (Lst.py_float (nth col_idx (Py.split dline) "")); [|discriminate].
  intros E. injection E as <-. reflexivity.
Qed.

Lemma in_column_entries (col_idx : nat) (data : list string) (e : entry) :
  In e (column_entries col_idx data) -> In (fst e) data /\ star_entry col_idx (fst e) = Some e.
Proof.
  rewrite column_entries_spec. intros Hin. apply in_flat_map in Hin as [d [Hd He]].
  unfold entry_of in He. destruct (star_entry col_idx d) as [e'|] eqn:E; [|destruct He].
  destruct He as [<-|[]]. rewrite (star_entry_line _ _ _ E). split; assumption.
Qed.

Lemma column_entries_sub (col_idx : nat) (data : list string) (bucket : list entry) :
  incl bucket (column_entries col_idx data) ->
  column_entries col_idx (map fst bucket) = bucket.
Proof.
  intros Hb. rewrite column_entries_spec, flat_map_map'.
  rewrite (flat_map_ext_in _ (fun x => [x])), flat_map_single; [reflexivity|].
  intros e Hin. unfold entry_of. rewrite (proj2 (in_column_entries _ _ _ (Hb e Hin))).
  reflexivity.
Qed.

(** *** Helpers for the STAR bucket files *)

Definition norm_column (column_name : string) : string :=
  if Py.startswith column_name "_" then column_name else ("_" ++ column_name)%string.

Lemma parse_star_lines_ok (lines : list string) (column_name : string) loops li es :
  parse_star_lines lines column_name = Ok (loops, li, es) <->
  loops = find_loops_in_star lines /\ loops <> [] /\
  find_column lines (norm_column column_name) 0 loops = Ok (Some (li, es)).
Proof.
  unfold parse_star_lines, norm_column. split.
  - destruct (find_loops_in_star lines) as [|l0 r] eqn:E; [discriminate|].
    destruct (find_column lines _ 0 (l0 :: r)) as [[[li' es']|]|m] eqn:Ef;
      try discriminate.
    intros H. injection H as <- <- <-. split; [reflexivity|]. split; [discriminate|exact Ef].
  - intros [-> [Hne Hf]]. destruct (find_loops_in_star lines) as [|l0 r]; [contradiction|].
    rewrite Hf. reflexivity.
Qed.

Lemma skipn_nth {A} (l : list A) (a : nat) (d : A) :
  a < length l -> skipn a l = nth a l d :: skipn (S a) l.
Proof.
  revert a. induction l as [|x r IH]; intros a Ha; [cbn in Ha; lia|].
  destruct a as [|a]; [reflexivity|]. cbn [skipn nth]. apply IH. cbn in Ha. lia.
Qed.

Lemma map_result_line_of (lines : list string) (c : nat) : forall a,
  a + c <= length lines ->
  map_result (line_of lines) (seq a c) = Ok (firstn c (skipn a lines)).
Proof.
  induction c as [|c IH]; intros a Ha; [reflexivity|].
  cbn [seq map_result]. unfold line_of at 1.
  destruct (nth_error lines a) as [x|] eqn:E; [|apply nth_error_None in E; lia].
  rewrite IH by lia. rewrite (skipn_nth lines a "") by lia.
  rewrite (nth_error_nth _ _ "" E). reflexivity.
Qed.

Lemma in_slice (lines : list string) (a b : nat) (x : string) :
  In x (firstn (b - a) (skipn a lines)) ->
  exists idx, a <= idx < b /\ idx < length lines /\ nth idx lines "" = x.
Proof.
  intros Hin. destruct (In_nth _ _ "" Hin) as [k [Hk Hx]].
  rewrite length_firstn, length_skipn in Hk.
  rewrite nth_firstn in Hx. destruct (Nat.ltb_spec k (b - a)) as [_|]; [|lia].
  rewrite nth_skipn in Hx. exists (a + k). split; [lia|]. split; [lia|]. exact Hx.
Qed.

Lemma line_at_nl (TL : list string) (i : nat) :
  line_at (map (fun l => (l ++ nl)%string) TL) i = Py.strip (nth i TL "").
Proof.
  unfold line_at. revert i. induction TL as [|x r IH]; intros i.
  - destruct i; reflexivity.
  - destruct i as [|i]; cbn [map nth]; [apply strip_snoc, nl_space|apply IH].
Qed.

Lemma nth_agree (l1 l2 : list string) (q idx : nat) :
  firstn q l1 = firstn q l2 -> idx < q -> nth idx l1 "" = nth idx l2 "".
Proof.
  intros E Hi. pose proof (nth_firstn q l1 idx "") as H1. pose proof (nth_firstn q l2 idx "") as H2.
  apply Nat.ltb_lt in Hi. rewrite Hi in H1, H2. rewrite <- H1, <- H2, E. reflexivity.
Qed.

Lemma data_stop_underscore (s : string) :
  data_stop s = false -> Py.startswith s "_" = false.
Proof. unfold data_stop. destruct (Py.startswith s "_"); [discriminate|reflexivity]. Qed.

Lemma app_same_length {A} (a b c d : list A) :
  a ++ c = b ++ d -> length a = length b -> a = b.
Proof.
  revert b. induction a as [|x a' IH]; intros b E H; destruct b as [|y b']; try discriminate;
    [reflexivity|]. injection E as -> E. f_equal. apply IH; [exact E|]. cbn in H. lia.
Qed.

Lemma nth_map_nl (TL : list string) (idx : nat) :
  idx < length TL -> nth idx (map (fun l => (l ++ nl)%string) TL) "" = (nth idx TL "" ++ nl)%string.
Proof.
  revert idx. induction TL as [|x r IH]; intros idx H; [cbn in H; lia|].
  destruct idx as [|idx]; [reflexivity|]. cbn [map nth]. apply IH. cbn in H. lia.
Qed.

Lemma filter_all_true {A} (f : A -> bool) (l : list A) :
  (forall x, In x l -> f x = true) -> filter f l = l.
Proof.
  induction l as [|x r IH]; intros H; [reflexivity|]. cbn [filter].
  rewrite (H x (or_introl eq_refl)), IH by (intros y Hy; apply H; right; exact Hy).
  reflexivity.
Qed.

Lemma nl_free_nth (TL : list string) (idx : nat) :
  forallb nl_free TL = true -> nl_free (nth idx TL "") = true.
Proof.
  intros H. destruct (Nat.lt_ge_cases idx (length TL)) as [Hi|Hi].
  - rewrite forallb_forall in H. apply H, nth_In, Hi.
  - rewrite nth_overflow by exact Hi. reflexivity.
Qed.

Lemma strip_nl (s : string) : Py.strip (s ++ nl) = Py.strip s.
Proof. unfold nl. apply strip_snoc, nl_space. Qed.

(** Extra X2: a STAR bucket file written by [write_star_bucket_file]
    for a subset of the entries parsed from a STAR text (every line of
    which, the last one included, ends in a line feed, and whose target
    loop has a header) parses back, on the same column, to exactly that
    subset, found in the same loop, after the same earlier loops. *)
Theorem star_bucket_round_trip (TL : list string) (column_name : string) (loops : list loop)
    (li : nat) (entries bucket : list entry) :
  forallb nl_free TL = true ->
  parse_star_lines (readlines (concat_nl TL)) column_name = Ok (loops, li, entries) ->
  (forall lp, nth_error loops li = Some lp -> header_start lp <> None) ->
  incl bucket entries ->
  exists text loops',
    write_star_bucket_file (readlines (concat_nl TL)) loops li bucket = Ok text /\
    parse_star_lines (readlines text) column_name = Ok (loops', li, bucket) /\
    firstn li loops' = firstn li loops.
Proof.
  intros HTL Hp Hhs Hb.
  rewrite readlines_concat in * by exact HTL.
  set (lines1 := map (fun l => (l ++ nl)%string) TL) in *.
  set (n := length TL).
  assert (Hn1 : length lines1 = n) by (unfold lines1, n; apply length_map).
  apply parse_star_lines_ok in Hp as [EL [Hne Hf]].
  set (c := norm_column column_name) in *.
  destruct (find_column_split _ _ _ _ _ _ Hf)
    as [pre [lp [post [h [d [ci [Eloops [Eli [Hpre [Ep [Ei Ees]]]]]]]]]]].
  rewrite Nat.add_0_l in Eli. subst li.
  assert (Hnth : nth_error loops (length pre) = Some lp)
    by (rewrite Eloops, nth_error_app2, Nat.sub_diag by lia; reflexivity).
  pose proof Hnth as Hnth'. rewrite EL in Hnth'. unfold find_loops_in_star in Hnth'.
  rewrite Hn1 in Hnth'.
  destruct (scan_at lines1 n n 0 [] (length pre) lp Hnth' (Nat.le_0_l _))
    as [pre' [R [Hlen [Hpn [Hll [Hh [Hds Hd]]]]]]].
  assert (Epre : pre' = pre).
  { destruct (reach_run lines1 n 0 [] _ pre' R n ltac:(lia)) as [f' [_ Ef]].
    rewrite (loops_loop_app lines1 n f' (loop_start lp) pre') in Ef.
    assert (E2 : loops = pre' ++ loops_loop lines1 n f' (loop_start lp) [])
      by (rewrite EL; unfold find_loops_in_star; rewrite Hn1; exact Ef).
    rewrite Eloops in E2. symmetry. exact (app_same_length _ _ _ _ E2 (eq_sym Hlen)). }
  subst pre'.
  clear Hlen Hnth'.
  set (p := loop_start lp) in *.
  set (he := header_end lp) in *.
  set (de := data_end lp) in *.
  destruct (header_start lp) as [hs0|] eqn:Ehs;
    [|exfalso; exact (Hhs lp Hnth Ehs)].
  destruct (header_loop_spec lines1 n n (S p) None he (Some hs0) ltac:(lia) Hh)
    as [H1 [H2 [H3 H4]]].
  destruct (Nat.ltb_spec (S p) he) as [Hlt|Hge]; [|discriminate].
  injection H4 as ->.
  assert (Hhe : he <= n) by (destruct (H2 (he - 1)) as [H _]; lia).
  destruct (data_loop_spec lines1 n n he de ltac:(lia) Hd) as [D1 [D2 D3]].
  assert (Hde : de <= n)
    by (destruct (Nat.eq_dec de he) as [E|E]; [lia|destruct (D2 (de - 1)) as [H _]; lia]).
  unfold parse_star_loop_values in Ep. rewrite Ehs, Hds in Ep. fold he de in Ep.
  destruct (map_result first_token (slice_opt lines1 (Some (S p)) he)) as [hl|m] eqn:Ehl;
    [|discriminate].
  injection Ep as <- Ed.
  (* the lines of the bucket are data lines of the target loop *)
  assert (Hbk : forall b, In b bucket -> exists idx, he <= idx < de /\ idx < n /\
            fst b = nth idx TL "" /\ Py.strip (nth idx TL "") <> "").
  { intros b Hin. apply Hb in Hin. rewrite Ees in Hin.
    apply in_column_entries in Hin as [Hd' _]. rewrite <- Ed in Hd'.
    apply in_map_iff in Hd' as [raw [Er Hraw]]. apply filter_In in Hraw as [Hraw Hnb].
    unfold slice_opt in Hraw. apply in_slice in Hraw as [idx [Hi1 [Hi2 Hi3]]].
    rewrite Hn1 in Hi2. exists idx.
    unfold lines1 in Hi3. rewrite nth_map_nl in Hi3 by exact Hi2. subst raw.
    rewrite rstrip_nl_nl, rstrip_nl_free in Er by (apply nl_free_nth, HTL).
    split; [lia|]. split; [exact Hi2|]. split; [symmetry; exact Er|].
    apply negb_true_iff, String.eqb_neq in Hnb. rewrite strip_nl in Hnb.
    exact Hnb. }
  set (B := map fst bucket).
  set (TL2 := firstn he TL ++ B ++ [""] ++ skipn de TL).
  assert (HB : forall x, In x B -> exists idx, he <= idx < de /\ idx < n /\
            x = nth idx TL "" /\ Py.strip x <> "").
  { intros x Hx. unfold B in Hx. apply in_map_iff in Hx as [b [<- Hin]].
    destruct (Hbk b Hin) as [idx [? [? [E ?]]]]. exists idx. rewrite E. auto. }
  assert (HBfree : forall x, In x B -> nl_free x = true).
  { intros x Hx. destruct (HB x Hx) as [idx [_ [_ [-> _]]]]. apply nl_free_nth, HTL. }
  assert (Hw : write_star_bucket_file lines1 loops (length pre) bucket = Ok (concat_nl TL2)).
  { unfold write_star_bucket_file. rewrite Hnth. fold p he de.
    rewrite map_result_line_of by lia. rewrite Ehs.
    rewrite map_result_line_of by lia.
    f_equal. fold B. rewrite Nat.add_1_r. cbn [skipn].
    assert (E1 : (String.concat "" (firstn (S p) lines1) ++
                  String.concat "" (firstn (he - S p) (skipn (S p) lines1)))%string =
                 concat_nl (firstn he TL)).
    { rewrite <- concat_empty_app, <- EqualCount.firstn_add.
      replace (S p + (he - S p)) with he by lia.
      unfold concat_nl, lines1. rewrite firstn_map. reflexivity. }
    assert (E2 : String.concat "" (map (fun ln => (rstrip_nl ln ++ nl)%string) B) = concat_nl B)
      by (unfold concat_nl; apply f_equal, map_ext_in; intros x Hx;
          rewrite rstrip_nl_free by (apply HBfree, Hx); reflexivity).
    assert (E3 : String.concat "" (skipn de lines1) = concat_nl (skipn de TL))
      by (unfold concat_nl, lines1; rewrite skipn_map; reflexivity).
    unfold TL2. rewrite !concat_nl_app, E2, E3, <- E1.
    change (concat_nl [""]) with nl. rewrite !PyFacts.append_assoc. reflexivity. }
  assert (HTL2 : forallb nl_free TL2 = true).
  { pose proof HTL as Ha. rewrite <- (firstn_skipn he TL), forallb_app in Ha.
    apply andb_true_iff in Ha as [Ha _].
    pose proof HTL as Hc. rewrite <- (firstn_skipn de TL), forallb_app in Hc.
    apply andb_true_iff in Hc as [_ Hc].
    unfold TL2. rewrite !forallb_app, Ha, Hc, (proj2 (forallb_forall _ _) HBfree). reflexivity. }
  set (lines2 := map (fun l => (l ++ nl)%string) TL2).
  assert (Hr2 : readlines (concat_nl TL2) = lines2) by (apply readlines_concat, HTL2).
  set (n2 := length lines2).
  assert (Hn2 : n2 = he + length B + 1 + (n - de)).
  { unfold n2, lines2, TL2. rewrite length_map, !length_app, length_firstn, length_skipn.
    rewrite Nat.min_l by lia. cbn [length]. fold n. lia. }
  assert (Hfirst : firstn he lines2 = firstn he lines1).
  { unfold lines2, lines1. rewrite !firstn_map. f_equal. unfold TL2.
    rewrite firstn_app, length_firstn, Nat.min_l, Nat.sub_diag, firstn_O, app_nil_r by lia.
    rewrite firstn_firstn, Nat.min_id. reflexivity. }
  assert (Hag : forall idx, idx < he -> line_at lines1 idx = line_at lines2 idx).
  { intros idx Hi. unfold line_at. rewrite (nth_agree lines1 lines2 he idx); [reflexivity| |exact Hi].
    symmetry. exact Hfirst. }
  assert (HTL2nth : forall m, nth (he + m) TL2 "" = nth m (B ++ [""] ++ skipn de TL) "").
  { intros m. unfold TL2. rewrite app_nth2 by (rewrite length_firstn; lia).
    rewrite length_firstn, Nat.min_l by lia. f_equal. lia. }
  assert (Hmid : forall m, m < length B + 1 ->
            he + m < n2 /\ data_stop (line_at lines2 (he + m)) = false).
  { intros m Hm. split; [lia|]. unfold lines2. rewrite line_at_nl, HTL2nth.
    destruct (Nat.lt_ge_cases m (length B)) as [HmB|HmB].
    - rewrite app_nth1 by exact HmB.
      assert (Hx : In (nth m B "") B) by (apply nth_In; exact HmB).
      destruct (HB _ Hx) as [idx [Hi [Hin [Ex _]]]]. rewrite Ex.
      destruct (D2 idx Hi) as [_ Hs]. unfold lines1 in Hs. rewrite line_at_nl in Hs. exact Hs.
    - replace m with (length B) by lia. rewrite app_nth2, Nat.sub_diag by lia. reflexivity. }
  assert (Hend : n2 <= he + (length B + 1) \/
                 data_stop (line_at lines2 (he + (length B + 1))) = true).
  { destruct D3 as [Dn|Ds]; [left; lia|].
    destruct (Nat.lt_ge_cases de n) as [Hlt'|Hge']; [|left; lia].
    right. unfold lines2. rewrite line_at_nl, HTL2nth.
    rewrite app_nth2 by lia. replace (length B + 1 - length B) with 1 by lia.
    cbn [app nth]. rewrite nth_skipn, Nat.add_0_r.
    unfold lines1 in Ds. rewrite line_at_nl in Ds. exact Ds. }
  (* the scan of the written text *)
  assert (R2 : reach lines2 n2 0 [] p pre)
    by (apply (reach_agree lines1 lines2 n n2 p); [lia|lia|intros idx Hi; apply Hag; lia|exact R]).
  destruct (reach_run lines2 n2 0 [] p pre R2 n2 ltac:(lia)) as [f2 [Hf2 Ef2]].
  destruct f2 as [|f2]; [lia|].
  set (lp2 := mk_loop p (Some (S p)) he he (he + (length B + 1))).
  assert (Hstep : loops_loop lines2 n2 (S f2) p pre =
                  loops_loop lines2 n2 f2 (he + (length B + 1)) (pre ++ [lp2])).
  { apply loops_step.
    - lia.
    - unfold loop_line in Hll. rewrite <- Hag by lia. exact Hll.
    - replace he with (S p + (he - S p)) at 1 by lia.
      apply header_loop_none; [lia|lia| |].
      + intros m Hm. split; [lia|]. rewrite <- Hag by lia. apply (H2 (S p + m)). lia.
      + right. replace (S p + (he - S p)) with (he + 0) by lia.
        apply data_stop_underscore, Hmid. lia.
    - apply data_loop_run; [lia|exact Hmid|exact Hend]. }
  set (loops' := find_loops_in_star lines2).
  assert (El2 : loops' = pre ++ lp2 :: loops_loop lines2 n2 f2 (he + (length B + 1)) []).
  { unfold loops', find_loops_in_star. fold n2.
    rewrite Ef2, Hstep, (loops_loop_app lines2 n2 f2 _ (pre ++ [lp2])), <- app_assoc.
    reflexivity. }
  assert (Hskip : skipn he TL2 = B ++ [""] ++ skipn de TL).
  { unfold TL2. rewrite skipn_app, skipn_all2 by (rewrite length_firstn; lia).
    rewrite length_firstn, Nat.min_l, Nat.sub_diag by lia. reflexivity. }
  assert (Hp2 : parse_star_loop_values lines2 lp2 = Ok (hl, B)).
  { unfold parse_star_loop_values, lp2. cbn [header_start header_end data_start data_end].
    rewrite (slice_opt_firstn lines2 (Some (S p)) he he), Hfirst, <- slice_opt_firstn by lia.
    rewrite Ehl. f_equal. f_equal.
    unfold slice_opt. replace (he + (length B + 1) - he) with (length B + 1) by lia.
    unfold lines2. rewrite skipn_map, firstn_map, Hskip, firstn_app, firstn_all2 by lia.
    replace (length B + 1 - length B) with 1 by lia. cbn [firstn app].
    rewrite map_app, filter_app, filter_all_true.
    - change (filter (fun ln => negb (Py.strip ln =? "")) (map (fun l => (l ++ nl)%string) [""]))
        with (@nil string).
      rewrite app_nil_r, map_map. rewrite <- (map_id B) at 2. apply map_ext_in.
      intros x Hx. rewrite rstrip_nl_nl, rstrip_nl_free by (apply HBfree, Hx). reflexivity.
    - intros x Hx. apply in_map_iff in Hx as [y [<- Hy]]. rewrite strip_nl.
      destruct (HB y Hy) as [_ [_ [_ [_ Hne']]]]. apply negb_true_iff, String.eqb_neq, Hne'. }
  exists (concat_nl TL2), loops'. split; [exact Hw|]. rewrite Hr2. split.
  - apply parse_star_lines_ok. split; [reflexivity|].
    split; [rewrite El2; destruct pre; discriminate|]. fold c.
    rewrite El2, find_column_app_none.
    + cbn [find_column]. rewrite Hp2, Ei, Nat.add_0_l. unfold B.
      rewrite (column_entries_sub ci d); [reflexivity|]. rewrite <- Ees. exact Hb.
    + rewrite <- (find_column_ext lines1 lines2); [exact Hpre|].
      intros x Hx. destruct (reach_bounds lines1 n 0 [] p pre R x Hx) as [[]|[Hb1 Hb2]].
      rewrite (parse_loop_firstn lines1 x he), (parse_loop_firstn lines2 x he), Hfirst by lia.
      reflexivity.
  - rewrite El2, Eloops, !firstn_app, Nat.sub_diag, !firstn_O, !app_nil_r, firstn_all.
    reflexivity.
Qed.

Definition star_example_lines : list string :=
  ["data_optics"; ""; "loop_"; "_rlnOpticsGroup #1"; "_rlnVoltage #2"; "1 300.0"; "";
   "data_particles"; ""; "loop_"; "_rlnImageName #1"; "_rlnScore #2";
   "1@a.mrcs 0.5"; "2@a.mrcs 0.9"; "3@b.mrcs 0.1"; ""].

Definition star_example_loops : list loop :=
  Eval vm_compute in find_loops_in_star (readlines (concat_nl star_example_lines)).

Definition star_example_entries : list entry :=
  Eval vm_compute in
    match parse_star_lines (readlines (concat_nl star_example_lines)) "rlnScore" with
    | Ok (_, _, es) => es
    | Raise _ => []
    end.

Definition star_example_bucket : list entry :=
  Eval vm_compute in
    match star_example_entries with [a; _; c] => [c; a] | _ => [] end.

Lemma star_bucket_round_trip_witness :
  parse_star_lines (readlines (concat_nl star_example_lines)) "rlnScore" =
    Ok (star_example_loops, 1, star_example_entries) /\
  incl star_example_bucket star_example_entries /\
  exists text loops',
    write_star_bucket_file (readlines (concat_nl star_example_lines)) star_example_loops 1
      star_example_bucket = Ok text /\
    parse_star_lines (readlines text) "rlnScore" = Ok (loops', 1, star_example_bucket) /\
    firstn 1 loops' = firstn 1 star_example_loops.
Proof.
  assert (Hf : forallb nl_free star_example_lines = true) by (vm_compute; reflexivity).
  assert (Hp : parse_star_lines (readlines (concat_nl star_example_lines)) "rlnScore" =
               Ok (star_example_loops, 1, star_example_entries)) by (vm_compute; reflexivity).
  assert (Hh : forall lp, nth_error star_example_loops 1 = Some lp -> header_start lp <> None)
    by (intros lp E; vm_compute in E; injection E as <-; discriminate).
  assert (Hi : incl star_example_bucket star_example_entries)
    by (intros e [<-|[<-|[]]]; vm_compute; auto).
  split; [exact Hp|]. split; [exact Hi|].
  exact (star_bucket_round_trip star_example_lines "rlnScore" _ _ _ _ Hf Hp Hh Hi).
Defined.

End HistogramProofs.

(* ------------------------------------------------------------------ *)
(** ** The range of [process_entries] and the binning routines *)

Module RangeProofs.
Import Binning Histogram.

(** [math.isnan] on the value of an entry. *)
Definition is_nan (e : entry) : bool :=
  match snd e with NaN => true | _ => false end.

Lemma Qlt_bool_false' (x y : Q) : Qlt_bool x y = false -> (y <= x)%Q.
Proof.
  intros H. apply Qnot_lt_le. intros H'. apply EqualWidth.Qlt_bool_iff in H'. congruence.
Qed.

Lemma flt_irrefl (x : fval) : Lst.flt x x = false.
Proof.
  destruct x; try reflexivity. cbn. destruct (Qlt_bool q q) eqn:E; [|reflexivity].
  apply EqualWidth.Qlt_bool_iff in E. exfalso. exact (Qlt_irrefl q E).
Qed.

Lemma flt_trans (a b c : fval) :
  Lst.flt a b = true -> Lst.flt b c = true -> Lst.flt a c = true.
Proof.
  destruct a, b, c; cbn; intros H1 H2; try reflexivity; try discriminate.
  apply EqualWidth.Qlt_bool_iff in H1, H2. apply EqualWidth.Qlt_bool_iff.
  exact (Qlt_trans _ _ _ H1 H2).
Qed.

Lemma flt_not_not (a b c : fval) :
  b <> NaN -> Lst.flt a b = false -> Lst.flt b c = false -> Lst.flt a c = false.
Proof.
  intros Hb. destruct a, b, c; cbn; intros H1 H2; try reflexivity; try discriminate;
    try congruence.
  apply Qlt_bool_false' in H1, H2. destruct (Qlt_bool q q1) eqn:E; [|reflexivity].
  apply EqualWidth.Qlt_bool_iff in E. exfalso.
  apply (Qlt_irrefl q). apply (Qlt_le_trans _ q1); [exact E|].
  apply (Qle_trans _ q0); assumption.
Qed.

Lemma flt_nan_r (x : fval) : Lst.flt x NaN = false.
Proof. destruct x; reflexivity. Qed.

Lemma flt_nan_l (x : fval) : Lst.flt NaN x = false.
Proof. destruct x; reflexivity. Qed.

Lemma fval_eq_nan (v : fval) : v = NaN \/ v <> NaN.
Proof. destruct v; [right; discriminate..|left; reflexivity]. Qed.

Lemma py_min_nan (vs : list fval) : py_min NaN vs = NaN.
Proof.
  unfold py_min. induction vs as [|y r IH]; [reflexivity|].
  cbn [fold_left]. rewrite flt_nan_r. exact IH.
Qed.

Lemma py_max_nan (vs : list fval) : py_max NaN vs = NaN.
Proof.
  unfold py_max. induction vs as [|y r IH]; [reflexivity|].
  cbn [fold_left]. rewrite flt_nan_l. exact IH.
Qed.

(** [min(vals)]: no value compares less than it, and it is one of them. *)
Lemma py_min_spec (vs : list fval) : forall v,
  (forall x, In x (v :: vs) -> Lst.flt x (py_min v vs) = false) /\
  In (py_min v vs) (v :: vs).
Proof.
  induction vs as [|y r IH]; intros v.
  - split; [|left; reflexivity]. intros x [<-|[]]. apply flt_irrefl.
  - change (py_min v (y :: r)) with (py_min (if Lst.flt y v then y else v) r).
    destruct (Lst.flt y v) eqn:Ey.
    + destruct (IH y) as [H1 H2]. split; [|right; exact H2].
      intros x [<-|[<-|Hx]]; [| apply H1; left; reflexivity | apply H1; right; exact Hx].
      destruct (Lst.flt v (py_min y r)) eqn:E; [|reflexivity].
      exfalso. pose proof (flt_trans _ _ _ Ey E) as T.
      rewrite (H1 y (or_introl eq_refl)) in T. discriminate.
    + destruct (IH v) as [H1 H2].
      split; [|destruct H2 as [H2|H2]; [left; exact H2|right; right; exact H2]].
      intros x [<-|[<-|Hx]]; [apply H1; left; reflexivity| |apply H1; right; exact Hx].
      destruct (fval_eq_nan v) as [->|Hv].
      * rewrite py_min_nan. apply flt_nan_r.
      * apply (flt_not_not _ v); [exact Hv|exact Ey|apply H1; left; reflexivity].
Qed.

(** [max(vals)]: no value compares greater than it, and it is one of them. *)
Lemma py_max_spec (vs : list fval) : forall v,
  (forall x, In x (v :: vs) -> Lst.flt (py_max v vs) x = false) /\
  In (py_max v vs) (v :: vs).
Proof.
  induction vs as [|y r IH]; intros v.
  - split; [|left; reflexivity]. intros x [<-|[]]. apply flt_irrefl.
  - change (py_max v (y :: r)) with (py_max (if Lst.flt v y then y else v) r).
    destruct (Lst.flt v y) eqn:Ey.
    + destruct (IH y) as [H1 H2]. split; [|right; exact H2].
      intros x [<-|[<-|Hx]]; [| apply H1; left; reflexivity | apply H1; right; exact Hx].
      destruct (Lst.flt (py_max y r) v) eqn:E; [|reflexivity].
      exfalso. pose proof (flt_trans _ _ _ E Ey) as T.
      rewrite (H1 y (or_introl eq_refl)) in T. discriminate.
    + destruct (IH v) as [H1 H2].
      split; [|destruct H2 as [H2|H2]; [left; exact H2|right; right; exact H2]].
      intros x [<-|[<-|Hx]]; [apply H1; left; reflexivity| |apply H1; right; exact Hx].
      destruct (fval_eq_nan v) as [->|Hv].
      * rewrite py_max_nan. apply flt_nan_l.
      * apply (flt_not_not _ v); [exact Hv|apply H1; left; reflexivity|exact Ey].
Qed.

(** With no [--min]/[--max] and a finite range, every value is [nan]
    or lies in the range, and some value does. *)
Lemma default_range_values (entries : list entry) (a b : Q) :
  select_range entries None None = Range (Fin a) (Fin b) ->
  (exists e, In e entries /\ snd e = Fin a) /\
  (forall e, In e entries -> in_range a b (snd e) = negb (is_nan e)).
Proof.
  unfold select_range. destruct (map snd entries) as [|v vs] eqn:Em; [discriminate|].
  destruct (Lst.flt (py_max v vs) (py_min v vs) || feq (py_min v vs) (py_max v vs));
    [discriminate|].
  intros E. injection E as Ea Eb.
  destruct (py_min_spec vs v) as [Hmin Hmem]. destruct (py_max_spec vs v) as [Hmax _].
  rewrite Ea in Hmin, Hmem. rewrite Eb in Hmax. rewrite <- Em in Hmin, Hmax, Hmem.
  split.
  - apply in_map_iff in Hmem as [e [He Hin]]. exists e. auto.
  - intros e He. assert (Hs : In (snd e) (map snd entries)) by (apply in_map, He).
    specialize (Hmin _ Hs). specialize (Hmax _ Hs). unfold is_nan.
    destruct (snd e) as [q| | |]; cbn in Hmin, Hmax |- *; try discriminate; [|reflexivity].
    apply Qlt_bool_false' in Hmin, Hmax.
    apply Qle_bool_iff in Hmin, Hmax. rewrite Hmin, Hmax. reflexivity.
Qed.

Lemma length_filter_negb {A} (f : A -> bool) (l : list A) :
  length l = (length (filter f l) + length (filter (fun x => negb (f x)) l))%nat.
Proof.
  induction l as [|x r IH]; [reflexivity|]. cbn [filter length].
  destruct (f x); cbn [negb length]; lia.
Qed.

Lemma filter_in_range_nan (entries : list entry) (a b : Q) :
  (forall e, In e entries -> in_range a b (snd e) = negb (is_nan e)) ->
  filter (fun e => in_range a b (snd e)) entries = filter (fun e => negb (is_nan e)) entries.
Proof. intros H. apply filter_ext_in. exact H. Qed.

(** Extra X4: when [process_entries] takes the range from the values
    (no [--min], no [--max]) and it is finite, [assign_bins_same_size]
    does not raise "No particles within the specified range." and skips
    exactly the entries whose value is [nan]. *)
Theorem default_range_same_size (entries : list entry) (bins : nat) (a b : Q) :
  (1 <= bins)%nat -> select_range entries None None = Range (Fin a) (Fin b) ->
  exists buckets edges,
    assign_bins_same_size entries bins a b =
      Ok (buckets, edges, length (filter is_nan entries)).
Proof.
  intros Hb Hr. destruct (default_range_values entries a b Hr) as [[e0 [He0 Ea]] Hv].
  assert (Hne : filter (fun e => in_range a b (snd e)) entries <> []).
  { intros E. assert (Hin : In e0 (filter (fun e => in_range a b (snd e)) entries)).
    { apply filter_In. split; [exact He0|]. rewrite (Hv e0 He0). unfold is_nan.
      rewrite Ea. reflexivity. }
    rewrite E in Hin. exact Hin. }
  destruct (EqualCount.same_size_buckets entries bins a b Hb Hne) as [edges E].
  eexists _, edges. rewrite E. f_equal. f_equal.
  rewrite filter_in_range_nan by exact Hv.
  rewrite (length_filter_negb is_nan entries) at 1. apply Nat.add_sub.
Qed.

(** Extra X5: with no [--min]/[--max] and finite values,
    [process_entries] stops with "Invalid range" (exit status 2) exactly
    when all the values are equal. *)
Theorem default_range_invalid_iff (entries : list entry) :
  entries <> [] -> (forall e, In e entries -> isfinite (snd e) = true) ->
  (exists vmin vmax, select_range entries None None = InvalidRange vmin vmax) <->
  (forall e1 e2, In e1 entries -> In e2 entries -> feq (snd e1) (snd e2) = true).
Proof.
  intros Hne Hfin. unfold select_range.
  destruct (map snd entries) as [|v vs] eqn:Em;
    [destruct entries; [congruence|discriminate]|].
  cbv zeta.
  destruct (py_min_spec vs v) as [Hmin Hmm]. destruct (py_max_spec vs v) as [Hmax HMm].
  rewrite <- Em in Hmin, Hmm, Hmax, HMm.
  assert (Hf : forall x, In x (map snd entries) -> exists q, x = Fin q).
  { intros x Hx. apply in_map_iff in Hx as [e [<- He]]. specialize (Hfin e He).
    destruct (snd e); try discriminate. exists q. reflexivity. }
  destruct (Hf _ Hmm) as [a Ea]. destruct (Hf _ HMm) as [b Eb].
  rewrite Ea in Hmin, Hmm. rewrite Eb in Hmax, HMm. rewrite Ea, Eb.
  assert (Hbd : forall x, In x (map snd entries) ->
            exists q, x = Fin q /\ (a <= q)%Q /\ (q <= b)%Q).
  { intros x Hx. destruct (Hf x Hx) as [q ->]. exists q. split; [reflexivity|].
    specialize (Hmin _ Hx). specialize (Hmax _ Hx). cbn in Hmin, Hmax.
    split; apply Qlt_bool_false'; assumption. }
  assert (Hab : (a <= b)%Q) by (destruct (Hbd _ Hmm) as [q [E [_ H]]]; injection E as ->; exact H).
  replace (Lst.flt (Fin b) (Fin a)) with false
    by (symmetry; cbn; destruct (Qlt_bool b a) eqn:E; [|reflexivity];
        apply EqualWidth.Qlt_bool_iff in E; exfalso; exact (Qlt_not_le _ _ E Hab)).
  cbn [orb feq]. split.
  - intros [vmin [vmax E]]. destruct (Qeq_bool a b) eqn:Eab; [|discriminate].
    apply Qeq_bool_iff in Eab. intros e1 e2 H1 H2.
    destruct (Hbd (snd e1) (in_map _ _ _ H1)) as [q1 [-> [H1a H1b]]].
    destruct (Hbd (snd e2) (in_map _ _ _ H2)) as [q2 [-> [H2a H2b]]].
    cbn. apply Qeq_bool_iff.
    apply Qle_antisym; [apply (Qle_trans _ b); [exact H1b|rewrite <- Eab; exact H2a]|].
    apply (Qle_trans _ b); [exact H2b|rewrite <- Eab; exact H1a].
  - intros Hall.
    apply in_map_iff in Hmm as [e1 [E1 H1]]. apply in_map_iff in HMm as [e2 [E2 H2]].
    specialize (Hall e1 e2 H1 H2). rewrite E1, E2 in Hall. cbn in Hall. rewrite Hall.
    eexists. eexists. reflexivity.
Qed.

Definition range_example : list entry :=
  [("1 a.mrc score=0.5", Fin (1 # 2)); ("2 a.mrc score=nan", NaN);
   ("3 b.mrc score=2", Fin 2)].

Lemma default_range_same_size_witness :
  (1 <= 2)%nat /\ select_range range_example None None = Range (Fin (1 # 2)) (Fin 2) /\
  exists buckets edges,
    assign_bins_same_size range_example 2 (1 # 2) 2 =
      Ok (buckets, edges, length (filter is_nan range_example)).
Proof.
  assert (H1 : (1 <= 2)%nat) by lia.
  assert (H2 : select_range range_example None None = Range (Fin (1 # 2)) (Fin 2))
    by (vm_compute; reflexivity).
  split; [exact H1|]. split; [exact H2|].
  exact (default_range_same_size range_example 2 _ _ H1 H2).
Defined.

Definition flat_example : list entry := [("1 a.mrc score=3", Fin 3); ("2 a.mrc score=3.0", Fin (6 # 2))].

Lemma default_range_invalid_iff_witness :
  flat_example <> [] /\ (forall e, In e flat_example -> isfinite (snd e) = true) /\
  ((exists vmin vmax, select_range flat_example None None = InvalidRange vmin vmax) <->
   (forall e1 e2, In e1 flat_example -> In e2 flat_example -> feq (snd e1) (snd e2) = true)).
Proof.
  assert (H1 : flat_example <> []) by discriminate.
  assert (H2 : forall e, In e flat_example -> isfinite (snd e) = true)
    by (intros e [<-|[<-|[]]]; reflexivity).
  split; [exact H1|]. split; [exact H2|].
  exact (default_range_invalid_iff flat_example H1 H2).
Defined.

End RangeProofs.

(* ------------------------------------------------------------------ *)
(** ** The loops found by [find_loops_in_star] *)

Module LoopProofs.
Import Binning StarParse Histogram StarParseProofs HistogramProofs.

(** Extra X6: every loop [find_loops_in_star] returns starts on a
    [loop_] line; its header lines, from the next line on, all start
    with [_] and [header_start] is the first of them ([None] when there
    is none); its data lines follow the header up to [data_end], inside
    the file, and none of them starts with [_], [loop_] or [data_];
    and the next loop starts at or after its [data_end]. *)
Theorem find_loops_layout (lines : list string) (m : nat) (lp : loop) :
  nth_error (find_loops_in_star lines) m = Some lp ->
  Py.startswith (Py.lower (line_at lines (loop_start lp))) "loop_" = true /\
  loop_start lp < header_end lp /\ data_start lp = header_end lp /\
  data_start lp <= data_end lp /\ data_end lp <= length lines /\
  header_start lp =
    (if Nat.ltb (S (loop_start lp)) (header_end lp) then Some (S (loop_start lp)) else None) /\
  (forall k, loop_start lp < k < header_end lp -> Py.startswith (line_at lines k) "_" = true) /\
  (forall k, data_start lp <= k < data_end lp -> data_stop (line_at lines k) = false) /\
  (forall lp', nth_error (find_loops_in_star lines) (S m) = Some lp' ->
     data_end lp <= loop_start lp').
Proof.
  unfold find_loops_in_star. set (n := length lines). intros Hm.
  destruct (scan_at lines n n 0 [] m lp Hm (Nat.le_0_l _))
    as [pre [R [Hlen [Hpn [Hll [Hh [Hds Hd]]]]]]].
  destruct (header_loop_spec lines n n (S (loop_start lp)) None _ _ ltac:(lia) Hh)
    as [H1 [H2 [_ H4]]].
  assert (Hhe : header_end lp <= n).
  { destruct (Nat.eq_dec (header_end lp) (S (loop_start lp))) as [E|E]; [lia|].
    destruct (H2 (header_end lp - 1)) as [H _]; lia. }
  destruct (data_loop_spec lines n n (header_end lp) (data_end lp) ltac:(lia) Hd)
    as [D1 [D2 _]].
  assert (Hde : data_end lp <= n).
  { destruct (Nat.eq_dec (data_end lp) (header_end lp)) as [E|E]; [lia|].
    destruct (D2 (data_end lp - 1)) as [H _]; lia. }
  split; [exact Hll|]. split; [lia|]. split; [exact Hds|]. split; [lia|].
  split; [exact Hde|]. split; [exact H4|].
  split; [intros k Hk; apply H2; lia|].
  split; [intros k Hk; apply D2; lia|].
  intros lp' Hm'.
  destruct (scan_at lines n n 0 [] (S m) lp' Hm' (Nat.le_0_l _)) as [pre2 [R2 [Hlen2 _]]].
  destruct (reach_run lines n 0 [] _ pre2 R2 n ltac:(lia)) as [f' [_ Ef]].
  rewrite Ef, (loops_loop_app lines n f' _ pre2), nth_error_app1 in Hm by lia.
  destruct (reach_bounds lines n 0 [] _ pre2 R2 lp (nth_error_In _ _ Hm)) as [[]|[_ H]].
  exact H.
Qed.

Definition layout_example : list string := readlines (concat_nl star_example_lines).

Definition layout_example_loops : list loop :=
  Eval vm_compute in find_loops_in_star layout_example.

Lemma find_loops_layout_witness :
  nth_error (find_loops_in_star layout_example) 0 = nth_error layout_example_loops 0 /\
  data_end (nth 0 layout_example_loops (mk_loop 0 None 0 0 0)) <=
    loop_start (nth 1 layout_example_loops (mk_loop 0 None 0 0 0)) /\
  data_end (nth 0 layout_example_loops (mk_loop 0 None 0 0 0)) <= length layout_example.
Proof.
  assert (H0 : nth_error (find_loops_in_star layout_example) 0 = nth_error layout_example_loops 0)
    by (vm_compute; reflexivity).
  assert (H1 : nth_error (find_loops_in_star layout_example) 1 = nth_error layout_example_loops 1)
    by (vm_compute; reflexivity).
  split; [exact H0|].
  destruct (find_loops_layout layout_example 0 (nth 0 layout_example_loops (mk_loop 0 None 0 0 0)) H0)
    as [_ [_ [_ [_ [Hn [_ [_ [_ Hnext]]]]]]]].
  split; [apply Hnext; exact H1|exact Hn].
Defined.

Lemma loops_loop_nil (lines : list string) (n f : nat) : forall i acc,
  (forall j, i <= j < n -> Py.startswith (Py.lower (line_at lines j)) "loop_" = false) ->
  loops_loop lines n f i acc = acc.
Proof.
  induction f as [|f IH]; intros i acc H; [reflexivity|]. cbn [loops_loop].
  destruct (Nat.ltb_spec i n) as [Hi|Hi]; [|reflexivity].
  rewrite (H i) by lia. apply IH. intros j Hj. apply H. lia.
Qed.

Lemma loops_loop_found (lines : list string) (n j f : nat) : forall i acc,
  i <= j < n -> n <= f + i -> Py.startswith (Py.lower (line_at lines j)) "loop_" = true ->
  loops_loop lines n f i acc <> [].
Proof.
  induction f as [|f IH]; intros i acc Hj Hf Hl; [lia|]. cbn [loops_loop].
  destruct (Nat.ltb_spec i n) as [Hi|Hi]; [|lia].
  destruct (Py.startswith (Py.lower (line_at lines i)) "loop_") eqn:Ei.
  - destruct (header_loop lines n n (S i) None) as [j' hs].
    rewrite loops_loop_app. destruct acc; discriminate.
  - assert (i <> j) by (intros ->; congruence). apply IH; [lia|lia|exact Hl].
Qed.

Lemma map_result_first_token_raise (l : list string) (m : string) :
  map_result first_token l = Raise m -> m = "IndexError: list index out of range".
Proof.
  induction l as [|x r IH]; cbn [map_result]; [discriminate|].
  unfold first_token at 1. destruct (Py.split (Py.strip x)) as [|t ts].
  - intros E. injection E as <-. reflexivity.
  - destruct (map_result first_token r) as [ys|m']; [discriminate|].
    intros E. injection E as <-. apply IH. reflexivity.
Qed.

Lemma find_column_raise (lines : list string) (c : string) (ls : list loop) :
  forall i m, find_column lines c i ls = Raise m -> m = "IndexError: list index out of range".
Proof.
  induction ls as [|lp r IH]; intros i m; cbn [find_column]; [discriminate|].
  unfold parse_star_loop_values.
  destruct (map_result first_token _) as [hl|m'] eqn:E.
  - destruct (index_of c hl); [discriminate|]. apply IH.
  - intros H. injection H as <-. exact (map_result_first_token_raise _ _ E).
Qed.

(** Extra X7: [parse_star_lines] raises "No loop_ blocks found in STAR
    file." exactly when no line of the file, stripped and lowercased,
    starts with [loop_]. *)
Theorem parse_star_no_loops (lines : list string) (column_name : string) :
  parse_star_lines lines column_name = Raise "No loop_ blocks found in STAR file." <->
  (forall i, i < length lines -> Py.startswith (Py.lower (line_at lines i)) "loop_" = false).
Proof.
  split.
  - intros H i Hi. destruct (Py.startswith (Py.lower (line_at lines i)) "loop_") eqn:E;
      [exfalso|reflexivity].
    assert (Hne : find_loops_in_star lines <> [])
      by (apply (loops_loop_found lines _ i); [lia|lia|exact E]).
    unfold parse_star_lines in H.
    destruct (find_loops_in_star lines) as [|l0 r]; [contradiction|].
    destruct (find_column lines _ 0 (l0 :: r)) as [[[li es]|]|m] eqn:Ef.
    + discriminate.
    + injection H as H. destruct (Py.startswith column_name "_"); discriminate.
    + injection H as ->. apply find_column_raise in Ef. discriminate.
  - intros H. unfold parse_star_lines, find_loops_in_star.
    rewrite loops_loop_nil by (intros j Hj; apply H; lia). reflexivity.
Qed.

End LoopProofs.

(* ------------------------------------------------------------------ *)
(** ** File type detection of a written STAR text *)

Module DetectProofs.
Import Binning Star StarParse Histogram StarParseProofs HistogramProofs.
Local Open Scope list_scope.
Local Abbreviation L := list_ascii_of_string.

Lemma sol_app (a b : list ascii) :
  string_of_list_ascii (a ++ b) = (string_of_list_ascii a ++ string_of_list_ascii b)%string.
Proof. induction a as [|c r IH]; [reflexivity|]. cbn. rewrite IH. reflexivity. Qed.

Lemma lstrip_sol_app (l1 l2 : list ascii) (c : ascii) :
  Py.is_space c = false ->
  exists m, Py.lstrip (string_of_list_ascii (l1 ++ c :: l2)) = string_of_list_ascii (m ++ c :: l2).
Proof.
  intros Hc. induction l1 as [|a r IH].
  - exists []. cbn. rewrite Hc. reflexivity.
  - cbn [app string_of_list_ascii Py.lstrip]. destruct (Py.is_space a); [exact IH|].
    exists (a :: r). reflexivity.
Qed.

(** [rstrip] stops at a character that is not whitespace. *)
Lemma rstrip_keep (s t : string) (c : ascii) :
  Py.is_space c = false -> exists y, Py.rstrip (s ++ String c t) = (s ++ String c y)%string.
Proof.
  intros Hc. unfold Py.rstrip. rewrite L_app. cbn [L list_ascii_of_string].
  rewrite rev_app_distr. cbn [rev]. rewrite <- app_assoc. cbn [app].
  destruct (lstrip_sol_app (rev (L t)) (rev (L s)) c Hc) as [m Em]. rewrite Em.
  rewrite list_ascii_of_string_of_list_ascii, rev_app_distr. cbn [rev].
  rewrite rev_involutive, <- app_assoc, sol_app, string_of_list_ascii_of_string.
  exists (string_of_list_ascii (rev m)). reflexivity.
Qed.

Lemma strip_data (h : string) : exists y, Py.strip ("data_" ++ h) = ("data_" ++ y)%string.
Proof.
  unfold Py.strip. change (Py.lstrip ("data_" ++ h)) with ("data" ++ String "_" h)%string.
  destruct (rstrip_keep "data" h "_" eq_refl) as [y Ey]. rewrite Ey.
  exists y. reflexivity.
Qed.

Lemma split_nl_nonempty (s : string) : split_nl s <> [].
Proof.
  induction s as [|c r IH]; cbn [split_nl]; [discriminate|].
  destruct (Ascii.eqb c (ascii_of_nat 10)); [discriminate|].
  destruct (split_nl r); discriminate.
Qed.

Lemma split_nl_prefix (a h : string) :
  nl_free a = true -> exists h0 t, split_nl (a ++ h) = (a ++ h0)%string :: t.
Proof.
  induction a as [|c r IH]; intros Ha.
  - destruct (split_nl h) as [|h0 t] eqn:E; [exfalso; exact (split_nl_nonempty h E)|].
    exists h0, t. exact E.
  - unfold nl_free in Ha. cbn in Ha. apply andb_true_iff in Ha as [Hc Hr].
    apply negb_true_iff in Hc. destruct (IH Hr) as [h0 [t E]].
    exists h0, t. cbn [append split_nl]. change (ascii_of_nat 10) with "010"%char.
    rewrite Hc, E. reflexivity.
Qed.

Lemma readlines_line (a r : string) :
  nl_free a = true -> readlines (a ++ nl ++ r) = (a ++ nl)%string :: readlines r.
Proof.
  intros Ha. unfold readlines. rewrite split_nl_line by exact Ha.
  destruct (split_nl r) as [|s l] eqn:E; [exfalso; exact (split_nl_nonempty r E)|].
  change (removelast (a :: s :: l)) with (a :: removelast (s :: l)).
  change (last (a :: s :: l) "") with (last (s :: l) "").
  cbn [map]. destruct (last (s :: l) ""); reflexivity.
Qed.

Lemma detect_line_nl (s : string) : detect_line (s ++ nl) = detect_line s.
Proof. unfold detect_line. rewrite strip_nl. reflexivity. Qed.

Lemma detect_line_data (h : string) : detect_line ("data_" ++ h) = Some StarFile.
Proof.
  unfold detect_line. destruct (strip_data h) as [y Ey]. rewrite Ey. simpl.
  unfold Py.startswith. destruct (Py.lower y); reflexivity.
Qed.

(** The first line of a text that starts with [data_]. *)
Lemma readlines_data (h : string) :
  exists x rest, readlines ("data_" ++ h) = x :: rest /\ detect_line x = Some StarFile.
Proof.
  destruct (split_nl_prefix "data_" h eq_refl) as [h0 [t E]]. unfold readlines. rewrite E.
  destruct t as [|t0 t'].
  - exists ("data_" ++ h0)%string, []. split; [reflexivity|apply detect_line_data].
  - change (removelast (("data_" ++ h0)%string :: t0 :: t'))
      with (("data_" ++ h0)%string :: removelast (t0 :: t')).
    change (last (("data_" ++ h0)%string :: t0 :: t') "") with (last (t0 :: t') "").
    cbn [map]. exists (("data_" ++ h0) ++ nl)%string.
    destruct (last (t0 :: t') "");
      (eexists; split; [reflexivity|rewrite detect_line_nl; apply detect_line_data]).
Qed.

Lemma readlines_blank (r : string) : readlines (nl ++ r) = nl :: readlines r.
Proof. exact (readlines_line "" r eq_refl). Qed.

(** Extra X8: [detect_file_type] on the file [filter_star] of
    [lst2star.py] writes, under a name not ending in [.lst], answers
    STAR exactly when the written document has a block or the name ends
    in [.star]; with no block and another name it raises "Cannot
    determine file type". *)
Theorem detect_star_text (path : string) (out : doc) :
  endswith path ".lst" = false ->
  (detect_file_type path (readlines (star_text out)) = Ok StarFile <->
   (out <> [] \/ endswith path ".star" = true)) /\
  (out = [] -> endswith path ".star" = false ->
   detect_file_type path (readlines (star_text out)) =
     Raise "Cannot determine file type (LST or STAR). Use .lst/.star extension or check file content.").
Proof.
  intros Hl. split; unfold detect_file_type; rewrite Hl.
  - destruct (endswith path ".star") eqn:Es.
    + split; [intros _; right; reflexivity|reflexivity].
    + destruct out as [|[name blk] r].
      * split; [intros H; vm_compute in H; discriminate|].
        intros [H|H]; [contradiction|discriminate].
      * split; [intros _; left; discriminate|intros _].
        unfold star_text. rewrite readlines_line by reflexivity.
        rewrite readlines_blank. cbn [map]. rewrite concat_empty_cons.
        unfold block_text at 1. rewrite PyFacts.append_assoc.
        match goal with |- context [readlines ("data_" ++ ?h)] =>
          destruct (readlines_data h) as [x [rest [Ex Hx]]]; rewrite Ex end.
        cbn [detect_lines].
        replace (detect_line ("# version 30001" ++ nl)) with (@None ftype) by reflexivity.
        replace (detect_line nl) with (@None ftype) by reflexivity.
        rewrite Hx. reflexivity.
  - intros -> Es. rewrite Es. vm_compute. reflexivity.
Qed.

Lemma detect_star_text_witness :
  endswith "particles_out" ".lst" = false /\
  (detect_file_type "particles_out" (readlines (star_text example_doc)) = Ok StarFile <->
   (example_doc <> [] \/ endswith "particles_out" ".star" = true)) /\
  detect_file_type "particles_out" (readlines (star_text [])) =
    Raise "Cannot determine file type (LST or STAR). Use .lst/.star extension or check file content.".
Proof.
  assert (H : endswith "particles_out" ".lst" = false) by reflexivity.
  split; [exact H|]. split; [exact (proj1 (detect_star_text "particles_out" example_doc H))|].
  exact (proj2 (detect_star_text "particles_out" [] H) eq_refl eq_refl).
Defined.

End DetectProofs.

(* ------------------------------------------------------------------ *)
(** ** Optics-group renumbering on whole tables *)

Module GroupProofs.
Import Py PyFacts Renumber RenumberProofs Groups.
Local Open Scope list_scope.

Lemma span_digits_spec (s d post : string) :
  span_digits s = (d, post) ->
  s = (d ++ post)%string /\ all_digits d = true /\ starts_nondigit post = true.
Proof.
  revert d post; induction s as [|c r IH]; intros d post E; simpl in E.
  - inversion E; subst. auto.
  - destruct (is_digit c) eqn:Hc.
    + destruct (span_digits r) as [d' p'] eqn:Er. inversion E; subst.
      destruct (IH _ _ eq_refl) as [-> [A B]]. simpl. rewrite Hc, A. auto.
    + inversion E; subst. simpl. rewrite Hc. auto.
Qed.

Lemma first_digit_run_some (s pre d post : string) :
  first_digit_run s = Some (pre, d, post) ->
  s = (pre ++ d ++ post)%string /\ no_digit pre = true /\ d <> EmptyString /\
  all_digits d = true /\ starts_nondigit post = true.
Proof.
  revert pre d post; induction s as [|c r IH]; intros pre d post E;
    [discriminate|].
  destruct (is_digit c) eqn:Hc.
  - simpl in E. rewrite Hc in E.
    destruct (span_digits r) as [d' p'] eqn:Er. inversion E; subst.
    destruct (span_digits_spec _ _ _ Er) as [-> [A B]].
    simpl. rewrite Hc, A. repeat split; auto. discriminate.
  - simpl in E. rewrite Hc in E.
    destruct (first_digit_run r) as [[[pre' d'] post']|] eqn:Er; [|discriminate].
    inversion E; subst.
    destruct (IH _ _ _ eq_refl) as [-> [A [B [C D]]]].
    simpl. rewrite Hc, A. auto.
Qed.

Lemma first_digit_run_str (pre post : string) (n : Z) :
  no_digit pre = true -> starts_nondigit post = true -> (0 < n)%Z ->
  first_digit_run (pre ++ str_Z n ++ post)%string = Some (pre, str_Z n, post) /\
  digits_value (str_Z n) = n.
Proof.
  intros Hpre Hpost Hn. destruct n as [|p|p]; try lia.
  destruct (str_pos_spec p) as [c [r [E [_ [A V]]]]]. rewrite E.
  split; [|exact V]. apply first_digit_run_app; [exact Hpre|discriminate|exact A|exact Hpost].
Qed.

Lemma rename_none (m : mapping) (nm : string) :
  first_digit_run nm = None -> rename m nm = nm.
Proof.
  intros E. unfold rename, replace_first_digit_group. rewrite E. reflexivity.
Qed.

Lemma rename_some (m : mapping) (nm pre d post : string) (v : Z) :
  first_digit_run nm = Some (pre, d, post) -> get m (digits_value d) = Some v ->
  rename m nm = (pre ++ str_Z v ++ post)%string.
Proof.
  intros E G. unfold rename, replace_first_digit_group, extract_digits_int.
  rewrite E. simpl. rewrite G. reflexivity.
Qed.

Lemma zseq_in (v i : Z) (n : nat) :
  In v (zseq i n) <-> (i <= v < i + Z.of_nat n)%Z.
Proof.
  revert i; induction n as [|n IH]; intros i; simpl; [lia|].
  rewrite IH. lia.
Qed.

Lemma get_combine_zseq (S : list Z) (i x : Z) :
  In x S -> exists v, get (combine S (zseq i (length S))) x = Some v /\
    (i <= v < i + Z.of_nat (length S))%Z.
Proof.
  revert i; induction S as [|y S IH]; intros i Hx; [destruct Hx|].
  unfold get; simpl. destruct (Z.eqb_spec y x) as [->|Hne].
  - exists i. split; [reflexivity|lia].
  - destruct Hx as [->|Hx]; [congruence|].
    destruct (IH (i + 1)%Z Hx) as [v [G B]]. exists v. split; [exact G|lia].
Qed.

Lemma get_combine_zseq_inj (S : list Z) (i x y v : Z) :
  NoDup S -> In x S -> In y S ->
  get (combine S (zseq i (length S))) x = Some v ->
  get (combine S (zseq i (length S))) y = Some v -> x = y.
Proof.
  revert i; induction S as [|z S IH]; intros i Hnd Hx Hy Gx Gy; [destruct Hx|].
  inversion Hnd as [|? ? Hz Hr]; subst.
  unfold get in Gx, Gy; simpl in Gx, Gy.
  destruct (Z.eqb_spec z x) as [<-|Hzx], (Z.eqb_spec z y) as [<-|Hzy]; auto.
  - destruct Hy as [->|Hy]; [congruence|].
    destruct (get_combine_zseq S (i + 1) y Hy) as [w [G B]].
    unfold get in G. rewrite G in Gy. injection Gx as <-. injection Gy as ->. lia.
  - destruct Hx as [->|Hx]; [congruence|].
    destruct (get_combine_zseq S (i + 1) x Hx) as [w [G B]].
    unfold get in G. rewrite G in Gx. injection Gy as <-. injection Gx as ->. lia.
  - destruct Hx as [->|Hx]; [congruence|]. destruct Hy as [->|Hy]; [congruence|].
    apply (IH (i + 1)%Z); assumption.
Qed.

Lemma first_occurrences_complete (before l : list Z) (x : Z) :
  In x l -> In x before \/ In x (first_occurrences before l).
Proof.
  revert before; induction l as [|y r IH]; intros before Hx; [destruct Hx|].
  simpl. destruct (existsb (Z.eqb y) before) eqn:E.
  - destruct Hx as [<-|Hx].
    + left. apply existsb_Zeqb. exact E.
    + destruct (IH (y :: before) Hx) as [[<-|H]|H]; auto.
      left. apply existsb_Zeqb. exact E.
  - destruct Hx as [<-|Hx]; [right; left; reflexivity|].
    destruct (IH (y :: before) Hx) as [[<-|H]|H]; auto; right; [left|right]; auto.
Qed.

Lemma extracted_in (names : list string) (nm : string) (x : Z) :
  In nm names -> extract_digits_int nm = Some x -> In x (extracted names).
Proof.
  induction names as [|n r IH]; intros Hin E; [destruct Hin|].
  simpl. destruct Hin as [<-|Hin].
  - rewrite E. left. reflexivity.
  - destruct (extract_digits_int n); [right|]; auto.
Qed.

Lemma mapping_spec (names : list string) :
  enumerate_into [] 1 (collect_seen names) =
  combine (first_occurrences [] (extracted names))
          (zseq 1 (length (first_occurrences [] (extracted names)))).
Proof.
  rewrite collect_seen_spec, enumerate_into_spec;
    [reflexivity|apply first_occurrences_nodup|intros x _ []].
Qed.

Lemma length_mapping (names : list string) :
  length (enumerate_into [] 1 (collect_seen names)) =
  length (first_occurrences [] (extracted names)).
Proof. rewrite mapping_spec, length_combine, zseq_length. apply Nat.min_id. Qed.

Lemma in_first_occurrences (names : list string) (nm : string) (g : Z) :
  In nm names -> extract_digits_int nm = Some g ->
  In g (first_occurrences [] (extracted names)).
Proof.
  intros Hin E.
  destruct (first_occurrences_complete [] _ g (extracted_in _ _ _ Hin E)) as [[]|H].
  exact H.
Qed.

(** Renaming a name whose first digit run has value [g]: the run becomes
    [str(v)] for the number [v] that the mapping gives [g], between [1]
    and the number of distinct ids. *)
Lemma rename_extract (names : list string) (nm : string) (g : Z) :
  In nm names -> extract_digits_int nm = Some g ->
  let m := enumerate_into [] 1 (collect_seen names) in
  exists v pre post,
    get m g = Some v /\ map_group m g = v /\ (1 <= v <= Z.of_nat (length m))%Z /\
    rename m nm = (pre ++ str_Z v ++ post)%string /\
    first_digit_run (rename m nm) = Some (pre, str_Z v, post) /\
    extract_digits_int (rename m nm) = Some v.
Proof.
  intros Hin E m.
  pose proof (in_first_occurrences _ _ _ Hin E) as HS.
  destruct (get_combine_zseq _ 1 g HS) as [v [G B]].
  rewrite <- mapping_spec in G. fold m in G.
  assert (Hl : length m = length (first_occurrences [] (extracted names)))
    by apply length_mapping.
  unfold extract_digits_int in E.
  destruct (first_digit_run nm) as [[[pre d] post]|] eqn:F; [|discriminate].
  injection E as Ed.
  destruct (first_digit_run_some _ _ _ _ F) as [_ [Hpre [_ [_ Hpost]]]].
  assert (R : rename m nm = (pre ++ str_Z v ++ post)%string)
    by (apply (rename_some m nm pre d post v F); rewrite Ed; exact G).
  destruct (first_digit_run_str pre post v Hpre Hpost ltac:(lia)) as [F' V'].
  exists v, pre, post. rewrite R.
  split; [exact G|]. split; [unfold map_group; rewrite G; reflexivity|].
  split; [lia|]. split; [reflexivity|]. split; [exact F'|].
  unfold extract_digits_int. rewrite F', V'. reflexivity.
Qed.

Lemma rename_no_digits (m : mapping) (nm : string) :
  extract_digits_int nm = None -> rename m nm = nm.
Proof.
  unfold extract_digits_int. destruct (first_digit_run nm) as [[[pre d] post]|] eqn:F;
    [discriminate|]. intros _. apply rename_none. exact F.
Qed.

Lemma extracted_renamed (names all : list string) :
  incl names all ->
  extracted (map (rename (enumerate_into [] 1 (collect_seen all))) names) =
  map (map_group (enumerate_into [] 1 (collect_seen all))) (extracted names).
Proof.
  induction names as [|nm r IH]; intros Hincl; [reflexivity|].
  simpl. destruct (extract_digits_int nm) as [g|] eqn:E.
  - destruct (rename_extract all nm g (Hincl nm (or_introl eq_refl)) E)
      as [v [pre [post [_ [Hv [_ [_ [_ X]]]]]]]].
    rewrite X. cbn [map]. rewrite Hv. f_equal. apply IH. intros y Hy. apply Hincl. right. exact Hy.
  - rewrite rename_no_digits by exact E. rewrite E.
    apply IH. intros y Hy. apply Hincl. right. exact Hy.
Qed.

Lemma first_occurrences_map (f : Z -> Z) (before l : list Z) :
  (forall x y, In x (before ++ l) -> In y (before ++ l) -> f x = f y -> x = y) ->
  first_occurrences (map f before) (map f l) = map f (first_occurrences before l).
Proof.
  revert before; induction l as [|y r IH]; intros before Hinj; [reflexivity|].
  simpl.
  assert (Hy : existsb (Z.eqb (f y)) (map f before) = existsb (Z.eqb y) before).
  { destruct (existsb (Z.eqb y) before) eqn:E.
    - apply existsb_Zeqb. apply existsb_Zeqb in E. apply in_map. exact E.
    - apply not_true_iff_false. intros H. apply existsb_Zeqb, in_map_iff in H.
      destruct H as [x [Hfx Hx]].
      assert (x = y) as ->.
      { apply Hinj; [apply in_or_app; left; exact Hx|
                     apply in_or_app; right; left; reflexivity|exact Hfx]. }
      apply not_true_iff_false in E. apply E, existsb_Zeqb. exact Hx. }
  rewrite Hy.
  assert (Hinj' : forall x z, In x ((y :: before) ++ r) -> In z ((y :: before) ++ r) ->
                  f x = f z -> x = z).
  { intros x z Hx Hz. apply Hinj.
    - simpl in Hx. rewrite in_app_iff in *. simpl. tauto.
    - simpl in Hz. rewrite in_app_iff in *. simpl. tauto. }
  destruct (existsb (Z.eqb y) before).
  - exact (IH (y :: before) Hinj').
  - simpl. f_equal. exact (IH (y :: before) Hinj').
Qed.

Lemma map_group_seq (S : list Z) (i : Z) :
  NoDup S -> map (map_group (combine S (zseq i (length S)))) S = zseq i (length S).
Proof.
  revert i; induction S as [|z S IH]; intros i Hnd; [reflexivity|].
  inversion Hnd as [|? ? Hz Hr]; subst. simpl.
  unfold map_group at 1, get at 1. simpl. rewrite Z.eqb_refl. f_equal.
  transitivity (map (map_group (combine S (zseq (i + 1) (length S)))) S);
    [|apply IH; exact Hr].
  apply map_ext_in. intros y Hy.
  unfold map_group, get. simpl. destruct (Z.eqb_spec z y) as [->|_]; [contradiction|].
  reflexivity.
Qed.

Lemma get_diag (l : list Z) (v : Z) :
  In v l -> get (map (fun x => (x, x)) l) v = Some v.
Proof.
  induction l as [|x r IH]; intros H; [destruct H|].
  unfold get; simpl. destruct (Z.eqb_spec x v) as [->|Hne]; [reflexivity|].
  destruct H as [->|H]; [congruence|]. apply IH. exact H.
Qed.

Lemma combine_diag (l : list Z) : combine l l = map (fun x => (x, x)) l.
Proof. induction l; simpl; f_equal; auto. Qed.

Lemma digits_value_str (v : Z) : (0 < v)%Z -> digits_value (str_Z v) = v.
Proof.
  intros Hv. destruct v as [|p|p]; try lia.
  destruct (str_pos_spec p) as [c [r [E [_ [_ V]]]]]. rewrite E. exact V.
Qed.

Lemma in_seen (names : list string) (x : Z) :
  In x (extracted names) -> In x (first_occurrences [] (extracted names)).
Proof.
  intros Hx. destruct (first_occurrences_complete [] _ x Hx) as [[]|H]. exact H.
Qed.

Lemma map_group_inj (names : list string) (x y : Z) :
  In x (extracted names) -> In y (extracted names) ->
  map_group (enumerate_into [] 1 (collect_seen names)) x =
  map_group (enumerate_into [] 1 (collect_seen names)) y -> x = y.
Proof.
  intros Hx Hy E. rewrite mapping_spec in E.
  apply in_seen in Hx, Hy.
  set (S := first_occurrences [] (extracted names)) in *.
  destruct (get_combine_zseq S 1 x Hx) as [vx [Gx _]].
  destruct (get_combine_zseq S 1 y Hy) as [vy [Gy _]].
  unfold map_group in E. rewrite Gx, Gy in E. subst vy.
  apply (get_combine_zseq_inj S 1 x y vx); [apply first_occurrences_nodup|..]; assumption.
Qed.

Lemma renamed_seen (names : list string) :
  let m := enumerate_into [] 1 (collect_seen names) in
  first_occurrences [] (extracted (map (rename m) names)) = zseq 1 (length m).
Proof.
  intros m. unfold m. rewrite (extracted_renamed names names (incl_refl _)).
  pose proof (first_occurrences_map
                (map_group (enumerate_into [] 1 (collect_seen names))) []
                (extracted names) (fun x y => map_group_inj names x y)) as H.
  cbn [map] in H. rewrite H, length_mapping, mapping_spec.
  apply map_group_seq, first_occurrences_nodup.
Qed.

Lemma mapping_of_renamed (names : list string) :
  let m := enumerate_into [] 1 (collect_seen names) in
  enumerate_into [] 1 (collect_seen (map (rename m) names)) =
  map (fun v => (v, v)) (zseq 1 (length m)).
Proof.
  intros m. rewrite mapping_spec. unfold m. rewrite renamed_seen, zseq_length.
  apply combine_diag.
Qed.

(** Running [renumber_global_names] (delete_ogs.py) on its own output
    changes nothing: every renamed name comes back as it is, and the
    second mapping sends each of [1..N] to itself. *)
Theorem renumber_global_names_idempotent (names : list string) :
  let renamed := fst (renumber_global_names names) in
  let N := length (snd (renumber_global_names names)) in
  renumber_global_names renamed = (renamed, map (fun v => (v, v)) (zseq 1 N)).
Proof.
  intros renamed N. unfold renamed, N, renumber_global_names. cbn [fst snd].
  rewrite mapping_of_renamed. f_equal.
  set (m := enumerate_into [] 1 (collect_seen names)).
  rewrite map_map. apply map_ext_in. intros nm Hin.
  destruct (extract_digits_int nm) as [g|] eqn:E.
  - destruct (rename_extract names nm g Hin E) as [v [pre [post [_ [_ [B [R [F _]]]]]]]].
    fold m in B, R, F. rewrite R in F |- *.
    apply (rename_some _ _ pre (str_Z v) post v F).
    rewrite digits_value_str by lia. apply get_diag. apply zseq_in. lia.
  - rewrite (rename_no_digits m nm E). apply rename_no_digits. exact E.
Qed.

Lemma split_renumber_eq (names : list string) :
  split_renumber_global_names names = renumber_global_names names.
Proof.
  unfold split_renumber_global_names, renumber_global_names. f_equal.
  apply map_ext_in. intros nm Hin. unfold map_name.
  destruct (extract_digits_int nm) as [g|] eqn:E.
  - destruct (rename_extract names nm g Hin E) as [v [pre [post [G _]]]].
    rewrite G. unfold rename. rewrite E. simpl. rewrite G. reflexivity.
  - symmetry. apply rename_no_digits. exact E.
Qed.

(** split_matchingstar.renumber_global_names, whose [_map_name] keeps a
    name when its digit run has no entry in the mapping, gives the same
    names and the same mapping as delete_ogs.renumber_global_names: every
    digit run it meets is in the mapping. *)
Theorem split_renumber_agrees (names : list string) :
  split_renumber_global_names names = renumber_global_names names.
Proof. exact (split_renumber_eq names). Qed.

Lemma fold_min_spec (r : list Z) (n : Z) :
  In (fold_left Z.min r n) (n :: r) /\
  forall x, In x (n :: r) -> (fold_left Z.min r n <= x)%Z.
Proof.
  revert n; induction r as [|y r IH]; intros n; simpl.
  - split; [left; reflexivity|]. intros x [<-|[]]. lia.
  - destruct (IH (Z.min n y)) as [H1 H2]. split.
    + destruct H1 as [E|H1]; [|right; right; exact H1].
      rewrite <- E. destruct (Z.min_spec n y) as [[_ M]|[_ M]]; rewrite M; simpl; auto.
    + intros x [<-|[<-|Hx]].
      * specialize (H2 (Z.min n y) (or_introl eq_refl)). lia.
      * specialize (H2 (Z.min n y) (or_introl eq_refl)). lia.
      * apply H2. right. exact Hx.
Qed.

Lemma fold_max_spec (r : list Z) (n : Z) :
  In (fold_left Z.max r n) (n :: r) /\
  forall x, In x (n :: r) -> (x <= fold_left Z.max r n)%Z.
Proof.
  revert n; induction r as [|y r IH]; intros n; simpl.
  - split; [left; reflexivity|]. intros x [<-|[]]. lia.
  - destruct (IH (Z.max n y)) as [H1 H2]. split.
    + destruct H1 as [E|H1]; [|right; right; exact H1].
      rewrite <- E. destruct (Z.max_spec n y) as [[_ M]|[_ M]]; rewrite M; simpl; auto.
    + intros x [<-|[<-|Hx]].
      * specialize (H2 (Z.max n y) (or_introl eq_refl)). lia.
      * specialize (H2 (Z.max n y) (or_introl eq_refl)). lia.
      * apply H2. right. exact Hx.
Qed.

Lemma flat_map_extracted (names : list string) :
  flat_map (fun s => match extract_digits_int s with
                     | Some n => [n]
                     | None => []
                     end) names = extracted names.
Proof.
  induction names as [|nm r IH]; [reflexivity|]. simpl.
  destruct (extract_digits_int nm); simpl; rewrite IH; reflexivity.
Qed.

Lemma map_group_range (names : list string) (x : Z) :
  In x (extracted names) ->
  let m := enumerate_into [] 1 (collect_seen names) in
  (1 <= map_group m x <= Z.of_nat (length m))%Z.
Proof.
  intros Hx m. apply in_seen in Hx.
  destruct (get_combine_zseq _ 1 x Hx) as [v [G B]].
  rewrite <- mapping_spec in G. fold m in G.
  unfold map_group. rewrite G. unfold m. rewrite length_mapping. lia.
Qed.

Lemma map_group_hits (names : list string) (v : Z) :
  let m := enumerate_into [] 1 (collect_seen names) in
  (1 <= v <= Z.of_nat (length m))%Z ->
  In v (map (map_group m) (extracted names)).
Proof.
  intros m Hv.
  assert (H : In v (map (map_group m) (first_occurrences [] (extracted names)))).
  { unfold m at 1. rewrite mapping_spec, map_group_seq by apply first_occurrences_nodup.
    apply zseq_in. unfold m in Hv. rewrite length_mapping in Hv. lia. }
  apply in_map_iff in H. destruct H as [x [Ex Hx]].
  apply in_map_iff. exists x. split; [exact Ex|].
  apply first_occurrences_in in Hx. apply Hx.
Qed.

(** split_matchingstar.get_og_range on a column renamed by
    split_matchingstar.renumber_global_names is [(1, N)], [N] the number
    of distinct ids in the mapping, and [(0, 0)] when no name of the
    column has a digit run. *)
Theorem og_range_after_renumber (names : list string) :
  let '(renamed, old_to_new) := split_renumber_global_names names in
  get_og_range renamed =
    match old_to_new with
    | [] => (0%Z, 0%Z)
    | _ => (1%Z, Z.of_nat (length old_to_new))
    end.
Proof.
  rewrite split_renumber_eq. unfold renumber_global_names.
  unfold get_og_range. rewrite flat_map_extracted.
  rewrite (extracted_renamed names names (incl_refl _)).
  set (m := enumerate_into [] 1 (collect_seen names)).
  assert (Hall : forall x, In x (extracted names) ->
            (1 <= map_group m x <= Z.of_nat (length m))%Z).
  { intros x Hx. exact (map_group_range names x Hx). }
  assert (Hhit : forall v, (1 <= v <= Z.of_nat (length m))%Z ->
            In v (map (map_group m) (extracted names))).
  { intros v Hv. exact (map_group_hits names v Hv). }
  assert (Hnil : extracted names = [] -> m = []).
  { intros HE. unfold m. rewrite mapping_spec, HE. reflexivity. }
  clearbody m. destruct (extracted names) as [|e E'].
  - rewrite (Hnil eq_refl). reflexivity.
  - clear Hnil. cbn [map] in *.
    assert (Hm : (1 <= Z.of_nat (length m))%Z)
      by (specialize (Hall e (or_introl eq_refl)); lia).
    destruct (fold_min_spec (map (map_group m) E') (map_group m e)) as [Mi1 Mi2].
    destruct (fold_max_spec (map (map_group m) E') (map_group m e)) as [Ma1 Ma2].
    assert (Hb : forall y, In y (map_group m e :: map (map_group m) E') ->
              (1 <= y <= Z.of_nat (length m))%Z).
    { intros y [<-|Hy]; [apply Hall; left; reflexivity|].
      apply in_map_iff in Hy. destruct Hy as [x [<- Hx]]. apply Hall. right. exact Hx. }
    specialize (Mi2 1%Z (Hhit 1%Z ltac:(lia))).
    specialize (Ma2 _ (Hhit (Z.of_nat (length m)) ltac:(lia))).
    apply Hb in Mi1. apply Hb in Ma1.
    destruct m as [|p m']; [simpl in Hm; lia|]. f_equal; lia.
Qed.

Lemma agreement_in_extracted (df_optics : list optics_row) (r : optics_row) :
  (forall r, In r df_optics -> extract_digits_int (og_name r) = Some (og_group r)) ->
  In r df_optics -> In (og_group r) (extracted (map og_name df_optics)).
Proof.
  intros H Hr. apply (extracted_in _ (og_name r)); [apply in_map; exact Hr|].
  apply H. exact Hr.
Qed.

(** When the first digit run of every optics name is the row's
    [rlnOpticsGroup], renumber_optics_and_particles (split_matchingstar.py)
    keeps that agreement in every new optics row, with the groups now in
    [1..N] ([N] the size of the mapping); and a particle whose group is the
    group of some optics row gets, after renumbering, the same group as
    exactly the optics rows it had the same group as before. *)
Theorem renumber_optics_and_particles_consistent
    (df_optics : list optics_row) (df_particles : list particle_row) :
  (forall r, In r df_optics -> extract_digits_int (og_name r) = Some (og_group r)) ->
  let '(df_opt_new, df_part_new, mapping) :=
    renumber_optics_and_particles df_optics df_particles in
  (forall r, In r df_opt_new ->
     extract_digits_int (og_name r) = Some (og_group r) /\
     (1 <= og_group r <= Z.of_nat (length mapping))%Z) /\
  (forall i j p r p' r',
     nth_error df_particles i = Some p -> nth_error df_optics j = Some r ->
     nth_error df_part_new i = Some p' -> nth_error df_opt_new j = Some r' ->
     In (pt_group p) (map og_group df_optics) ->
     (pt_group p' = og_group r' <-> pt_group p = og_group r)).
Proof.
  intros H. cbv beta iota zeta delta [renumber_optics_and_particles].
  set (m := enumerate_into [] 1 (collect_seen (map og_name df_optics))).
  split.
  - intros r Hr. apply in_map_iff in Hr. destruct Hr as [r0 [<- Hr0]]. cbn [og_name og_group].
    destruct (rename_extract (map og_name df_optics) (og_name r0) (og_group r0)
                (in_map og_name _ _ Hr0) (H r0 Hr0))
      as [v [pre [post [_ [Hv [B [_ [_ X]]]]]]]].
    fold m in Hv, B, X. rewrite Hv. split; [exact X|exact B].
  - intros i j p r p' r' Hp Hr Hp' Hr' Hg.
    rewrite nth_error_map, Hp in Hp'. rewrite nth_error_map, Hr in Hr'.
    injection Hp' as <-. injection Hr' as <-. cbn [pt_group og_group].
    apply in_map_iff in Hg. destruct Hg as [r0 [Eg Hr0]].
    assert (Ip : In (pt_group p) (extracted (map og_name df_optics))).
    { rewrite <- Eg. apply agreement_in_extracted; assumption. }
    assert (Ir : In (og_group r) (extracted (map og_name df_optics))).
    { apply agreement_in_extracted; [exact H|]. apply nth_error_In in Hr. exact Hr. }
    split; [apply map_group_inj; assumption|intros ->; reflexivity].
Qed.




(** Three optics groups named after their numbers, and particles in
    each of them. *)
Definition example_optics : list optics_row :=
  [mk_optics 3 "opticsGroup3" ["0.5"]; mk_optics 5 "opticsGroup5" ["0.6"];
   mk_optics 7 "opticsGroup7" ["0.7"]].

Definition example_particles : list particle_row :=
  [mk_particle 5 ["p1"]; mk_particle 3 ["p2"]; mk_particle 7 ["p3"]].

Lemma renumber_optics_and_particles_consistent_witness :
  (forall r, In r example_optics -> extract_digits_int (og_name r) = Some (og_group r)) /\
  let '(df_opt_new, df_part_new, mapping) :=
    renumber_optics_and_particles example_optics example_particles in
  (forall r, In r df_opt_new ->
     extract_digits_int (og_name r) = Some (og_group r) /\
     (1 <= og_group r <= Z.of_nat (length mapping))%Z) /\
  (forall i j p r p' r',
     nth_error example_particles i = Some p -> nth_error example_optics j = Some r ->
     nth_error df_part_new i = Some p' -> nth_error df_opt_new j = Some r' ->
     In (pt_group p) (map og_group example_optics) ->
     (pt_group p' = og_group r' <-> pt_group p = og_group r)).
Proof.
  assert (H : forall r, In r example_optics ->
                extract_digits_int (og_name r) = Some (og_group r)).
  { intros r Hr. repeat (destruct Hr as [<-|Hr]; [reflexivity|]). destruct Hr. }
  split; [exact H|]. exact (renumber_optics_and_particles_consistent
                              example_optics example_particles H).
Defined.


End GroupProofs.

(* ------------------------------------------------------------------ *)
(** ** Filters of lst2star.read_lst, row numbers of read_lst2 *)

Module LstMore.
Import Binning Lst LstProofs Deprecated.
Local Open Scope list_scope.

(** [l1] is [l2] with some elements left out, the others in order. *)
Inductive subseq {A : Type} : list A -> list A -> Prop :=
| subseq_nil : subseq [] []
| subseq_keep (x : A) (l1 l2 : list A) : subseq l1 l2 -> subseq (x :: l1) (x :: l2)
| subseq_drop (x : A) (l1 l2 : list A) : subseq l1 l2 -> subseq l1 (x :: l2).

Lemma subseq_app {A : Type} (a1 a2 b1 b2 : list A) :
  subseq a1 a2 -> subseq b1 b2 -> subseq (a1 ++ b1) (a2 ++ b2).
Proof.
  intros H Hb. induction H; simpl; [exact Hb|constructor; exact IHsubseq|].
  apply subseq_drop. exact IHsubseq.
Qed.

Lemma line_tag_unfiltered (param : option string) (greaterthan lessthan : option fval)
    (use_abs : bool) (line t : string) :
  line_tag param greaterthan lessthan use_abs line = Some t ->
  line_tag None None None false line = Some t.
Proof.
  unfold line_tag.
  destruct (String.eqb (Py.strip line) "" || Py.startswith (Py.strip line) "#");
    [discriminate|].
  destruct (Py.split (Py.strip line)) as [|p0 [|mp rest]]; try discriminate.
  destruct (py_int_str p0) as [image_id|]; [|discriminate].
  intros H. repeat match goal with
  | H : context [match ?x with _ => _ end] |- _ => destruct x
  | H : context [if ?b then _ else _] |- _ => destruct b
  end; congruence.
Qed.

(** Adding [--column], [--greaterthan] or [--lessthan] to lst2star's
    [read_lst] never adds or reorders tags: what it keeps is the list
    kept with no filter at all, some tags left out. *)
Theorem read_lst_filter_subseq (param : option string) (greaterthan lessthan : option fval)
    (use_abs : bool) (lines : list string) :
  subseq (read_lst param greaterthan lessthan use_abs lines)
         (read_lst None None None false lines).
Proof.
  rewrite !read_lst_flat_map. induction lines as [|ln r IH]; simpl; [constructor|].
  apply subseq_app; [|exact IH].
  unfold tag_list. destruct (line_tag param greaterthan lessthan use_abs ln) eqn:E.
  - rewrite (line_tag_unfiltered _ _ _ _ _ _ E). constructor. constructor.
  - destruct (line_tag None None None false ln); [apply subseq_drop|]; constructor.
Qed.

(** The lines [read_lst2] gives a row number to: not blank, not a
    comment, first field an integer. *)
Definition lst2_data_line (line : string) : bool :=
  let s := Py.strip line in
  negb (String.eqb s "" || Py.startswith s "#") &&
  match py_int_str (hd "" (Py.split s)) with Some _ => true | None => false end.

Lemma dict_set_absent_nat (m : Dict.dict nat string) (k : nat) (v : string) :
  ~ In k (map fst m) -> Dict.set Nat.eqb m k v = m ++ [(k, v)].
Proof.
  induction m as [|[k' v'] r IH]; intros H; simpl; [reflexivity|].
  destruct (Nat.eqb_spec k' k) as [->|_].
  - exfalso. apply H. left. reflexivity.
  - rewrite IH; [reflexivity|]. intros Hk. apply H. right. exact Hk.
Qed.

Lemma fold_lst2_raise (lines : list string) (msg : string) :
  fold_left read_lst2_step lines (Raise msg) = Raise msg.
Proof. induction lines as [|ln r IH]; [reflexivity|]. exact IH. Qed.

Lemma fold_lst2 (lines : list string) : forall m k m' k',
  map fst m = seq 0 k ->
  fold_left read_lst2_step lines (Ok (m, k)) = Ok (m', k') ->
  map fst m' = seq 0 k' /\ k' = k + length (filter lst2_data_line lines).
Proof.
  induction lines as [|ln r IH]; intros m k m' k' Hm E.
  - simpl in E. injection E as <- <-. split; [exact Hm|simpl; lia].
  - cbn [fold_left] in E. unfold read_lst2_step at 2 in E. simpl.
    unfold lst2_data_line at 1.
    destruct (String.eqb (Py.strip ln) "" || Py.startswith (Py.strip ln) "#") eqn:B.
    + simpl. exact (IH _ _ _ _ Hm E).
    + destruct (py_int_str (hd "" (Py.split (Py.strip ln)))) as [image_id|] eqn:P.
      * destruct (Py.split (Py.strip ln)) as [|p0 [|mp rest]];
          try (rewrite fold_lst2_raise in E; discriminate).
        rewrite dict_set_absent_nat in E
          by (rewrite Hm; intros Hin; apply in_seq in Hin; lia).
        assert (Hm2 : map fst (m ++ [(k, Tag.image_tag image_id mp)]) = seq 0 (S k))
          by (rewrite map_app, Hm, seq_S; reflexivity).
        destruct (IH _ _ _ _ Hm2 E) as [H1 H2].
        split; [exact H1|]. simpl. lia.
      * simpl. exact (IH _ _ _ _ Hm E).
Qed.

(** [read_lst2] of the deprecated lstFiltered2star.py numbers the rows
    [0, 1, ..., n-1] in file order, [n] the number of lines that are not
    blank, not comments and start with an integer: every such line gets
    the next row number, and no other line gets one. *)
Theorem read_lst2_rows (lines : list string) (mapping : Dict.dict nat string) :
  read_lst2 lines = Ok mapping ->
  map fst mapping = seq 0 (length mapping) /\
  length mapping = length (filter lst2_data_line lines).
Proof.
  unfold read_lst2. destruct (fold_left read_lst2_step lines (Ok ([], 0))) as [[m k]|msg] eqn:E;
    [|discriminate].
  intros H. injection H as <-.
  destruct (fold_lst2 lines [] 0 m k eq_refl E) as [H1 H2].
  assert (L : length m = k) by (rewrite <- (length_map fst m), H1; apply length_seq).
  rewrite L. split; [exact H1|exact H2].
Qed.

(** An input LST with a comment, a blank line and a line whose first
    field is not an integer. *)
Definition example_lst2 : list string :=
  ["#LST"; "0 stack_a.mrcs"; ""; "name stack_b.mrcs"; "7 stack_b.mrcs"].

Definition example_lst2_mapping : Dict.dict nat string :=
  Eval vm_compute in
    match read_lst2 example_lst2 with Ok m => m | Raise _ => [] end.

Lemma read_lst2_rows_witness :
  read_lst2 example_lst2 = Ok example_lst2_mapping /\
  map fst example_lst2_mapping = seq 0 (length example_lst2_mapping) /\
  length example_lst2_mapping = length (filter lst2_data_line example_lst2).
Proof.
  assert (H : read_lst2 example_lst2 = Ok example_lst2_mapping) by reflexivity.
  split; [exact H|]. exact (read_lst2_rows example_lst2 example_lst2_mapping H).
Defined.

End LstMore.

(* ------------------------------------------------------------------ *)
(** ** lst2star.filter_star when every image is kept *)

Module StarMore.
Import Binning Star StarProofs HistogramProofs.
Local Open Scope list_scope.

Lemma map_nth_seq_id (v : list string) :
  map (fun i => nth i v "") (seq 0 (length v)) = v.
Proof.
  induction v as [|x r IH]; [reflexivity|]. simpl. f_equal.
  rewrite <- seq_shift, map_map. exact IH.
Qed.

Lemma kept_indices_all (names keep : list string) :
  (forall x, In x names -> In x keep) ->
  kept_indices names keep = seq 0 (length names).
Proof.
  intros H. unfold kept_indices. apply filter_all_true. intros i Hi.
  apply in_seq in Hi. unfold isin. apply existsb_exists.
  exists (nth i names ""). split; [apply H, nth_In; lia|apply String.eqb_refl].
Qed.

(** The rows of the particle blocks of a document. *)
Definition particle_rows (nb : string * block) : nat :=
  match sget (snd nb) "rlnImageName" with
  | Some names => length names
  | None => 0
  end.

(** [filter_star] of lst2star.py with every image name kept: when each
    particle block has at least one row and all its columns as long as
    [rlnImageName], the written text is that of the input document
    itself, and the returned count is the number of its particle rows. *)
Theorem filter_star_keep_all (star : doc) (keep : list string) :
  wf_doc star ->
  (forall name blk names, In (name, blk) star -> sget blk "rlnImageName" = Some names ->
     names <> [] /\ (forall x, In x names -> In x keep) /\
     (forall k v, In (k, v) blk -> length v = length names)) ->
  filter_star star keep = Ok (star_text star, list_sum (map particle_rows star)).
Proof.
  intros [ND WF] H. unfold filter_star, output_blocks.
  assert (E : flat_map (block_out keep) star = star /\
              map (kept_count keep) star = map particle_rows star).
  { clear ND WF. induction star as [|[name blk] r IH]; [split; reflexivity|].
    assert (H' : forall name blk names, In (name, blk) r ->
                   sget blk "rlnImageName" = Some names ->
                   names <> [] /\ (forall x, In x names -> In x keep) /\
                   (forall k v, In (k, v) blk -> length v = length names))
      by (intros n b ns Hin; exact (H n b ns (or_intror Hin))).
    destruct (IH H') as [IH1 IH2]. simpl. rewrite IH1, IH2.
    change (particle_rows (name, blk)) with
      (match sget blk "rlnImageName" with Some names => length names | None => 0 end).
    change (kept_count keep (name, blk)) with
      (match sget blk "rlnImageName" with
       | Some names => length (kept_indices names keep) | None => 0 end).
    destruct (sget blk "rlnImageName") as [names|] eqn:G; [|split; reflexivity].
    destruct (H name blk names (or_introl eq_refl) G) as [Hne [Hin Hlen]].
    rewrite (kept_indices_all names keep Hin).
    assert (Hs : exists i0 is, seq 0 (length names) = i0 :: is)
      by (destruct names; [congruence|eexists; eexists; reflexivity]).
    destruct Hs as [i0 [is Es]]. rewrite Es. cbv iota beta. rewrite <- Es.
    split; [|rewrite length_seq; reflexivity].
    cbn [app]. f_equal. f_equal.
    unfold select_rows.
    transitivity (map (fun kv : string * list string => kv) blk); [|apply map_id].
    apply map_ext_in. intros [k v] Hkv. cbn [fst snd]. f_equal.
    rewrite <- (Hlen k v Hkv). apply map_nth_seq_id. }
  destruct E as [E1 E2].
  pose proof (output_fold keep star [] 0%nat ND WF (fun n H => match H with end)) as F.
  unfold doc, Dict.dict in *. rewrite F, E1, E2. reflexivity.
Qed.

Definition example_keep_all_star : doc :=
  [("optics", [("rlnOpticsGroup", ["1"])]);
   ("particles", [("rlnImageName", ["000001@b.mrcs"; "000002@b.mrcs"]);
                  ("rlnOpticsGroup", ["1"; "1"])])].

Lemma filter_star_keep_all_witness :
  filter_star example_keep_all_star ["000002@b.mrcs"; "000001@b.mrcs"] =
    Ok (star_text example_keep_all_star, list_sum (map particle_rows example_keep_all_star)).
Proof.
  apply filter_star_keep_all.
  - split.
    + constructor; [simpl; intuition discriminate|].
      constructor; [simpl; tauto|constructor].
    + constructor; [|constructor; [|constructor]]; split.
      * constructor; [simpl; tauto|constructor].
      * intros names G. vm_compute in G. discriminate G.
      * constructor; [simpl; intuition discriminate|].
        constructor; [simpl; tauto|constructor].
      * intros names G. vm_compute in G. injection G as <-. intros k v Hkv.
        destruct Hkv as [E|[E|[]]]; injection E as _ <-; simpl; lia.
  - intros name blk names Hin G.
    destruct Hin as [E|[E|[]]]; injection E as <- <-; vm_compute in G;
      [discriminate G|injection G as <-].
    split; [discriminate|]. split.
    + intros x [<-|[<-|[]]]; simpl; tauto.
    + intros k v [E|[E|[]]]; injection E as _ <-; reflexivity.
Defined.

End StarMore.

(* ------------------------------------------------------------------ *)
(** ** The two halves of fix_dose_split_tomograms *)

Module SplitProofs.
Import Groups.
Local Open Scope list_scope.

Lemma existsb_String_eqb (x : string) (l : list string) :
  existsb (String.eqb x) l = true <-> In x l.
Proof.
  rewrite existsb_exists. split.
  - intros [y [Hy E]]. apply String.eqb_eq in E. subst. exact Hy.
  - intros H. exists x. split; [exact H|apply String.eqb_refl].
Qed.

Lemma nodup_app_disjoint {A : Type} (a b : list A) (x : A) :
  NoDup (a ++ b) -> In x a -> In x b -> False.
Proof.
  induction a as [|y r IH]; simpl; intros ND Ha Hb; [exact Ha|].
  inversion ND as [|? ? Hy ND']; subst. destruct Ha as [<-|Ha].
  - apply Hy. apply in_or_app. right. exact Hb.
  - exact (IH ND' Ha Hb).
Qed.

Lemma filter_true_in {A : Type} (p : A -> bool) (l : list A) :
  (forall x, In x l -> p x = true) -> filter p l = l.
Proof.
  induction l as [|x l IH]; simpl; intros H; [reflexivity|].
  rewrite (H x (or_introl eq_refl)). f_equal. apply IH. intros y Hy. apply H. right. exact Hy.
Qed.

Lemma filter_firstn_nodup {A : Type} (f : A -> string) (k : nat) (l : list A) :
  NoDup (map f l) ->
  filter (fun r => existsb (String.eqb (f r)) (firstn k (map f l))) l = firstn k l.
Proof.
  revert k; induction l as [|r l IH]; intros k ND; [destruct k; reflexivity|].
  destruct k as [|k].
  - simpl. clear IH ND. induction l as [|x l' IHl]; [reflexivity|exact IHl].
  - inversion ND as [|? ? Hr ND']; subst. cbn [map firstn filter existsb].
    rewrite String.eqb_refl. simpl. f_equal. rewrite <- (IH k ND').
    apply filter_ext_in. intros x Hx.
    replace (String.eqb (f x) (f r)) with false; [reflexivity|].
    symmetry. apply String.eqb_neq. intros E. apply Hr. rewrite <- E.
    apply in_map. exact Hx.
Qed.

Lemma filter_skipn_nodup {A : Type} (f : A -> string) (k : nat) (l : list A) :
  NoDup (map f l) ->
  filter (fun r => existsb (String.eqb (f r)) (skipn k (map f l))) l = skipn k l.
Proof.
  revert k; induction l as [|r l IH]; intros k ND; [destruct k; reflexivity|].
  inversion ND as [|? ? Hr ND']; subst. destruct k as [|k].
  - cbn [skipn]. apply filter_true_in. intros x Hx.
    apply existsb_String_eqb. apply in_map. exact Hx.

  - cbn [map skipn filter].
    replace (existsb (String.eqb (f r)) (skipn k (map f l))) with false.
    + apply IH. exact ND'.
    + symmetry. apply not_true_iff_false. intros H. apply existsb_String_eqb in H.
      apply Hr. rewrite <- (firstn_skipn k (map f l)). apply in_or_app. right. exact H.
Qed.

(** The split of [fix_dose_split_tomograms] in split_matchingstar.py:
    when the tomogram names of the global table are distinct, the first
    half holds the first ceil(n/2) global rows and the second half holds
    the rest, in their original order. Each per-tomogram block other than
    [global] goes with its tomogram's row, and a block naming no tomogram
    goes to neither half. *)
Theorem split_global_halves {B : Type} (df_global : list global_row)
    (star : list (string * B)) :
  NoDup (map gl_tomo df_global) ->
  let '((g1, b1), (g2, b2)) := split_global df_global star in
  g1 ++ g2 = df_global /\
  length g1 = ((length df_global + 1) / 2)%nat /\
  (forall k blk, In (k, blk) star -> k <> "global" ->
     (In (k, blk) b1 <-> In k (map gl_tomo g1)) /\
     (In (k, blk) b2 <-> In k (map gl_tomo g2))).
Proof.
  intros ND. unfold split_global.
  set (half := ((length (map gl_tomo df_global) + 1) / 2)%nat).
  rewrite (filter_firstn_nodup gl_tomo half df_global ND).
  rewrite (filter_skipn_nodup gl_tomo half df_global ND).
  split; [apply firstn_skipn|]. split.
  - rewrite length_firstn. unfold half. rewrite length_map.
    apply Nat.min_l. destruct (length df_global) as [|n]; [reflexivity|].
    apply Nat.Div0.div_le_upper_bound. lia.
  - intros k blk Hin Hk.
    assert (Hg : String.eqb k "global" = false) by (apply String.eqb_neq; exact Hk).
    rewrite <- firstn_map, <- skipn_map.
    assert (Hdis : In k (firstn half (map gl_tomo df_global)) ->
                   In k (skipn half (map gl_tomo df_global)) -> False).
    { apply nodup_app_disjoint. rewrite firstn_skipn. exact ND. }
    pose proof (existsb_String_eqb k (firstn half (map gl_tomo df_global))) as E1.
    pose proof (existsb_String_eqb k (skipn half (map gl_tomo df_global))) as E2.
    split; rewrite filter_In; cbn [fst]; rewrite Hg; simpl.
    + tauto.
    + rewrite andb_true_iff, negb_true_iff, <- not_true_iff_false.
      split; [tauto|]. intros H. split; [exact Hin|]. split; [|tauto].
      intros H1. apply E1 in H1. exact (Hdis H1 H).
Qed.

Definition example_global : list global_row :=
  mk_global "TS_01" "opticsGroup3" nil :: mk_global "TS_02" "opticsGroup5" nil
  :: mk_global "TS_03" "opticsGroup7" nil :: nil.

Definition example_tomo_star : list (string * nat) :=
  ("global", 0%nat) :: ("TS_01", 1%nat) :: ("TS_02", 2%nat) :: ("TS_03", 3%nat)
  :: ("TS_09", 9%nat) :: nil.

Lemma split_global_halves_witness :
  NoDup (map gl_tomo example_global) /\
  (let '((g1, b1), (g2, b2)) := split_global example_global example_tomo_star in
   g1 ++ g2 = example_global /\
   length g1 = ((length example_global + 1) / 2)%nat /\
   (forall k blk, In (k, blk) example_tomo_star -> k <> "global" ->
      (In (k, blk) b1 <-> In k (map gl_tomo g1)) /\
      (In (k, blk) b2 <-> In k (map gl_tomo g2)))).
Proof.
  assert (ND : NoDup (map gl_tomo example_global)).
  { simpl. repeat constructor; simpl; intros H; repeat destruct H as [H|H];
      try discriminate; exact H. }
  split; [exact ND|]. exact (split_global_halves example_global example_tomo_star ND).
Defined.

End SplitProofs.
